(** * Order placement and payment confirmation of the storefront backend

    A shallow embedding of the Express route handlers that place an order
    (routes/orders: [POST /], [PUT /:id/status]), confirm a payment
    (routes/payments: [POST /process]), and of the handlers that write the
    tables those two read (routes/products, routes/cart), over an explicit
    model of the SQLite store; then of the list of a user's orders
    (routes/orders: [GET /]) and of the address book (routes/users:
    [POST], [PUT] and [DELETE /addresses]).

    Conventions of the model.
    - A JS number is an IEEE 754 binary64 value: Rocq's primitive [float].
    - An INTEGER column is a [Z]; the model assumes such values are integers
      that a JS number represents exactly, so comparing two of them in JS is
      the comparison on [Z].  Where JS multiplies an integer column with a
      price the integer is first rounded to binary64 ([JS.of_int]).  A
      quantity in a request body is an integer as well: a fractional one,
      which no handler refuses, is outside the model.
    - A table is the list of its rows in rowid order; a [SELECT] without
      [ORDER BY] returns rows in that order, a join as a nested loop.
      [ORDER BY] sorts the rows of the scan and keeps rows with equal keys
      in the order of the scan.
    - Every execution of a prepared statement either takes effect or throws
      (a constraint violation, an I/O error, a busy database); which one is
      decided by the environment, given to a handler as the list [faults].
      The empty list is the run in which the store raises no error.  The
      FOREIGN KEY and UNIQUE constraints are among these throws and are not
      computed from the tables (the model holds neither [users] nor, beside
      the orders, [addresses]): whether an insert can go through for a
      given request is therefore not settled by the model, and what is
      proved of a handler that inserts holds for every list [faults] or is
      conditional on its answer.  The NOT NULL constraint that an update of
      a product can violate is computed ([constrained]).
    - [Date.now()], [Math.random()] and [CURRENT_TIMESTAMP] are read from an
      [environment] record.
    - A handler is modelled from the point where the [authenticateToken] and
      [requireAdmin] middleware have let the request through: [userId] is
      [req.user.userId]. *)

From Stdlib Require Import ZArith List String Ascii Bool Floats Lia.
From Stdlib Require Import Permutation Sorted.
Import ListNotations.

Set Warnings "-inexact-float".
Local Open Scope Z_scope.
Local Open Scope string_scope.

(** ** JavaScript values *)

Module JS.

Definition number := float.

(** An integer column as the JS number the driver hands out. *)
Definition of_int (z : Z) : number :=
  SF2Prim (binary_normalize prec emax z 0 false).

(** Truthiness of an optional integer field of a JSON body: [undefined],
    [null] and [0] are falsy. *)
Definition truthy_int (v : option Z) : bool :=
  match v with
  | Some z => negb (Z.eqb z 0)
  | None => false
  end.

(** Truthiness of an optional string field: [undefined], [null] and the
    empty string are falsy. *)
Definition truthy_string (v : option string) : bool :=
  match v with
  | Some s => negb (String.eqb s "")
  | None => false
  end.

(** Truthiness of an optional number field: [undefined], [null], [0] and
    [NaN] are falsy. *)
Definition truthy_number (v : option number) : bool :=
  match v with
  | Some x => negb (PrimFloat.eqb x 0 || PrimFloat.is_nan x)
  | None => false
  end.

(** [v || null] *)
Definition int_or_null (v : option Z) : option Z :=
  if truthy_int v then v else None.

Definition string_or_null (v : option string) : option string :=
  if truthy_string v then v else None.

(** [v || d] *)
Definition string_or (v : option string) (d : string) : string :=
  match v with
  | Some s => if String.eqb s "" then d else s
  | None => d
  end.

Definition int_or (v : option Z) (d : Z) : Z :=
  match v with
  | Some z => if Z.eqb z 0 then d else z
  | None => d
  end.

Definition upper_ascii (c : ascii) : ascii :=
  let n := nat_of_ascii c in
  if (97 <=? n)%nat && (n <=? 122)%nat then ascii_of_nat (n - 32) else c.

(** [String.prototype.toUpperCase] on ASCII text. *)
Fixpoint toUpperCase (s : string) : string :=
  match s with
  | EmptyString => EmptyString
  | String c r => String (upper_ascii c) (toUpperCase r)
  end.

End JS.

(** ** The store: rows, tables, the database *)

(** The columns of [products] that the cart, order and payment code reads
    or that decide which rows it sees. *)
Record product := mkProduct {
  p_id : Z;
  p_name : string;
  p_price : JS.number;
  p_stock_quantity : Z;
  p_is_active : Z
}.

Record cart_item := mkCartItem {
  ci_id : Z;
  ci_user_id : Z;
  ci_product_id : Z;
  ci_quantity : Z;
  ci_created_at : string;
  ci_updated_at : string
}.

Record order := mkOrder {
  o_id : Z;
  o_user_id : Z;
  o_order_number : string;
  o_status : string;
  o_subtotal : JS.number;
  o_tax_amount : JS.number;
  o_shipping_amount : JS.number;
  o_discount_amount : JS.number;
  o_total_amount : JS.number;
  o_currency : string;
  o_payment_status : string;
  o_payment_method : option string;
  o_payment_id : option string;
  o_shipping_address_id : option Z;
  o_billing_address_id : option Z;
  o_notes : option string;
  o_shipped_at : option string;
  o_delivered_at : option string;
  o_created_at : string;
  o_updated_at : string
}.

Record order_item := mkOrderItem {
  oi_id : Z;
  oi_order_id : Z;
  oi_product_id : Z;
  oi_quantity : Z;
  oi_unit_price : JS.number;
  oi_total_price : JS.number;
  oi_created_at : string
}.

(** The [sqlite_sequence] entries of the AUTOINCREMENT keys. *)
Record sequences := mkSequences {
  seq_products : Z;
  seq_cart_items : Z;
  seq_orders : Z;
  seq_order_items : Z
}.

Record database := mkDatabase {
  products : list product;
  cart_items : list cart_item;
  orders : list order;
  order_items : list order_item;
  sqlite_sequence : sequences
}.

(** What a handler reads from outside the store. *)
Record environment := mkEnvironment {
  (** [Date.now()], in decimal *)
  date_now : string;
  (** the first [Math.random()] of the payment handler *)
  random_draw : JS.number;
  (** [Math.random().toString(36).substr(2, 9)] *)
  random_tag : string;
  (** [CURRENT_TIMESTAMP] *)
  current_timestamp : string
}.

(** ** Statements and handlers as a state-and-exception monad *)

Inductive result (A : Type) : Type :=
| Returned (a : A)
| Thrown.
Arguments Returned {A} a.
Arguments Thrown {A}.

Record world := mkWorld {
  db : database;
  faults : list bool
}.

Definition M (A : Type) : Type := world -> result A * world.

Definition ret {A} (a : A) : M A := fun w => (Returned a, w).

Definition bind {A B} (m : M A) (k : A -> M B) : M B :=
  fun w =>
    match m w with
    | (Returned a, w') => k a w'
    | (Thrown, w') => (Thrown, w')
    end.

Declare Scope handler_scope.
Delimit Scope handler_scope with handler.
Notation "x <- m ;; k" := (bind m (fun x => k))
  (at level 61, m at next level, right associativity) : handler_scope.
Notation "m ;;; k" := (bind m (fun _ => k))
  (at level 61, right associativity) : handler_scope.
Local Open Scope handler_scope.

Definition throw {A} : M A := fun w => (Thrown, w).

(** One execution of a prepared statement ([.run], [.get] or [.all]): the
    next entry of [faults] says whether it throws. *)
Definition exec {A} (stmt : database -> A * database) : M A :=
  fun w =>
    match faults w with
    | true :: rest => (Thrown, mkWorld (db w) rest)
    | false :: rest =>
        let (a, d) := stmt (db w) in (Returned a, mkWorld d rest)
    | [] =>
        let (a, d) := stmt (db w) in (Returned a, mkWorld d [])
    end.

(** A statement that only reads. *)
Definition query {A} (q : database -> A) : M A :=
  exec (fun d => (q d, d)).

(** One execution of a statement that a constraint of the schema computed
    here can refuse ([None]): it then throws and writes nothing, as it does
    when the next entry of [faults] says so. *)
Definition constrained {A} (stmt : database -> option (A * database))
  : M A :=
  fun w =>
    match faults w with
    | true :: rest => (Thrown, mkWorld (db w) rest)
    | false :: rest =>
        match stmt (db w) with
        | Some (a, d) => (Returned a, mkWorld d rest)
        | None => (Thrown, mkWorld (db w) rest)
        end
    | [] =>
        match stmt (db w) with
        | Some (a, d) => (Returned a, mkWorld d [])
        | None => (Thrown, mkWorld (db w) [])
        end
    end.

(** [for (const x of xs) { body }] *)
Fixpoint for_of {A} (xs : list A) (body : A -> M unit) : M unit :=
  match xs with
  | [] => ret tt
  | x :: rest => body x ;;; for_of rest body
  end.

(** ** HTTP responses *)

Inductive payload :=
| Error (error : string)
| Message (message : string)
| OrderCreated (message : string) (orderId : Z) (orderNumber : string)
    (totalAmount : JS.number)
| PaymentProcessed (message : string) (paymentId : string) (orderId : Z)
| PaymentFailed (error : string)
| ProductCreated (message : string) (productId : Z).

Record response := json {
  status : Z;
  body : payload
}.

(** [try { handler } catch (error) { res.status(500).json(...) }] *)
Definition try_catch (handler : M response) (on_error : response)
  : world -> response * world :=
  fun w =>
    match handler w with
    | (Returned r, w') => (r, w')
    | (Thrown, w') => (on_error, w')
    end.

(** AUTOINCREMENT: one more than the largest rowid the table has ever held. *)
Definition next_rowid (seq : Z) (ids : list Z) : Z :=
  1 + fold_right Z.max seq ids.

Definition with_products (d : database) (ps : list product) : database :=
  mkDatabase ps (cart_items d) (orders d) (order_items d) (sqlite_sequence d).

Definition with_cart_items (d : database) (cs : list cart_item) : database :=
  mkDatabase (products d) cs (orders d) (order_items d) (sqlite_sequence d).

Definition with_orders (d : database) (os : list order) : database :=
  mkDatabase (products d) (cart_items d) os (order_items d) (sqlite_sequence d).

(** ** routes/orders *)

Module Orders.

(** The body of [POST /]. *)
Record request := mkRequest {
  shippingAddressId : option Z;
  billingAddressId : option Z;
  paymentMethod : option string;
  notes : option string
}.

(** A row of the cart query: [ci.*, p.name, p.price, p.stock_quantity]. *)
Record cart_row := mkCartRow {
  id : Z;
  user_id : Z;
  product_id : Z;
  quantity : Z;
  created_at : string;
  updated_at : string;
  name : string;
  price : JS.number;
  stock_quantity : Z
}.

Definition join_row (ci : cart_item) (p : product) : cart_row :=
  mkCartRow (ci_id ci) (ci_user_id ci) (ci_product_id ci) (ci_quantity ci)
    (ci_created_at ci) (ci_updated_at ci)
    (p_name p) (p_price p) (p_stock_quantity p).

(** [SELECT ci.*, p.name, p.price, p.stock_quantity
     FROM cart_items ci JOIN products p ON ci.product_id = p.id
     WHERE ci.user_id = ? AND p.is_active = 1] *)
Definition selectCartItems (userId : Z) (d : database) : list cart_row :=
  flat_map
    (fun ci =>
       if (ci_user_id ci =? userId)%Z then
         map (join_row ci)
           (filter (fun p => (p_id p =? ci_product_id ci)%Z
                             && (p_is_active p =? 1)%Z)
              (products d))
       else [])
    (cart_items d).

(** [INSERT INTO orders (user_id, order_number, status, subtotal,
     tax_amount, shipping_amount, total_amount, payment_method,
     shipping_address_id, billing_address_id, notes) VALUES (...)];
    the other columns take their defaults.  Returns [lastInsertRowid].
    This is the insert when the store accepts it: the FOREIGN KEYs of
    [user_id] and of the two address references and UNIQUE(order_number)
    are not computed here, a violation is a throw of [exec]. *)
Definition insertOrder (env : environment) (userId : Z)
    (orderNumber status : string)
    (subtotal taxAmount shippingAmount totalAmount : JS.number)
    (payment_method : string)
    (shipping_address_id billing_address_id : option Z)
    (order_notes : option string)
    (d : database) : Z * database :=
  let s := sqlite_sequence d in
  let rowid := next_rowid (seq_orders s) (map o_id (orders d)) in
  let row :=
    mkOrder rowid userId orderNumber status
      subtotal taxAmount shippingAmount 0%float totalAmount
      "USD" "pending" (Some payment_method) None
      shipping_address_id billing_address_id order_notes
      None None (current_timestamp env) (current_timestamp env) in
  (rowid,
   mkDatabase (products d) (cart_items d) (orders d ++ [row])
     (order_items d)
     (mkSequences (seq_products s) (seq_cart_items s) rowid
        (seq_order_items s))).

(** [INSERT INTO order_items (order_id, product_id, quantity, unit_price,
     total_price) VALUES (?, ?, ?, ?, ?)] *)
Definition insertOrderItem (env : environment) (orderId productId qty : Z)
    (unit_price total_price : JS.number)
    (d : database) : unit * database :=
  let s := sqlite_sequence d in
  let rowid := next_rowid (seq_order_items s) (map oi_id (order_items d)) in
  let row :=
    mkOrderItem rowid orderId productId qty unit_price total_price
      (current_timestamp env) in
  (tt,
   mkDatabase (products d) (cart_items d) (orders d)
     (order_items d ++ [row])
     (mkSequences (seq_products s) (seq_cart_items s) (seq_orders s)
        rowid)).

Definition decrement_stock (qty : Z) (p : product) : product :=
  mkProduct (p_id p) (p_name p) (p_price p) (p_stock_quantity p - qty)
    (p_is_active p).

(** [UPDATE products SET stock_quantity = stock_quantity - ? WHERE id = ?] *)
Definition updateStock (qty productId : Z) (d : database)
  : unit * database :=
  (tt,
   with_products d
     (map (fun p => if (p_id p =? productId)%Z
                    then decrement_stock qty p else p)
        (products d))).

(** [DELETE FROM cart_items WHERE user_id = ?] *)
Definition clearCart (userId : Z) (d : database) : unit * database :=
  (tt,
   with_cart_items d
     (filter (fun ci => negb (ci_user_id ci =? userId)%Z) (cart_items d))).

Definition subtotal_of (cartItems : list cart_row) : JS.number :=
  fold_left
    (fun sum item => (sum + price item * JS.of_int (quantity item))%float)
    cartItems 0%float.

Definition taxAmount_of (subtotal : JS.number) : JS.number :=
  (subtotal * 0.08)%float.

Definition shippingAmount_of (subtotal : JS.number) : JS.number :=
  if PrimFloat.ltb 100 subtotal then 0%float else 10%float.

Definition totalAmount_of (subtotal : JS.number) : JS.number :=
  (subtotal + taxAmount_of subtotal + shippingAmount_of subtotal)%float.

Definition orderNumber_of (env : environment) : string :=
  "ORD-" ++ date_now env ++ "-" ++ JS.toUpperCase (random_tag env).

(** The [try] block of [router.post('/')]. *)
Definition create_order_body (env : environment) (userId : Z)
    (req : request) : M response :=
  cartItems <- query (selectCartItems userId) ;;
  if (List.length cartItems =? 0)%nat then
    ret (json 400 (Error "Cart is empty"))
  else
    match find (fun item => (stock_quantity item <? quantity item)%Z)
            cartItems with
    | Some item =>
        ret (json 400 (Error ("Insufficient stock for " ++ name item)))
    | None =>
        let subtotal := subtotal_of cartItems in
        let taxAmount := taxAmount_of subtotal in
        let shippingAmount := shippingAmount_of subtotal in
        let totalAmount := totalAmount_of subtotal in
        let orderNumber := orderNumber_of env in
        orderId <- exec (insertOrder env userId orderNumber "pending"
                           subtotal taxAmount shippingAmount totalAmount
                           (JS.string_or (paymentMethod req) "pending")
                           (JS.int_or_null (shippingAddressId req))
                           (JS.int_or_null (billingAddressId req))
                           (JS.string_or_null (notes req))) ;;
        for_of cartItems
          (fun item =>
             let totalPrice :=
               (price item * JS.of_int (quantity item))%float in
             exec (insertOrderItem env orderId (product_id item)
                     (quantity item) (price item) totalPrice) ;;;
             exec (updateStock (quantity item) (product_id item))) ;;;
        exec (clearCart userId) ;;;
        ret (json 201
               (OrderCreated "Order created successfully" orderId
                  orderNumber totalAmount))
    end.

(** [router.post('/', authenticateToken, ...)], for the authenticated user
    [userId]. *)
Definition create_order (env : environment) (userId : Z) (req : request)
  : world -> response * world :=
  try_catch (create_order_body env userId req)
    (json 500 (Error "Failed to create order")).

Definition validStatuses : list string :=
  ["pending"; "confirmed"; "processing"; "shipped"; "delivered";
   "cancelled"].

(** [validStatuses.includes(status)]; an absent [status] is [undefined]. *)
Definition includes (l : list string) (v : option string) : bool :=
  match v with
  | Some s => existsb (String.eqb s) l
  | None => false
  end.

Definition set_status (env : environment) (new_status : string) (o : order)
  : order :=
  mkOrder (o_id o) (o_user_id o) (o_order_number o) new_status
    (o_subtotal o) (o_tax_amount o) (o_shipping_amount o)
    (o_discount_amount o) (o_total_amount o) (o_currency o)
    (o_payment_status o) (o_payment_method o) (o_payment_id o)
    (o_shipping_address_id o) (o_billing_address_id o) (o_notes o)
    (if String.eqb new_status "shipped"
     then Some (current_timestamp env) else o_shipped_at o)
    (if String.eqb new_status "delivered"
     then Some (current_timestamp env) else o_delivered_at o)
    (o_created_at o) (current_timestamp env).

(** [UPDATE orders SET status = ?, shipped_at = CASE ..., delivered_at =
     CASE ..., updated_at = CURRENT_TIMESTAMP WHERE id = ?]; returns
    [changes]. *)
Definition updateOrder (env : environment) (new_status : string)
    (orderId : Z) (d : database) : Z * database :=
  (Z.of_nat
     (List.length (filter (fun o => (o_id o =? orderId)%Z) (orders d))),
   with_orders d
     (map (fun o => if (o_id o =? orderId)%Z
                    then set_status env new_status o else o)
        (orders d))).

Definition update_order_status_body (env : environment) (orderId : Z)
    (new_status : option string) : M response :=
  if negb (includes validStatuses new_status) then
    ret (json 400 (Error "Invalid status"))
  else
    changes <- exec (updateOrder env
                       (match new_status with Some s => s | None => "" end)
                       orderId) ;;
    if (changes =? 0)%Z then
      ret (json 404 (Error "Order not found"))
    else
      ret (json 200 (Message "Order status updated successfully")).

(** [router.put('/:id/status', authenticateToken, requireAdmin, ...)] for
    an admin; [orderId] is the [:id] of the path. *)
Definition update_order_status (env : environment) (orderId : Z)
    (new_status : option string) : world -> response * world :=
  try_catch (update_order_status_body env orderId new_status)
    (json 500 (Error "Failed to update order status")).

End Orders.

(** ** routes/payments *)

Module Payments.

(** The body of [POST /process]; [paymentDetails] is not read. *)
Record request := mkRequest {
  orderId : option Z;
  paymentMethod : option string
}.

(** [SELECT * FROM orders WHERE id = ? AND user_id = ?
     AND payment_status = 'pending'], [.get]: the first such row. *)
Definition selectPendingOrder (order_id userId : Z) (d : database)
  : option order :=
  find (fun o => (o_id o =? order_id)%Z && (o_user_id o =? userId)%Z
                 && String.eqb (o_payment_status o) "pending")
    (orders d).

Definition set_completed (env : environment) (method paymentId : string)
    (o : order) : order :=
  mkOrder (o_id o) (o_user_id o) (o_order_number o) "confirmed"
    (o_subtotal o) (o_tax_amount o) (o_shipping_amount o)
    (o_discount_amount o) (o_total_amount o) (o_currency o)
    "completed" (Some method) (Some paymentId)
    (o_shipping_address_id o) (o_billing_address_id o) (o_notes o)
    (o_shipped_at o) (o_delivered_at o)
    (o_created_at o) (current_timestamp env).

Definition set_failed (env : environment) (o : order) : order :=
  mkOrder (o_id o) (o_user_id o) (o_order_number o) (o_status o)
    (o_subtotal o) (o_tax_amount o) (o_shipping_amount o)
    (o_discount_amount o) (o_total_amount o) (o_currency o)
    "failed" (o_payment_method o) (o_payment_id o)
    (o_shipping_address_id o) (o_billing_address_id o) (o_notes o)
    (o_shipped_at o) (o_delivered_at o)
    (o_created_at o) (current_timestamp env).

(** [UPDATE orders SET payment_status = 'completed', payment_method = ?,
     payment_id = ?, status = 'confirmed', updated_at = CURRENT_TIMESTAMP
     WHERE id = ?] *)
Definition updateOrderCompleted (env : environment)
    (method paymentId : string) (order_id : Z) (d : database)
  : unit * database :=
  (tt,
   with_orders d
     (map (fun o => if (o_id o =? order_id)%Z
                    then set_completed env method paymentId o else o)
        (orders d))).

(** [UPDATE orders SET payment_status = 'failed',
     updated_at = CURRENT_TIMESTAMP WHERE id = ?] *)
Definition updateOrderFailed (env : environment) (order_id : Z)
    (d : database) : unit * database :=
  (tt,
   with_orders d
     (map (fun o => if (o_id o =? order_id)%Z
                    then set_failed env o else o)
        (orders d))).

(** [Math.random() > 0.1] *)
Definition paymentSuccess (env : environment) : bool :=
  PrimFloat.ltb 0.1 (random_draw env).

Definition paymentId_of (env : environment) : string :=
  "pay_" ++ date_now env ++ "_" ++ random_tag env.

(** The [try] block of [router.post('/process')].  The first test is
    [!orderId || !paymentMethod]. *)
Definition process_payment_body (env : environment) (userId : Z)
    (req : request) : M response :=
  if negb (JS.truthy_int (orderId req))
     || negb (JS.truthy_string (paymentMethod req)) then
    ret (json 400 (Error "Order ID and payment method are required"))
  else
    let order_id := JS.int_or (orderId req) 0 in
    let method := JS.string_or (paymentMethod req) "" in
    found <- query (selectPendingOrder order_id userId) ;;
    match found with
    | None =>
        ret (json 404 (Error "Order not found or already processed"))
    | Some _ =>
        if paymentSuccess env then
          let paymentId := paymentId_of env in
          exec (updateOrderCompleted env method paymentId order_id) ;;;
          ret (json 200
                 (PaymentProcessed "Payment processed successfully"
                    paymentId order_id))
        else
          exec (updateOrderFailed env order_id) ;;;
          ret (json 400
                 (PaymentFailed
                    "Payment processing failed. Please try again."))
    end.

(** [router.post('/process', authenticateToken, ...)] for the
    authenticated user [userId]. *)
Definition process_payment (env : environment) (userId : Z)
    (req : request) : world -> response * world :=
  try_catch (process_payment_body env userId req)
    (json 500 (Error "Payment processing failed")).

End Payments.

(** ** routes/products (the writes) *)

Module Products.

(** The fields of the bodies of [POST /] and [PUT /:id] that reach a
    modelled column; [images] only by its length. *)
Record request := mkRequest {
  name : option string;
  price : option JS.number;
  stockQuantity : option Z;
  isActive : option Z;
  images : list string
}.

(** [INSERT INTO products (name, ..., price, ..., stock_quantity, ...)];
    [is_active] takes its default 1.  Returns [lastInsertRowid]. *)
Definition insertProduct (product_name : string) (product_price : JS.number)
    (stock : Z) (d : database) : Z * database :=
  let s := sqlite_sequence d in
  let rowid := next_rowid (seq_products s) (map p_id (products d)) in
  (rowid,
   mkDatabase
     (products d ++ [mkProduct rowid product_name product_price stock 1])
     (cart_items d) (orders d) (order_items d)
     (mkSequences rowid (seq_cart_items s) (seq_orders s)
        (seq_order_items s))).

(** [INSERT INTO product_images ...]: no modelled table changes. *)
Definition insertImage (d : database) : unit * database := (tt, d).

(** The parameters that the INSERT binds to the NOT NULL columns [name] and
    [price]: an absent one makes the statement throw. *)
Definition bound_name (req : request) : M string :=
  match name req with
  | Some s => ret s
  | None => throw
  end.

Definition bound_price (req : request) : M JS.number :=
  match price req with
  | Some x => ret x
  | None => throw
  end.

Definition create_product_body (req : request) : M response :=
  if negb (JS.truthy_string (name req))
     || negb (JS.truthy_number (price req)) then
    ret (json 400 (Error "Name and price are required"))
  else
    product_name <- bound_name req ;;
    product_price <- bound_price req ;;
    productId <- exec (insertProduct product_name
                         product_price (JS.int_or (stockQuantity req) 0)) ;;
    for_of (images req) (fun _ => exec insertImage) ;;;
    ret (json 201 (ProductCreated "Product created successfully" productId)).

Definition create_product (req : request) : world -> response * world :=
  try_catch (create_product_body req)
    (json 500 (Error "Failed to create product")).

(** [UPDATE products SET name = ?, ..., price = ?, ..., stock_quantity = ?,
     ..., is_active = ?, ... WHERE id = ?]; returns [changes]. *)
Definition updateProduct (product_name : string) (product_price : JS.number)
    (stock active productId : Z) (d : database) : Z * database :=
  (Z.of_nat
     (List.length (filter (fun p => (p_id p =? productId)%Z) (products d))),
   with_products d
     (map (fun p => if (p_id p =? productId)%Z
                    then mkProduct (p_id p) product_name product_price
                           stock active
                    else p)
        (products d))).

(** The same statement with [name] and [price] as the request has them: a
    field left out is bound as NULL, which the NOT NULL constraint of the
    column refuses on a row that the WHERE clause selects; with no such row
    the statement changes nothing and returns 0. *)
Definition updateProduct_bound (product_name : option string)
    (product_price : option JS.number) (stock active productId : Z)
    (d : database) : option (Z * database) :=
  match product_name, product_price with
  | Some bound_name, Some bound_price =>
      Some (updateProduct bound_name bound_price stock active productId d)
  | _, _ =>
      if existsb (fun p => (p_id p =? productId)%Z) (products d) then None
      else Some (0, d)
  end.

Definition update_product_body (productId : Z) (req : request)
  : M response :=
  changes <- constrained
               (updateProduct_bound (name req) (price req)
                  (JS.int_or (stockQuantity req) 0)
                  (match isActive req with Some a => a | None => 1 end)
                  productId) ;;
  if (changes =? 0)%Z then
    ret (json 404 (Error "Product not found"))
  else
    ret (json 200 (Message "Product updated successfully")).

Definition update_product (productId : Z) (req : request)
  : world -> response * world :=
  try_catch (update_product_body productId req)
    (json 500 (Error "Failed to update product")).

(** [UPDATE products SET is_active = 0 WHERE id = ?] *)
Definition deleteProduct (productId : Z) (d : database) : Z * database :=
  (Z.of_nat
     (List.length (filter (fun p => (p_id p =? productId)%Z) (products d))),
   with_products d
     (map (fun p => if (p_id p =? productId)%Z
                    then mkProduct (p_id p) (p_name p) (p_price p)
                           (p_stock_quantity p) 0
                    else p)
        (products d))).

Definition delete_product_body (productId : Z) : M response :=
  changes <- exec (deleteProduct productId) ;;
  if (changes =? 0)%Z then
    ret (json 404 (Error "Product not found"))
  else
    ret (json 200 (Message "Product deleted successfully")).

Definition delete_product (productId : Z) : world -> response * world :=
  try_catch (delete_product_body productId)
    (json 500 (Error "Failed to delete product")).

End Products.

(** ** routes/cart (the writes) *)

Module Cart.

(** The body of [POST /add]. *)
Record request := mkRequest {
  productId : option Z;
  quantity : option Z
}.

(** [SELECT id, stock_quantity FROM products WHERE id = ?
     AND is_active = 1], [.get] *)
Definition selectActiveProduct (product_id : Z) (d : database)
  : option product :=
  find (fun p => (p_id p =? product_id)%Z && (p_is_active p =? 1)%Z)
    (products d).

(** [SELECT id, quantity FROM cart_items WHERE user_id = ?
     AND product_id = ?], [.get] *)
Definition selectExistingItem (userId product_id : Z) (d : database)
  : option cart_item :=
  find (fun ci => (ci_user_id ci =? userId)%Z
                  && (ci_product_id ci =? product_id)%Z)
    (cart_items d).

Definition set_quantity (env : environment) (qty : Z) (ci : cart_item)
  : cart_item :=
  mkCartItem (ci_id ci) (ci_user_id ci) (ci_product_id ci) qty
    (ci_created_at ci) (current_timestamp env).

(** [UPDATE cart_items SET quantity = ?, updated_at = CURRENT_TIMESTAMP
     WHERE id = ?] *)
Definition updateItem (env : environment) (qty item_id : Z) (d : database)
  : unit * database :=
  (tt,
   with_cart_items d
     (map (fun ci => if (ci_id ci =? item_id)%Z
                     then set_quantity env qty ci else ci)
        (cart_items d))).

(** [INSERT INTO cart_items (user_id, product_id, quantity)
     VALUES (?, ?, ?)] *)
Definition insertItem (env : environment) (userId product_id qty : Z)
    (d : database) : unit * database :=
  let s := sqlite_sequence d in
  let rowid := next_rowid (seq_cart_items s) (map ci_id (cart_items d)) in
  (tt,
   mkDatabase (products d)
     (cart_items d
      ++ [mkCartItem rowid userId product_id qty
            (current_timestamp env) (current_timestamp env)])
     (orders d) (order_items d)
     (mkSequences (seq_products s) rowid (seq_orders s)
        (seq_order_items s))).

Definition add_to_cart_body (env : environment) (userId : Z)
    (req : request) : M response :=
  let qty := match quantity req with Some q => q | None => 1 end in
  if negb (JS.truthy_int (productId req)) then
    ret (json 400 (Error "Product ID is required"))
  else
    let product_id := JS.int_or (productId req) 0 in
    found <- query (selectActiveProduct product_id) ;;
    match found with
    | None => ret (json 404 (Error "Product not found"))
    | Some product =>
        if (p_stock_quantity product <? qty)%Z then
          ret (json 400 (Error "Insufficient stock"))
        else
          existingItem <- query (selectExistingItem userId product_id) ;;
          match existingItem with
          | Some item =>
              let newQuantity := ci_quantity item + qty in
              if (p_stock_quantity product <? newQuantity)%Z then
                ret (json 400 (Error "Insufficient stock"))
              else
                exec (updateItem env newQuantity (ci_id item)) ;;;
                ret (json 200 (Message "Item added to cart successfully"))
          | None =>
              exec (insertItem env userId product_id qty) ;;;
              ret (json 200 (Message "Item added to cart successfully"))
          end
    end.

Definition add_to_cart (env : environment) (userId : Z) (req : request)
  : world -> response * world :=
  try_catch (add_to_cart_body env userId req)
    (json 500 (Error "Failed to add item to cart")).

(** [SELECT ci.*, p.stock_quantity FROM cart_items ci
     JOIN products p ON ci.product_id = p.id
     WHERE ci.id = ? AND ci.user_id = ?], [.get]: the stock of the first
    joined row. *)
Definition selectItemStock (item_id userId : Z) (d : database)
  : option Z :=
  hd_error
    (flat_map
       (fun ci =>
          if (ci_id ci =? item_id)%Z && (ci_user_id ci =? userId)%Z then
            map p_stock_quantity
              (filter (fun p => (p_id p =? ci_product_id ci)%Z)
                 (products d))
          else [])
       (cart_items d)).

(** [PUT /update/:id] with body [quantity], an integer when present: the
    handler tests [!quantity || quantity < 1] and not that the number is
    integral, so a fractional quantity, which it would store, is outside
    the model. *)
Definition update_cart_item_body (env : environment) (userId item_id : Z)
    (qty : option Z) : M response :=
  if negb (JS.truthy_int qty) || (JS.int_or qty 0 <? 1)%Z then
    ret (json 400 (Error "Valid quantity is required"))
  else
    let q := JS.int_or qty 0 in
    cartItem <- query (selectItemStock item_id userId) ;;
    match cartItem with
    | None => ret (json 404 (Error "Cart item not found"))
    | Some stock =>
        if (stock <? q)%Z then
          ret (json 400 (Error "Insufficient stock"))
        else
          exec (updateItem env q item_id) ;;;
          ret (json 200 (Message "Cart item updated successfully"))
    end.

Definition update_cart_item (env : environment) (userId item_id : Z)
    (qty : option Z) : world -> response * world :=
  try_catch (update_cart_item_body env userId item_id qty)
    (json 500 (Error "Failed to update cart item")).

(** [DELETE FROM cart_items WHERE id = ? AND user_id = ?]; returns
    [changes]. *)
Definition deleteItem (item_id userId : Z) (d : database) : Z * database :=
  let hit ci := (ci_id ci =? item_id)%Z && (ci_user_id ci =? userId)%Z in
  (Z.of_nat (List.length (filter hit (cart_items d))),
   with_cart_items d (filter (fun ci => negb (hit ci)) (cart_items d))).

Definition remove_from_cart_body (userId item_id : Z) : M response :=
  changes <- exec (deleteItem item_id userId) ;;
  if (changes =? 0)%Z then
    ret (json 404 (Error "Cart item not found"))
  else
    ret (json 200 (Message "Item removed from cart successfully")).

Definition remove_from_cart (userId item_id : Z)
  : world -> response * world :=
  try_catch (remove_from_cart_body userId item_id)
    (json 500 (Error "Failed to remove item from cart")).

Definition clear_cart_body (userId : Z) : M response :=
  exec (Orders.clearCart userId) ;;;
  ret (json 200 (Message "Cart cleared successfully")).

Definition clear_cart (userId : Z) : world -> response * world :=
  try_catch (clear_cart_body userId)
    (json 500 (Error "Failed to clear cart")).

End Cart.

(** ** The system: any sequence of requests *)

(** The requests whose handlers write to [products], [cart_items], [orders]
    or [order_items]; the other routes (listings, addresses, wish list,
    categories) leave these four tables alone. *)
Inductive operation :=
| CreateOrder (env : environment) (userId : Z) (req : Orders.request)
| UpdateOrderStatus (env : environment) (orderId : Z)
    (new_status : option string)
| ProcessPayment (env : environment) (userId : Z) (req : Payments.request)
| CreateProduct (req : Products.request)
| UpdateProduct (productId : Z) (req : Products.request)
| DeleteProduct (productId : Z)
| AddToCart (env : environment) (userId : Z) (req : Cart.request)
| UpdateCartItem (env : environment) (userId item_id : Z) (qty : option Z)
| RemoveFromCart (userId item_id : Z)
| ClearCart (userId : Z).

Definition perform (op : operation) : world -> response * world :=
  match op with
  | CreateOrder env userId req => Orders.create_order env userId req
  | UpdateOrderStatus env orderId new_status =>
      Orders.update_order_status env orderId new_status
  | ProcessPayment env userId req => Payments.process_payment env userId req
  | CreateProduct req => Products.create_product req
  | UpdateProduct productId req => Products.update_product productId req
  | DeleteProduct productId => Products.delete_product productId
  | AddToCart env userId req => Cart.add_to_cart env userId req
  | UpdateCartItem env userId item_id qty =>
      Cart.update_cart_item env userId item_id qty
  | RemoveFromCart userId item_id => Cart.remove_from_cart userId item_id
  | ClearCart userId => Cart.clear_cart userId
  end.

(** The world after serving the requests [ops] one after the other. *)
Fixpoint serve (ops : list operation) (w : world) : world :=
  match ops with
  | [] => w
  | op :: rest => serve rest (snd (perform op w))
  end.

(** ** Vocabulary of the statements proved below *)

(** The run in which no statement throws. *)
Definition no_faults (d : database) : world := mkWorld d [].

(** The cart of a user: the rows of [cart_items] that carry the user's id. *)
Definition user_lines (userId : Z) (d : database) : list cart_item :=
  filter (fun ci => (ci_user_id ci =? userId)%Z) (cart_items d).

(** The product a cart line references. *)
Definition product_of (d : database) (ci : cart_item) : option product :=
  find (fun p => (p_id p =? ci_product_id ci)%Z) (products d).

(** The line references an active product whose stock covers its quantity. *)
Definition line_available (d : database) (ci : cart_item) : bool :=
  match product_of d ci with
  | Some p => (p_is_active p =? 1)%Z && (ci_quantity ci <=? p_stock_quantity p)%Z
  | None => false
  end.

(** The line references an active product. *)
Definition line_active (d : database) (ci : cart_item) : bool :=
  existsb (fun p => (p_id p =? ci_product_id ci)%Z && (p_is_active p =? 1)%Z)
    (products d).

Definition unit_price (d : database) (ci : cart_item) : JS.number :=
  match product_of d ci with
  | Some p => p_price p
  | None => 0%float
  end.

Definition line_total (d : database) (ci : cart_item) : JS.number :=
  (unit_price d ci * JS.of_int (ci_quantity ci))%float.


Fixpoint distinct (l : list Z) : bool :=
  match l with
  | [] => true
  | x :: r => negb (existsb (Z.eqb x) r) && distinct r
  end.

(** [key] is a key of [rows]: a PRIMARY KEY or UNIQUE constraint. *)
Definition primary_key {A} (key : A -> Z) (rows : list A) : bool :=
  distinct (map key rows).

(** The stock of the product with the given id. *)
Definition stock_of (d : database) (productId : Z) : option Z :=
  option_map p_stock_quantity
    (find (fun p => (p_id p =? productId)%Z) (products d)).

(** The id the next inserted order gets. *)
Definition next_order_id (d : database) : Z :=
  next_rowid (seq_orders (sqlite_sequence d)) (map o_id (orders d)).

(** What an order item freezes: order, product, quantity, unit price and
    line total. *)
Definition snapshot (it : order_item)
  : Z * Z * Z * JS.number * JS.number :=
  (oi_order_id it, oi_product_id it, oi_quantity it, oi_unit_price it,
   oi_total_price it).

(** The monetary breakdown of an order. *)
Definition money (o : order)
  : JS.number * JS.number * JS.number * JS.number * JS.number :=
  (o_subtotal o, o_tax_amount o, o_shipping_amount o, o_discount_amount o,
   o_total_amount o).

(** The row the cart query returns for a line whose product is present. *)
Definition priced_line (d : database) (ci : cart_item) : Orders.cart_row :=
  match product_of d ci with
  | Some p => Orders.join_row ci p
  | None => Orders.join_row ci (mkProduct (ci_product_id ci) "" 0%float 0 0)
  end.

(** The two writes of one turn of the loop over the cart rows, and the loop,
    as functions on the database. *)
Definition write_item (env : environment) (orderId : Z) (d : database)
    (item : Orders.cart_row) : database :=
  snd (Orders.updateStock (Orders.quantity item) (Orders.product_id item)
         (snd (Orders.insertOrderItem env orderId (Orders.product_id item)
                 (Orders.quantity item) (Orders.price item)
                 (Orders.price item * JS.of_int (Orders.quantity item))%float
                 d))).

Definition write_items (env : environment) (orderId : Z)
    (items : list Orders.cart_row) (d : database) : database :=
  fold_left (write_item env orderId) items d.

(** The quantity of product [productId] in the rows of a cart query. *)
Definition ordered_quantity (productId : Z) (items : list Orders.cart_row)
  : Z :=
  fold_right
    (fun item acc =>
       if (Orders.product_id item =? productId)%Z
       then Orders.quantity item + acc else acc)
    0 items.

(** What the order item written for a row of the cart query freezes. *)
Definition row_snapshot (orderId : Z) (item : Orders.cart_row)
  : Z * Z * Z * JS.number * JS.number :=
  (orderId, Orders.product_id item, Orders.quantity item, Orders.price item,
   (Orders.price item * JS.of_int (Orders.quantity item))%float).

(** What the order item of a cart line freezes. *)
Definition line_snapshot (d : database) (orderId : Z) (ci : cart_item)
  : Z * Z * Z * JS.number * JS.number :=
  (orderId, ci_product_id ci, ci_quantity ci, unit_price d ci,
   line_total d ci).

(** One turn of the loop over the cart rows in [Orders.create_order_body]. *)
Definition item_turn (env : environment) (orderId : Z)
    (item : Orders.cart_row) : M unit :=
  (exec (Orders.insertOrderItem env orderId (Orders.product_id item)
           (Orders.quantity item) (Orders.price item)
           (Orders.price item * JS.of_int (Orders.quantity item))%float) ;;;
   exec (Orders.updateStock (Orders.quantity item)
           (Orders.product_id item)))%handler.

(** The order row [Orders.create_order_body] inserts. *)
Definition placed_order (env : environment) (userId : Z)
    (req : Orders.request) (d : database) : order :=
  let subtotal := Orders.subtotal_of (Orders.selectCartItems userId d) in
  mkOrder (next_order_id d) userId (Orders.orderNumber_of env) "pending"
    subtotal (Orders.taxAmount_of subtotal)
    (Orders.shippingAmount_of subtotal) 0%float
    (Orders.totalAmount_of subtotal)
    "USD" "pending" (Some (JS.string_or (Orders.paymentMethod req) "pending"))
    None
    (JS.int_or_null (Orders.shippingAddressId req))
    (JS.int_or_null (Orders.billingAddressId req))
    (JS.string_or_null (Orders.notes req))
    None None (current_timestamp env) (current_timestamp env).

(** The database after all the writes of a successful order creation. *)
Definition placed (env : environment) (userId : Z) (req : Orders.request)
    (d : database) : database :=
  let cartItems := Orders.selectCartItems userId d in
  let subtotal := Orders.subtotal_of cartItems in
  let d1 :=
    snd (Orders.insertOrder env userId (Orders.orderNumber_of env) "pending"
           subtotal (Orders.taxAmount_of subtotal)
           (Orders.shippingAmount_of subtotal)
           (Orders.totalAmount_of subtotal)
           (JS.string_or (Orders.paymentMethod req) "pending")
           (JS.int_or_null (Orders.shippingAddressId req))
           (JS.int_or_null (Orders.billingAddressId req))
           (JS.string_or_null (Orders.notes req)) d) in
  snd (Orders.clearCart userId
         (write_items env (next_order_id d) cartItems d1)).

(** The answer of a successful order creation. *)
Definition created (env : environment) (userId : Z) (d : database)
  : response :=
  json 201
    (OrderCreated "Order created successfully" (next_order_id d)
       (Orders.orderNumber_of env)
       (Orders.totalAmount_of
          (Orders.subtotal_of (Orders.selectCartItems userId d)))).

(** The cart of the user without the lines whose product is not active. *)
Definition without_inactive_lines (userId : Z) (d : database) : database :=
  with_cart_items d
    (filter (fun ci => negb (ci_user_id ci =? userId)%Z || line_active d ci)
       (cart_items d)).

(** Two databases that differ at most in the cart lines of [userId]. *)
Definition cart_rel (userId : Z) (d d0 : database) : Prop :=
  products d = products d0
  /\ orders d = orders d0
  /\ order_items d = order_items d0
  /\ sqlite_sequence d = sqlite_sequence d0
  /\ filter (fun ci => negb (ci_user_id ci =? userId)%Z) (cart_items d)
     = filter (fun ci => negb (ci_user_id ci =? userId)%Z) (cart_items d0).

(** Two worlds with the same faults ahead and such databases. *)
Definition sim (userId : Z) (w w0 : world) : Prop :=
  faults w = faults w0 /\ cart_rel userId (db w) (db w0).

(** Two runs that end the same way in such worlds. *)
Definition agree {A} (userId : Z) (o o0 : result A * world) : Prop :=
  match fst o, fst o0 with
  | Returned a, Returned a0 => a = a0
  | Thrown, Thrown => True
  | _, _ => False
  end
  /\ sim userId (snd o) (snd o0).

(** A statement that neither reads nor writes the cart lines of [userId]. *)
Definition cart_blind {A} (userId : Z) (stmt : database -> A * database)
  : Prop :=
  forall d d0, cart_rel userId d d0 ->
    fst (stmt d) = fst (stmt d0)
    /\ cart_rel userId (snd (stmt d)) (snd (stmt d0)).

(** The order-item rows of order [k], whole. *)
Definition items_of (k : Z) (d : database) : list order_item :=
  filter (fun it => (oi_order_id it =? k)%Z) (order_items d).

(** The monetary breakdown of order [k]: of each row of [orders] with that
    id (one, as [id] is the primary key). *)
Definition totals_of (k : Z) (d : database)
  : list (JS.number * JS.number * JS.number * JS.number * JS.number) :=
  map money (filter (fun o => (o_id o =? k)%Z) (orders d)).

(** [d'] has every order of [d], with the order items and the totals it has
    in [d]. *)
Definition frozen (d d' : database) : Prop :=
  forall k, In k (map o_id (orders d)) ->
    In k (map o_id (orders d'))
    /\ items_of k d' = items_of k d
    /\ totals_of k d' = totals_of k d.

(** Running [m] keeps [I] true of the database, however it ends, and a value
    it returns satisfies [Q]. *)
Definition sound {A} (I : database -> Prop) (m : M A) (Q : A -> Prop)
  : Prop :=
  forall w, I (db w) ->
    I (db (snd (m w))) /\ forall a, fst (m w) = Returned a -> Q a.

(** ** Sample data *)

Module Sample.

Definition env : environment :=
  mkEnvironment "1700000000000" 0.5%float "k3j9x0abc" "2024-01-01 00:00:00".

(** A request that leaves out every field. *)
Definition bare : Orders.request := Orders.mkRequest None None None None.

Definition line (userId productId qty : Z) : cart_item :=
  mkCartItem productId userId productId qty
    "2024-01-01 00:00:00" "2024-01-01 00:00:00".

(** cart = [{price 10.00, qty 3}], stock = 5 *)
Definition small_cart : database :=
  mkDatabase [mkProduct 1 "Mug" 10.00%float 5 1] [line 7 1 3] [] []
    (mkSequences 1 1 0 0).

(** cart = [{price 60.00, qty 2}], stock = 2 *)
Definition large_cart : database :=
  mkDatabase [mkProduct 1 "Lamp" 60.00%float 2 1] [line 7 1 2] [] []
    (mkSequences 1 1 0 0).

(** The cart of [small_cart] with a second line whose product has been
    deactivated. *)
Definition mixed_cart : database :=
  mkDatabase
    [mkProduct 1 "Mug" 10.00%float 5 1; mkProduct 2 "Tray" 25.00%float 4 0]
    [line 7 1 3; line 7 2 1] [] []
    (mkSequences 2 2 0 0).

(** The store works for the cart query and the order insert, then throws at
    the first order-item insert. *)
Definition failing_world : world :=
  mkWorld small_cart [false; false; true].

(** A cart whose only line is for a deactivated product. *)
Definition stale_cart : database :=
  mkDatabase [mkProduct 2 "Tray" 25.00%float 4 0] [line 7 2 1] [] []
    (mkSequences 2 2 0 0).

(** User 7's order 1, created and not yet paid. *)
Definition unpaid : order :=
  mkOrder 1 7 "ORD-1700000000000-K3J9X0ABC" "pending"
    30%float 2.4%float 10%float 0%float 42.4%float "USD" "pending"
    (Some "pending") None None None None None None
    "2024-01-01 00:00:00" "2024-01-01 00:00:00".

Definition awaiting_payment : database :=
  mkDatabase [mkProduct 1 "Mug" 10.00%float 2 1] [] [unpaid]
    [mkOrderItem 1 1 1 3 10%float 30%float "2024-01-01 00:00:00"]
    (mkSequences 1 1 1 1).

Definition pay_by_card : Payments.request :=
  Payments.mkRequest (Some 1) (Some "credit_card").

(** The same request without its payment method. *)
Definition pay_unspecified : Payments.request :=
  Payments.mkRequest (Some 1) None.

(** A request for an order that does not exist. *)
Definition pay_unknown : Payments.request :=
  Payments.mkRequest (Some 5) (Some "credit_card").

(** An admin reprices product 1 and sets its stock to 0. *)
Definition reprice : operation :=
  UpdateProduct 1
    (Products.mkRequest (Some "Mug") (Some 99.00%float) None None []).

Definition small_world : world := no_faults small_cart.

Definition small_outcome : response * world :=
  Orders.create_order env 7 bare small_world.

End Sample.

(** ** Vocabulary of the further properties *)

(** Running [m] from a database that satisfies [P] ends, with a value or with
    a throw, in a database that satisfies [Q]. *)
Definition hoare {A} (P : database -> Prop) (m : M A)
    (Q : result A -> database -> Prop) : Prop :=
  forall w, P (db w) -> Q (fst (m w)) (db (snd (m w))).

(** The keys the schema declares: the primary key [id] of each table and
    [UNIQUE(user_id, product_id)] of [cart_items]. *)
Definition keys_ok (d : database) : Prop :=
  primary_key p_id (products d) = true
  /\ primary_key ci_id (cart_items d) = true
  /\ primary_key o_id (orders d) = true
  /\ primary_key oi_id (order_items d) = true
  /\ forall userId, primary_key ci_product_id (user_lines userId d) = true.

(** The answer is [{ error: ... }] and nothing else.  (The answer of a
    declined payment, [{ success: false, error: ... }], is not of this
    shape: see [declined].) *)
Definition is_error (r : response) : Prop :=
  exists e, body r = Error e.

(** The answer of a declined payment: [{ success: false, error: ... }]. *)
Definition declined (r : response) : Prop :=
  exists e, body r = PaymentFailed e.

(** Order [k] exists and its payment is no longer pending. *)
Definition settled (k : Z) (d : database) : Prop :=
  In k (map o_id (orders d))
  /\ forall o, In o (orders d) -> o_id o = k ->
       o_payment_status o <> "pending".

(** The quantity of product [productId] in the cart of [userId]. *)
Definition quantity_in_cart (userId productId : Z) (d : database)
  : option Z :=
  option_map ci_quantity (Cart.selectExistingItem userId productId d).

(** No product has a negative stock. *)
Definition stock_ok (d : database) : Prop :=
  forall p, In p (products d) -> 0 <= p_stock_quantity p.

(** The stock covers each of the rows [items] still to be written, which are
    for different products. *)
Definition covered (items : list Orders.cart_row) (d : database) : Prop :=
  stock_ok d
  /\ primary_key Orders.product_id items = true
  /\ forall item p, In item items -> In p (products d) ->
       p_id p = Orders.product_id item ->
       Orders.quantity item <= p_stock_quantity p.

(** The handler ran from [d0] and ends in [d0] when it throws or answers
    with a status of 400 or above, the answer of a declined payment apart. *)
Definition unchanged_on_error (d0 : database) (r : result response)
    (d : database) : Prop :=
  match r with
  | Returned resp => 400 <= status resp -> ~ declined resp -> d = d0
  | Thrown => d = d0
  end.

(** The requests that run at most one writing statement: all but order
    creation and the creation of a product with images. *)
Definition single_write (op : operation) : Prop :=
  match op with
  | CreateOrder _ _ _ => False
  | CreateProduct req => Products.images req = []
  | _ => True
  end.

(** The user on whose behalf a request runs; the product and order-status
    requests are an admin's. *)
Definition acting_user (op : operation) : option Z :=
  match op with
  | CreateOrder _ userId _ => Some userId
  | ProcessPayment _ userId _ => Some userId
  | AddToCart _ userId _ => Some userId
  | UpdateCartItem _ userId _ _ => Some userId
  | RemoveFromCart userId _ => Some userId
  | ClearCart userId => Some userId
  | UpdateOrderStatus _ _ _ => None
  | CreateProduct _ => None
  | UpdateProduct _ _ => None
  | DeleteProduct _ => None
  end.

(** The cart lines of [u] are those of [d0]. *)
Definition same_lines (u : Z) (d0 d : database) : Prop :=
  user_lines u d = user_lines u d0.

(** The same, in a database whose cart lines have distinct ids. *)
Definition keyed_lines (u : Z) (d0 d : database) : Prop :=
  primary_key ci_id (cart_items d) = true /\ same_lines u d0 d.

(** ** routes/orders (the list of a user's orders) *)

Module OrderList.

(** A row of the list: the columns of the order and [item_count]. *)
Record row := mkRow {
  listed : order;
  item_count : Z
}.

(** [LEFT JOIN order_items oi ON o.id = oi.order_id ... GROUP BY o.id] with
    [COUNT(oi.id)]: [id] being the primary key of [orders], each group is
    one order with the order items that reference it. *)
Definition count_items (d : database) (o : order) : row :=
  mkRow o
    (Z.of_nat
       (List.length
          (filter (fun oi => (oi_order_id oi =? o_id o)%Z) (order_items d)))).

(** [ORDER BY o.created_at DESC] on the text of the column; rows with equal
    times stay in the order of the scan. *)
Fixpoint place (r : row) (sorted : list row) : list row :=
  match sorted with
  | [] => [r]
  | x :: rest =>
      if String.leb (o_created_at (listed x)) (o_created_at (listed r))
      then r :: sorted
      else x :: place r rest
  end.

Definition order_by_created_desc (rows : list row) : list row :=
  fold_right place [] rows.

(** [LIMIT ? OFFSET ?]: a negative limit is no limit, a negative offset is
    0. *)
Definition limit_offset {A} (limit offset : Z) (rows : list A) : list A :=
  let rest := skipn (Z.to_nat offset) rows in
  if (limit <? 0)%Z then rest else firstn (Z.to_nat limit) rest.

(** The rows before [LIMIT]: the user's orders, newest first. *)
Definition groupedOrders (userId : Z) (d : database) : list row :=
  order_by_created_desc
    (map (count_items d)
       (filter (fun o => (o_user_id o =? userId)%Z) (orders d))).

(** [SELECT o.*, COUNT(oi.id) as item_count FROM orders o LEFT JOIN
     order_items oi ON o.id = oi.order_id WHERE o.user_id = ? GROUP BY o.id
     ORDER BY o.created_at DESC LIMIT ? OFFSET ?], [.all] *)
Definition selectOrders (userId limit offset : Z) (d : database)
  : list row :=
  limit_offset limit offset (groupedOrders userId d).

(** The number of the rows of [orders] with [user_id = ?], [.get] *)
Definition countOrders (userId : Z) (d : database) : Z :=
  Z.of_nat
    (List.length (filter (fun o => (o_user_id o =? userId)%Z) (orders d))).

(** [Math.ceil(total / limit)] as JSON shows it: [null] for the infinite
    or undefined quotient by 0. *)
Definition pages_of (total limit : Z) : option Z :=
  if (limit =? 0)%Z then None else Some (- ((- total) / limit)).

Record pagination := mkPagination {
  page : Z;
  limit : Z;
  total : Z;
  pages : option Z
}.

Inductive answer :=
| Listed (orders : list row) (paging : pagination)
| Failed (status : Z) (error : string).

(** The [try] block of [router.get('/')]; [page] and [limit] are the query
    parameters, integers when present, with the defaults 1 and 10. *)
Definition get_orders_body (userId : Z) (page limit : option Z)
  : M answer :=
  let page := match page with Some p => p | None => 1 end in
  let limit := match limit with Some l => l | None => 10 end in
  let offset := (page - 1) * limit in
  rows <- query (selectOrders userId limit offset) ;;
  total <- query (countOrders userId) ;;
  ret (Listed rows (mkPagination page limit total (pages_of total limit))).

(** [router.get('/', authenticateToken, ...)] for the authenticated user
    [userId]. *)
Definition get_orders (userId : Z) (page limit : option Z)
  : world -> answer * world :=
  fun w =>
    match get_orders_body userId page limit w with
    | (Returned a, w') => (a, w')
    | (Thrown, w') => (Failed 500 "Failed to fetch orders", w')
    end.

(** The rows of an answer; none for an error. *)
Definition rows_of (a : answer) : list row :=
  match a with
  | Listed rows _ => rows
  | Failed _ _ => []
  end.

End OrderList.

(** ** routes/users (the address book) *)

Module Addresses.

Record address := mkAddress {
  a_id : Z;
  a_user_id : Z;
  a_type : option string;
  a_first_name : string;
  a_last_name : string;
  a_company : option string;
  a_address_line_1 : string;
  a_address_line_2 : option string;
  a_city : string;
  a_state : string;
  a_postal_code : string;
  a_country : string;
  a_phone : option string;
  a_is_default : Z;
  a_created_at : string
}.

(** The table [addresses] in rowid order, and its AUTOINCREMENT counter. *)
Record book := mkBook {
  rows : list address;
  seq_addresses : Z
}.

(** A field of a JSON body that the code distinguishes from [null] when it
    is left out. *)
Inductive field :=
| Absent
| Null
| Text (s : string).

(** The bodies of [POST /addresses] and [PUT /addresses/:id];
    [isDefault] by its truthiness. *)
Record request := mkRequest {
  type : field;
  firstName : option string;
  lastName : option string;
  company : option string;
  addressLine1 : option string;
  addressLine2 : option string;
  city : option string;
  state : option string;
  postalCode : option string;
  country : option string;
  phone : option string;
  isDefault : bool
}.

Inductive reply :=
| Done (message : string)
| Added (message : string) (addressId : Z)
| Problem (status : Z) (error : string).

(** A handler body in continuation style: the address book and the fault
    plan go in, the answer and what is left of both come out. *)
Definition handler := book * list bool -> reply * (book * list bool).

Definition finish (r : reply) : handler := fun s => (r, s).

(** One execution of a prepared statement inside [try { ... } catch]: it
    throws, and the handler answers [on_error], or it takes effect and the
    handler goes on with [k]. *)
Definition run {A} (stmt : book -> A * book) (on_error : reply)
    (k : A -> handler) : handler :=
  fun s =>
    match snd s with
    | true :: rest => (on_error, (fst s, rest))
    | false :: rest => let (a, b) := stmt (fst s) in k a (b, rest)
    | [] => let (a, b) := stmt (fst s) in k a (b, [])
    end.

(** [column = ?] in a WHERE clause: never true of NULL. *)
Definition sql_eq (column parameter : option string) : bool :=
  match column, parameter with
  | Some x, Some y => String.eqb x y
  | _, _ => false
  end.

Definition unset (a : address) : address :=
  mkAddress (a_id a) (a_user_id a) (a_type a) (a_first_name a)
    (a_last_name a) (a_company a) (a_address_line_1 a) (a_address_line_2 a)
    (a_city a) (a_state a) (a_postal_code a) (a_country a) (a_phone a)
    0 (a_created_at a).

(** [UPDATE addresses SET is_default = 0 WHERE user_id = ? AND type = ?] *)
Definition unsetDefaults (userId : Z) (address_type : option string)
    (b : book) : unit * book :=
  (tt,
   mkBook
     (map (fun a => if (a_user_id a =? userId)%Z
                       && sql_eq (a_type a) address_type
                    then unset a else a) (rows b))
     (seq_addresses b)).

(** [INSERT INTO addresses (user_id, type, first_name, ..., is_default)
     VALUES (...)]; returns [lastInsertRowid]. *)
Definition insertAddress (env : environment) (userId : Z)
    (address_type : option string) (first_name last_name : string)
    (company_name : option string) (line_1 : string)
    (line_2 : option string)
    (city_name state_name postal_code country_name : string)
    (phone_number : option string) (is_default : Z) (b : book)
  : Z * book :=
  let rowid := next_rowid (seq_addresses b) (map a_id (rows b)) in
  (rowid,
   mkBook
     (rows b
      ++ [mkAddress rowid userId address_type first_name last_name
            company_name line_1 line_2 city_name state_name postal_code
            country_name phone_number is_default (current_timestamp env)])
     rowid).

(** [router.post('/addresses', authenticateToken, ...)] for the
    authenticated user [userId]; [type] defaults to 'shipping' when it is
    left out. *)
Definition add_address (env : environment) (userId : Z) (req : request)
  : handler :=
  let on_error := Problem 500 "Failed to add address" in
  let address_type :=
    match type req with
    | Absent => Some "shipping"
    | Null => None
    | Text s => Some s
    end in
  if negb (JS.truthy_string (firstName req))
     || negb (JS.truthy_string (lastName req))
     || negb (JS.truthy_string (addressLine1 req))
     || negb (JS.truthy_string (city req))
     || negb (JS.truthy_string (state req))
     || negb (JS.truthy_string (postalCode req))
     || negb (JS.truthy_string (country req)) then
    finish (Problem 400 "Required address fields are missing")
  else
    let insert :=
      run (insertAddress env userId address_type
             (JS.string_or (firstName req) "")
             (JS.string_or (lastName req) "")
             (JS.string_or_null (company req))
             (JS.string_or (addressLine1 req) "")
             (JS.string_or_null (addressLine2 req))
             (JS.string_or (city req) "")
             (JS.string_or (state req) "")
             (JS.string_or (postalCode req) "")
             (JS.string_or (country req) "")
             (JS.string_or_null (phone req))
             (if isDefault req then 1 else 0))
        on_error
        (fun addressId =>
           finish (Added "Address added successfully" addressId)) in
    if isDefault req then
      run (unsetDefaults userId address_type) on_error (fun _ => insert)
    else insert.

(** [SELECT id, type FROM addresses WHERE id = ? AND user_id = ?], [.get] *)
Definition selectAddress (address_id userId : Z) (b : book)
  : option address * book :=
  (find (fun a => (a_id a =? address_id)%Z && (a_user_id a =? userId)%Z)
     (rows b), b).

(** [UPDATE addresses SET is_default = 0
     WHERE user_id = ? AND type = ? AND id != ?] *)
Definition unsetOtherDefaults (userId : Z) (address_type : option string)
    (address_id : Z) (b : book) : unit * book :=
  (tt,
   mkBook
     (map (fun a => if (a_user_id a =? userId)%Z
                       && sql_eq (a_type a) address_type
                       && negb (a_id a =? address_id)%Z
                    then unset a else a) (rows b))
     (seq_addresses b)).

(** [UPDATE addresses SET type = ?, first_name = ?, ..., is_default = ?
     WHERE id = ? AND user_id = ?] *)
Definition updateAddress (address_type : option string)
    (first_name last_name : string) (company_name : option string)
    (line_1 : string) (line_2 : option string)
    (city_name state_name postal_code country_name : string)
    (phone_number : option string) (is_default address_id userId : Z)
    (b : book) : unit * book :=
  (tt,
   mkBook
     (map (fun a => if (a_id a =? address_id)%Z && (a_user_id a =? userId)%Z
                    then mkAddress (a_id a) (a_user_id a) address_type
                           first_name last_name company_name line_1 line_2
                           city_name state_name postal_code country_name
                           phone_number is_default (a_created_at a)
                    else a) (rows b))
     (seq_addresses b)).

(** [router.put('/addresses/:id', authenticateToken, ...)]; [address_id]
    is the [:id] of the path.  A NOT NULL column bound to a field that the
    body leaves out makes the update throw. *)
Definition update_address (userId address_id : Z) (req : request)
  : handler :=
  let on_error := Problem 500 "Failed to update address" in
  run (selectAddress address_id userId) on_error
    (fun existingAddress =>
       match existingAddress with
       | None => finish (Problem 404 "Address not found")
       | Some existing =>
           let address_type :=
             match type req with
             | Text s => if String.eqb s "" then a_type existing else Some s
             | _ => a_type existing
             end in
           let update :=
             match firstName req, lastName req, addressLine1 req, city req,
                   state req, postalCode req, country req with
             | Some first_name, Some last_name, Some line_1, Some city_name,
               Some state_name, Some postal_code, Some country_name =>
                 run (updateAddress address_type first_name last_name
                        (JS.string_or_null (company req)) line_1
                        (JS.string_or_null (addressLine2 req)) city_name
                        state_name postal_code country_name
                        (JS.string_or_null (phone req))
                        (if isDefault req then 1 else 0) address_id userId)
                   on_error
                   (fun _ => finish (Done "Address updated successfully"))
             | _, _, _, _, _, _, _ => finish on_error
             end in
           if isDefault req then
             run (unsetOtherDefaults userId address_type address_id)
               on_error (fun _ => update)
           else update
       end).

(** [DELETE FROM addresses WHERE id = ? AND user_id = ?]; returns
    [changes]. *)
Definition deleteAddress (address_id userId : Z) (b : book) : Z * book :=
  let hit a := (a_id a =? address_id)%Z && (a_user_id a =? userId)%Z in
  (Z.of_nat (List.length (filter hit (rows b))),
   mkBook (filter (fun a => negb (hit a)) (rows b)) (seq_addresses b)).

(** [router.delete('/addresses/:id', authenticateToken, ...)] *)
Definition delete_address (userId address_id : Z) : handler :=
  run (deleteAddress address_id userId)
    (Problem 500 "Failed to delete address")
    (fun changes =>
       if (changes =? 0)%Z then finish (Problem 404 "Address not found")
       else finish (Done "Address deleted successfully")).

(** A request to the address book, by whom it is made. *)
Inductive operation :=
| AddAddress (env : environment) (userId : Z) (req : request)
| UpdateAddress (userId address_id : Z) (req : request)
| DeleteAddress (userId address_id : Z).

Definition perform (op : operation) : handler :=
  match op with
  | AddAddress env userId req => add_address env userId req
  | UpdateAddress userId address_id req =>
      update_address userId address_id req
  | DeleteAddress userId address_id => delete_address userId address_id
  end.

Fixpoint serve (ops : list operation) (s : book * list bool)
  : book * list bool :=
  match ops with
  | [] => s
  | op :: rest => serve rest (snd (perform op s))
  end.

Definition acting_user (op : operation) : Z :=
  match op with
  | AddAddress _ userId _ => userId
  | UpdateAddress userId _ _ => userId
  | DeleteAddress userId _ => userId
  end.

(** The default addresses of a user for a type: what the checkout page
    preselects from. *)
Definition defaults_of (userId : Z) (address_type : string) (b : book)
  : list address :=
  filter (fun a => (a_user_id a =? userId)%Z
                   && sql_eq (a_type a) (Some address_type)
                   && negb (a_is_default a =? 0)%Z) (rows b).

(** The addresses of a user. *)
Definition addresses_of (userId : Z) (b : book) : list address :=
  filter (fun a => (a_user_id a =? userId)%Z) (rows b).

End Addresses.

(** The address ids are distinct and no user has two default addresses of
    one type. *)
Definition one_default (b : Addresses.book) : Prop :=
  primary_key Addresses.a_id (Addresses.rows b) = true
  /\ forall userId address_type,
       (List.length (Addresses.defaults_of userId address_type b) <= 1)%nat.

(** Running the handler [h] from an address book with [P] leaves one with
    [Q], whatever the store does. *)
Definition keeps (P : Addresses.book -> Prop) (h : Addresses.handler)
    (Q : Addresses.book -> Prop) : Prop :=
  forall b fs, P b -> Q (fst (snd (h (b, fs)))).

(** Newest first: each row is at least as recent as the next one. *)
Definition newest_first (rows : list OrderList.row) : Prop :=
  Sorted
    (fun r r' =>
       String.leb (o_created_at (OrderList.listed r'))
         (o_created_at (OrderList.listed r)) = true)
    rows.

(** The page numbers 1, ..., [n]. *)
Definition page_numbers (n : Z) : list Z :=
  map Z.of_nat (seq 1 (Z.to_nat n)).

(** The columns of an order that no statement assigns after the insert. *)
Definition order_identity (o : order)
  : Z * Z * string * string * option Z * option Z * option string * string :=
  (o_id o, o_user_id o, o_order_number o, o_currency o,
   o_shipping_address_id o, o_billing_address_id o, o_notes o,
   o_created_at o).

(** [o'] is the row [o] at a later time: the same identity, and the
    shipping and delivery stamps it had are still set. *)
Definition same_order (o o' : order) : Prop :=
  order_identity o' = order_identity o
  /\ (o_shipped_at o <> None -> o_shipped_at o' <> None)
  /\ (o_delivered_at o <> None -> o_delivered_at o' <> None).

(** [d'] has the orders of [d], in their order, followed by newer ones. *)
Definition orders_persist (d d' : database) : Prop :=
  exists kept later,
    orders d' = List.app kept later /\ Forall2 same_order (orders d) kept.

(** Every order marked as paid names its payment and the method. *)
Definition paid_with_reference (d : database) : Prop :=
  forall o, In o (orders d) -> o_payment_status o = "completed" ->
    o_payment_id o <> None /\ o_payment_method o <> None.

(** ** A shop with two customers *)

Module Scenario.

(** A mug on sale and a tray taken off sale; user 7 holds three mugs and
    user 8 one; user 7 has the unpaid order of [Sample]. *)
Definition shop : database :=
  mkDatabase
    [mkProduct 1 "Mug" 10.00%float 5 1; mkProduct 2 "Tray" 25.00%float 4 0]
    [mkCartItem 1 7 1 3 "2024-01-01 00:00:00" "2024-01-01 00:00:00";
     mkCartItem 2 8 1 1 "2024-01-02 00:00:00" "2024-01-02 00:00:00"]
    [Sample.unpaid]
    [mkOrderItem 1 1 1 3 10%float 30%float "2024-01-01 00:00:00"]
    (mkSequences 2 2 1 1).

Definition two_more_mugs : Cart.request := Cart.mkRequest (Some 1) (Some 2).

Definition one_mug : Cart.request := Cart.mkRequest (Some 1) (Some 1).

Definition a_tray : Cart.request := Cart.mkRequest (Some 2) (Some 1).

(** User 7 adds a mug and orders. *)
Definition shopping : list operation :=
  [AddToCart Sample.env 7 one_mug; CreateOrder Sample.env 7 Sample.bare].

Definition added : response * world :=
  Cart.add_to_cart Sample.env 7 two_more_mugs (no_faults shop).

Definition set_to_five : response * world :=
  Cart.update_cart_item Sample.env 7 1 (Some 5) (no_faults shop).

Definition deleted : response * world :=
  Products.delete_product 1 (no_faults shop).

(** The tray with a new price; stock and activity are left out. *)
Definition tray_again : Products.request :=
  Products.mkRequest (Some "Tray") (Some 20.00%float) None None [].

Definition updated : response * world :=
  Products.update_product 2 tray_again (no_faults shop).

Definition a_bowl : Products.request :=
  Products.mkRequest (Some "Bowl") (Some 12.50%float) (Some 3) None
    ["bowl.png"].

Definition stocked : response * world :=
  Products.create_product a_bowl (no_faults shop).

(** Two orders of user 7 and one of user 8. *)
Definition later_order (order_id userId : Z) (created : string) : order :=
  mkOrder order_id userId "ORD-1700000000001-ABC" "pending"
    30%float 2.4%float 10%float 0%float 42.4%float "USD" "pending"
    (Some "pending") None None None None None None created created.

Definition history : database :=
  mkDatabase [mkProduct 1 "Mug" 10.00%float 2 1] []
    [Sample.unpaid; later_order 2 8 "2024-01-02 00:00:00";
     later_order 3 7 "2024-01-03 00:00:00"]
    [mkOrderItem 1 1 1 3 10%float 30%float "2024-01-01 00:00:00"]
    (mkSequences 1 1 3 1).

(** The address book of user 7: one shipping address, the default. *)
Definition home : Addresses.address :=
  Addresses.mkAddress 1 7 (Some "shipping") "Ada" "Byron" None
    "1 Main Street" None "Leeds" "Yorkshire" "LS1 1AA" "UK" None 1
    "2024-01-01 00:00:00".

Definition address_book : Addresses.book := Addresses.mkBook [home] 1.

(** A new default shipping address; the type is left out. *)
Definition office : Addresses.request :=
  Addresses.mkRequest Addresses.Absent (Some "Ada") (Some "Byron")
    (Some "Analytical Ltd") (Some "2 Mill Lane") None (Some "Leeds")
    (Some "Yorkshire") (Some "LS2 2BB") (Some "UK") None true.

Definition moved : Addresses.reply * (Addresses.book * list bool) :=
  Addresses.add_address Sample.env 7 office (address_book, []).




(** User 7 pays the order of [Sample]; then an admin marks it as
    processing and the user adds a mug to the cart. *)
Definition paid : response * world :=
  Payments.process_payment Sample.env 7 Sample.pay_by_card
    (no_faults Sample.awaiting_payment).

Definition meanwhile : list operation :=
  [UpdateOrderStatus Sample.env 1 (Some "processing");
   AddToCart Sample.env 7 one_mug].

End Scenario.

(** * Properties *)

Local Open Scope list_scope.

(** ** Statements and loops *)

Section Statements.

Context {A : Type} (stmt : database -> A * database).

Lemma exec_no_faults (d : database) :
  exec stmt (no_faults d)
  = (Returned (fst (stmt d)), no_faults (snd (stmt d))).
Proof.
  unfold exec, no_faults; simpl. now destruct (stmt d).
Qed.

Lemma exec_returned (w w' : world) (a : A) :
  exec stmt w = (Returned a, w') ->
  a = fst (stmt (db w)) /\ db w' = snd (stmt (db w)).
Proof.
  unfold exec. destruct (faults w) as [|[|] rest];
    destruct (stmt (db w)) as [a0 d0]; simpl; intros H;
    inversion H; subst; simpl; auto.
Qed.

Lemma exec_thrown (w w' : world) :
  exec stmt w = (Thrown, w') -> db w' = db w.
Proof.
  unfold exec. destruct (faults w) as [|[|] rest];
    destruct (stmt (db w)) as [a0 d0]; simpl; intros H;
    inversion H; subst; simpl; auto.
Qed.

End Statements.

Lemma query_no_faults {A} (q : database -> A) (d : database) :
  query q (no_faults d) = (Returned (q d), no_faults d).
Proof. unfold query. now rewrite exec_no_faults. Qed.

Lemma query_db {A} (q : database -> A) (w w' : world) (r : result A) :
  query q w = (r, w') -> db w' = db w.
Proof.
  unfold query. destruct r as [a|]; intros H.
  - now apply exec_returned in H as [_ ->].
  - now apply exec_thrown in H.
Qed.

Lemma query_returned {A} (q : database -> A) (w w' : world) (a : A) :
  query q w = (Returned a, w') -> a = q (db w).
Proof. unfold query. intros H. now apply exec_returned in H as [-> _]. Qed.

Lemma constrained_returned {A} (stmt : database -> option (A * database))
    (w w' : world) (a : A) :
  constrained stmt w = (Returned a, w') -> stmt (db w) = Some (a, db w').
Proof.
  unfold constrained.
  destruct (faults w) as [|[|] rest]; destruct (stmt (db w)) as [[a0 d0]|];
    intros H; inversion H; subst; reflexivity.
Qed.

Lemma constrained_thrown {A} (stmt : database -> option (A * database))
    (w w' : world) :
  constrained stmt w = (Thrown, w') -> db w' = db w.
Proof.
  unfold constrained.
  destruct (faults w) as [|[|] rest]; destruct (stmt (db w)) as [[a0 d0]|];
    intros H; inversion H; subst; reflexivity.
Qed.

(** What a statement does with the fault plan. *)
Lemma exec_thrown_faults {A} (stmt : database -> A * database)
    (w w' : world) :
  exec stmt w = (Thrown, w') -> hd_error (faults w) = Some true.
Proof.
  unfold exec. destruct (faults w) as [|[|] rest];
    destruct (stmt (db w)) as [a d]; intros H; inversion H; reflexivity.
Qed.

Lemma exec_returned_faults {A} (stmt : database -> A * database)
    (w w' : world) (a : A) :
  exec stmt w = (Returned a, w') -> faults w' = tl (faults w).
Proof.
  unfold exec. destruct (faults w) as [|[|] rest];
    destruct (stmt (db w)) as [a0 d]; intros H; inversion H; reflexivity.
Qed.

(** The product update writes [products] only. *)
Lemma update_product_tables nm pr stock active pid d changes d' :
  Products.updateProduct_bound nm pr stock active pid d = Some (changes, d') ->
  cart_items d' = cart_items d
  /\ orders d' = orders d
  /\ order_items d' = order_items d
  /\ sqlite_sequence d' = sqlite_sequence d.
Proof.
  unfold Products.updateProduct_bound.
  destruct nm as [n|], pr as [p|];
    try (destruct (existsb _ _); [discriminate|];
         intros E; injection E as _ <-; now repeat split).
  intros E. injection E as _ <-. now repeat split.
Qed.

Lemma loop_no_faults env orderId items d :
  for_of items (item_turn env orderId) (no_faults d)
  = (Returned tt, no_faults (write_items env orderId items d)).
Proof.
  revert d. induction items as [|item items IH]; intros d; simpl.
  - reflexivity.
  - unfold bind at 1. unfold item_turn at 1. unfold bind at 1.
    rewrite exec_no_faults. rewrite exec_no_faults.
    apply IH.
Qed.

Lemma loop_returned env orderId items w w' u :
  for_of items (item_turn env orderId) w = (Returned u, w') ->
  db w' = write_items env orderId items (db w).
Proof.
  revert w. induction items as [|item items IH]; intros w; simpl.
  - unfold ret. intros H. now inversion H.
  - unfold bind at 1. unfold item_turn at 1. unfold bind at 1.
    destruct (exec _ w) as [[[]|] w1] eqn:E1; [|discriminate].
    destruct (exec _ w1) as [[[]|] w2] eqn:E2; [|discriminate].
    apply exec_returned in E1 as [_ E1], E2 as [_ E2].
    intros H. apply IH in H. rewrite H. unfold write_item.
    now rewrite E2, E1.
Qed.

(** ** The cart query *)

Lemma existsb_key_filter {A} (key : A -> Z) (g : A -> bool) k rows :
  existsb (Z.eqb k) (map key rows) = false ->
  filter (fun p => (key p =? k)%Z && g p) rows = []
  /\ find (fun p => (key p =? k)%Z) rows = None.
Proof.
  induction rows as [|x r IH]; simpl; [easy|].
  intros H. apply orb_false_elim in H as [Hx Hr].
  rewrite Z.eqb_sym in Hx. rewrite Hx. simpl. auto.
Qed.

Lemma filter_key {A} (key : A -> Z) (g : A -> bool) k rows :
  primary_key key rows = true ->
  filter (fun p => (key p =? k)%Z && g p) rows
  = match find (fun p => (key p =? k)%Z) rows with
    | Some p => if g p then [p] else []
    | None => []
    end.
Proof.
  unfold primary_key.
  induction rows as [|x r IH]; simpl; [easy|].
  intros H. apply andb_prop in H as [Hx Hr].
  apply negb_true_iff in Hx.
  destruct (key x =? k)%Z eqn:E; simpl.
  - apply Z.eqb_eq in E. subst k.
    destruct (existsb_key_filter key g _ _ Hx) as [-> _].
    now destruct (g x).
  - now apply IH.
Qed.

Lemma select_available userId d :
  primary_key p_id (products d) = true ->
  forallb (line_available d) (user_lines userId d) = true ->
  Orders.selectCartItems userId d = map (priced_line d) (user_lines userId d).
Proof.
  intros PK. unfold Orders.selectCartItems, user_lines.
  induction (cart_items d) as [|ci cs IH]; simpl; [easy|].
  destruct (ci_user_id ci =? userId)%Z; simpl; [|exact IH].
  intros H. apply andb_prop in H as [Hci Hcs].
  rewrite (IH Hcs). f_equal.
  rewrite (filter_key p_id (fun p => (p_is_active p =? 1)%Z) _ _ PK).
  unfold line_available, priced_line, product_of in *.
  destruct (find _ (products d)) as [p|]; [|discriminate].
  apply andb_prop in Hci as [-> _]. reflexivity.
Qed.



(** ** Order creation when the store raises no error *)

(** Whenever the cart query returns rows that all pass the stock check, the
    handler answers 201 and leaves the database [placed]. *)
Lemma create_order_placed env userId req d :
  Orders.selectCartItems userId d <> [] ->
  find (fun item => (Orders.stock_quantity item <? Orders.quantity item)%Z)
    (Orders.selectCartItems userId d) = None ->
  Orders.create_order env userId req (no_faults d)
  = (created env userId d, no_faults (placed env userId req d)).
Proof.
  intros Hne Hstock.
  unfold Orders.create_order, try_catch, Orders.create_order_body.
  unfold bind at 1. rewrite query_no_faults.
  destruct (Orders.selectCartItems userId d) as [|r rs] eqn:Hsel;
    [congruence|].
  cbn [List.length Nat.eqb]. rewrite Hstock.
  unfold bind at 1. rewrite exec_no_faults.
  cbn [fst snd Orders.insertOrder].
  unfold bind at 1.
  change (fun item : Orders.cart_row => _) with
    (item_turn env (next_order_id d)).
  rewrite loop_no_faults.
  unfold bind at 1. rewrite exec_no_faults.
  unfold ret, created, placed. rewrite Hsel. reflexivity.
Qed.

(** ** What the write loop leaves behind *)

Lemma write_items_tables env orderId items d :
  orders (write_items env orderId items d) = orders d
  /\ cart_items (write_items env orderId items d) = cart_items d.
Proof.
  revert d. induction items as [|item items IH]; intros d; simpl; [easy|].
  destruct (IH (write_item env orderId d item)) as [-> ->]. easy.
Qed.

Lemma write_items_order_items env orderId items d :
  exists news,
    order_items (write_items env orderId items d) = order_items d ++ news
    /\ map snapshot news = map (row_snapshot orderId) items.
Proof.
  revert d. induction items as [|item items IH]; intros d; simpl.
  - exists []. now rewrite app_nil_r.
  - destruct (IH (write_item env orderId d item)) as (news & -> & Hn).
    simpl. rewrite <- app_assoc. eexists. split; [reflexivity|].
    simpl. now rewrite Hn.
Qed.

Lemma stock_of_decrement d qty productId k :
  stock_of (snd (Orders.updateStock qty productId d)) k
  = option_map (fun s => if (productId =? k)%Z then s - qty else s)
      (stock_of d k).
Proof.
  unfold stock_of, Orders.updateStock; simpl.
  induction (products d) as [|p ps IH]; simpl; [easy|].
  destruct (Z.eqb_spec (p_id p) productId) as [E|E]; simpl;
    destruct (Z.eqb_spec (p_id p) k) as [F|F]; simpl; try apply IH.
  - destruct (Z.eqb_spec productId k); [easy|congruence].
  - destruct (Z.eqb_spec productId k); [congruence|easy].
Qed.

Lemma write_items_stock env orderId items d k :
  stock_of (write_items env orderId items d) k
  = option_map (fun s => s - ordered_quantity k items) (stock_of d k).
Proof.
  revert d. induction items as [|item items IH]; intros d; simpl.
  - destruct (stock_of d k); simpl; f_equal; lia.
  - rewrite IH. unfold write_item. rewrite stock_of_decrement.
    assert (E : stock_of
                  (snd (Orders.insertOrderItem env orderId
                          (Orders.product_id item) (Orders.quantity item)
                          (Orders.price item)
                          (Orders.price item
                           * JS.of_int (Orders.quantity item))%float d)) k
                = stock_of d k) by reflexivity.
    rewrite E. destruct (stock_of d k); simpl; [|easy].
    f_equal. destruct (Orders.product_id item =? k)%Z; lia.
Qed.

Lemma ordered_quantity_absent k items :
  existsb (Z.eqb k) (map Orders.product_id items) = false ->
  ordered_quantity k items = 0.
Proof.
  induction items as [|x r IH]; simpl; [easy|].
  intros H. apply orb_false_elim in H as [Hx Hr].
  rewrite Z.eqb_sym in Hx. rewrite Hx. auto.
Qed.

Lemma ordered_quantity_once item items :
  primary_key Orders.product_id items = true ->
  In item items ->
  ordered_quantity (Orders.product_id item) items = Orders.quantity item.
Proof.
  unfold primary_key.
  induction items as [|x r IH]; simpl; [easy|].
  intros H [->|Hin]; apply andb_prop in H as [Hx Hr];
    apply negb_true_iff in Hx.
  - rewrite Z.eqb_refl, (ordered_quantity_absent _ _ Hx). lia.
  - destruct (Orders.product_id x =? Orders.product_id item)%Z eqn:E;
      [|auto].
    apply Z.eqb_eq in E. rewrite E in Hx.
    assert (Hex : existsb (Z.eqb (Orders.product_id item))
                    (map Orders.product_id r) = true).
    { apply existsb_exists. exists (Orders.product_id item).
      split; [now apply in_map | apply Z.eqb_refl]. }
    congruence.
Qed.

(** ** The database after a successful order creation *)

Lemma placed_orders env userId req d :
  orders (placed env userId req d)
  = orders d ++ [placed_order env userId req d].
Proof.
  unfold placed. cbn [Orders.clearCart snd with_cart_items orders].
  now rewrite (proj1 (write_items_tables _ _ _ _)).
Qed.

Lemma placed_cart env userId req d :
  cart_items (placed env userId req d)
  = filter (fun ci => negb (ci_user_id ci =? userId)%Z) (cart_items d).
Proof.
  unfold placed. cbn [Orders.clearCart snd with_cart_items cart_items].
  now rewrite (proj2 (write_items_tables _ _ _ _)).
Qed.

Lemma placed_cart_empty env userId req d :
  user_lines userId (placed env userId req d) = [].
Proof.
  unfold user_lines. rewrite placed_cart.
  induction (cart_items d) as [|ci cs IH]; simpl; [easy|].
  destruct (ci_user_id ci =? userId)%Z eqn:E; simpl; [easy|].
  now rewrite E.
Qed.

Lemma placed_order_items env userId req d :
  exists news,
    order_items (placed env userId req d) = order_items d ++ news
    /\ map snapshot news
       = map (row_snapshot (next_order_id d))
           (Orders.selectCartItems userId d).
Proof.
  unfold placed. cbn [Orders.clearCart snd with_cart_items order_items].
  match goal with
  | |- exists news, order_items (write_items ?e ?o ?i ?d1) = _ /\ _ =>
      destruct (write_items_order_items e o i d1) as (news & H & Hn)
  end.
  exists news. rewrite H. split; [reflexivity | exact Hn].
Qed.

Lemma placed_stock env userId req d k :
  stock_of (placed env userId req d) k
  = option_map
      (fun s => s - ordered_quantity k (Orders.selectCartItems userId d))
      (stock_of d k).
Proof.
  unfold placed.
  change (stock_of (snd (Orders.clearCart userId ?x)) k)
    with (stock_of x k).
  now rewrite write_items_stock.
Qed.

(** ** Order creation under any behaviour of the store *)

(** A 201 answer is only given after every write went through. *)
Lemma create_order_created env userId req w resp w' :
  Orders.create_order env userId req w = (resp, w') ->
  status resp = 201 ->
  resp = created env userId (db w)
  /\ db w' = placed env userId req (db w).
Proof.
  unfold Orders.create_order, try_catch, Orders.create_order_body.
  unfold bind at 1.
  destruct (query _ w) as [[rows|] w1] eqn:Q.
  2:{ intros H; inversion H; subst; discriminate. }
  pose proof (query_db _ _ _ _ Q) as D1.
  apply query_returned in Q. subst rows.
  destruct (Orders.selectCartItems userId (db w)) as [|r rs] eqn:Hsel.
  { simpl. intros H; inversion H; subst; discriminate. }
  cbn [List.length Nat.eqb].
  destruct (find _ (r :: rs)) as [bad|] eqn:Hfind.
  { unfold ret. intros H; inversion H; subst; discriminate. }
  unfold bind at 1.
  destruct (exec _ w1) as [[oid|] w2] eqn:E2.
  2:{ intros H; inversion H; subst; discriminate. }
  apply exec_returned in E2 as [Hoid D2]. rewrite D1 in Hoid, D2.
  cbn [fst Orders.insertOrder] in Hoid.
  unfold bind at 1.
  change (fun item : Orders.cart_row => _) with (item_turn env oid).
  destruct (for_of _ _ w2) as [[[]|] w3] eqn:E3.
  2:{ intros H; inversion H; subst; discriminate. }
  apply loop_returned in E3.
  unfold bind at 1.
  destruct (exec _ w3) as [[[]|] w4] eqn:E4.
  2:{ intros H; inversion H; subst; discriminate. }
  apply exec_returned in E4 as [_ D4].
  unfold ret. intros H _. inversion H; subst resp w'. clear H.
  split.
  - unfold created. rewrite Hsel. now subst oid.
  - rewrite D4, E3, D2. unfold placed. rewrite Hsel. now subst oid.
Qed.


Lemma priced_line_snapshot d orderId ci :
  row_snapshot orderId (priced_line d ci) = line_snapshot d orderId ci.
Proof.
  unfold row_snapshot, line_snapshot, line_total, unit_price, priced_line.
  now destruct (product_of d ci).
Qed.

Lemma priced_line_product d ls :
  map Orders.product_id (map (priced_line d) ls) = map ci_product_id ls.
Proof.
  rewrite map_map. apply map_ext. intros ci. unfold priced_line.
  now destruct (product_of d ci).
Qed.

Lemma priced_line_quantity d ci :
  Orders.quantity (priced_line d ci) = ci_quantity ci.
Proof. unfold priced_line. now destruct (product_of d ci). Qed.

Lemma existsb_eqb_In k l : existsb (Z.eqb k) l = true <-> In k l.
Proof.
  rewrite existsb_exists. split.
  - intros (x & Hin & E). apply Z.eqb_eq in E. now subst.
  - intros Hin. exists k. split; [easy | apply Z.eqb_refl].
Qed.

Lemma next_rowid_above seq ids x :
  In x ids -> x < next_rowid seq ids.
Proof.
  unfold next_rowid.
  induction ids as [|y l IH]; cbn [fold_right In]; [easy|].
  intros [->|Hin]; [lia|]. specialize (IH Hin). lia.
Qed.

Lemma next_rowid_fresh seq ids : ~ In (next_rowid seq ids) ids.
Proof. intros H. apply (next_rowid_above seq) in H. lia. Qed.

(** ** Order creation: totals, effects, optional fields *)

Section OrderCreation.

Variables (env : environment) (userId : Z) (req : Orders.request).



End OrderCreation.



Section OrderEffects.

Variables (env : environment) (userId : Z) (req : Orders.request).

(** C4. A successful order creation from a cart whose every line has an
    active product with enough stock writes one order row and one
    order-item row per cart line, freezing product id, quantity, unit price
    and line total; decrements the stock of each referenced product by
    exactly the ordered quantity, leaving other stock alone; and leaves the
    user's cart empty.  All of it is there whenever the answer is 201. *)
Theorem create_order_effects (w w' : world) (resp : response) :
  primary_key p_id (products (db w)) = true ->
  primary_key ci_product_id (user_lines userId (db w)) = true ->
  forallb (line_available (db w)) (user_lines userId (db w)) = true ->
  Orders.create_order env userId req w = (resp, w') ->
  status resp = 201 ->
  let d := db w in
  let d' := db w' in
  (exists o,
      orders d' = orders d ++ [o]
      /\ o_id o = next_order_id d /\ o_user_id o = userId
      /\ body resp
         = OrderCreated "Order created successfully" (o_id o)
             (o_order_number o) (o_total_amount o))
  /\ (exists news,
         order_items d' = order_items d ++ news
         /\ map snapshot news
            = map (line_snapshot d (next_order_id d)) (user_lines userId d))
  /\ (forall ci, In ci (user_lines userId d) ->
        exists s,
          stock_of d (ci_product_id ci) = Some s
          /\ stock_of d' (ci_product_id ci) = Some (s - ci_quantity ci))
  /\ (forall k, ~ In k (map ci_product_id (user_lines userId d)) ->
        stock_of d' k = stock_of d k)
  /\ user_lines userId d' = [].
Proof.
  intros PK UQ Hav Hrun H201. cbv zeta.
  destruct (create_order_created _ _ _ _ _ _ Hrun H201) as [-> ->].
  pose proof (select_available _ _ PK Hav) as Hsel.
  split; [|split; [|split; [|split]]].
  - exists (placed_order env userId req (db w)).
    rewrite placed_orders. repeat split.
  - destruct (placed_order_items env userId req (db w)) as (news & E & Hn).
    exists news. split; [exact E|]. rewrite Hn, Hsel, map_map.
    apply map_ext. intros ci. apply priced_line_snapshot.
  - intros ci Hin. rewrite placed_stock, Hsel.
    rewrite forallb_forall in Hav. specialize (Hav ci Hin).
    unfold line_available in Hav. unfold stock_of.
    fold (product_of (db w) ci).
    destruct (product_of (db w) ci) as [p|] eqn:Hp; [|discriminate].
    exists (p_stock_quantity p). split; [reflexivity|]. simpl.
    do 2 f_equal.
    assert (E : ci_product_id ci
                = Orders.product_id (priced_line (db w) ci)).
    { unfold priced_line. now rewrite Hp. }
    rewrite E, ordered_quantity_once.
    + apply priced_line_quantity.
    + unfold primary_key. now rewrite priced_line_product.
    + now apply in_map.
  - intros k Hk. rewrite placed_stock, Hsel, ordered_quantity_absent.
    + destruct (stock_of (db w) k); simpl; [f_equal; lia | easy].
    + rewrite priced_line_product.
      destruct (existsb (Z.eqb k) _) eqn:E; [|easy].
      apply existsb_eqb_In in E. contradiction.
  - apply placed_cart_empty.
Qed.

End OrderEffects.

Lemma create_order_effects_witness :
  primary_key p_id (products (db Sample.small_world)) = true
  /\ primary_key ci_product_id (user_lines 7 (db Sample.small_world)) = true
  /\ forallb (line_available (db Sample.small_world))
       (user_lines 7 (db Sample.small_world)) = true
  /\ status (fst Sample.small_outcome) = 201
  /\ (exists o,
         orders (db (snd Sample.small_outcome))
         = orders (db Sample.small_world) ++ [o]
         /\ o_id o = next_order_id (db Sample.small_world)
         /\ o_user_id o = 7
         /\ body (fst Sample.small_outcome)
            = OrderCreated "Order created successfully" (o_id o)
                (o_order_number o) (o_total_amount o))
  /\ (exists news,
         order_items (db (snd Sample.small_outcome))
         = order_items (db Sample.small_world) ++ news
         /\ map snapshot news
            = map (line_snapshot (db Sample.small_world)
                     (next_order_id (db Sample.small_world)))
                (user_lines 7 (db Sample.small_world)))
  /\ (forall ci, In ci (user_lines 7 (db Sample.small_world)) ->
        exists s,
          stock_of (db Sample.small_world) (ci_product_id ci) = Some s
          /\ stock_of (db (snd Sample.small_outcome)) (ci_product_id ci)
             = Some (s - ci_quantity ci))
  /\ (forall k,
        ~ In k (map ci_product_id (user_lines 7 (db Sample.small_world))) ->
        stock_of (db (snd Sample.small_outcome)) k
        = stock_of (db Sample.small_world) k)
  /\ user_lines 7 (db (snd Sample.small_outcome)) = [].
Proof.
  split; [reflexivity|]. split; [reflexivity|]. split; [reflexivity|].
  split; [reflexivity|].
  apply (create_order_effects Sample.env 7 Sample.bare Sample.small_world
           (snd Sample.small_outcome) (fst Sample.small_outcome));
    reflexivity.
Defined.

(** ** The rows of the cart query *)

Lemma in_selectCartItems userId d item :
  In item (Orders.selectCartItems userId d) <->
  exists ci p,
    In ci (user_lines userId d) /\ In p (products d)
    /\ p_id p = ci_product_id ci /\ p_is_active p = 1
    /\ item = Orders.join_row ci p.
Proof.
  unfold Orders.selectCartItems, user_lines. rewrite in_flat_map. split.
  - intros (ci & Hci & Hin).
    destruct (ci_user_id ci =? userId)%Z eqn:E; [|easy].
    apply in_map_iff in Hin as (p & <- & Hp).
    apply filter_In in Hp as (Hp & Hc). apply andb_prop in Hc as [Hi Ha].
    apply Z.eqb_eq in Hi, Ha.
    exists ci, p. rewrite filter_In. auto.
  - intros (ci & p & Hci & Hp & Hi & Ha & ->).
    apply filter_In in Hci as (Hci & E). exists ci. split; [easy|].
    rewrite E. apply in_map. apply filter_In. split; [easy|].
    apply andb_true_intro. split; now apply Z.eqb_eq.
Qed.


Section OptionalFields.

Variables (env : environment) (userId : Z) (req : Orders.request).


(** C8. The two scenarios: the cart [{price 10.00, qty 3}] with stock 5 gives
    subtotal 30.00, shipping 10.00, tax 2.40 and total 42.40; the cart
    [{price 60.00, qty 2}] with stock 2 gives subtotal 120.00, shipping 0.00,
    tax 9.60 and total 129.60, each exactly the binary64 value JS writes that
    way. *)
Theorem scenario_totals :
  (exists d' o,
      Orders.create_order env 7 req (no_faults Sample.small_cart)
      = (json 201
           (OrderCreated "Order created successfully" (o_id o)
              (o_order_number o) 42.40%float),
         no_faults d')
      /\ orders d' = [o]
      /\ o_subtotal o = 30.00%float
      /\ o_shipping_amount o = 10.00%float
      /\ o_tax_amount o = 2.40%float
      /\ o_total_amount o = 42.40%float)
  /\ (exists d' o,
         Orders.create_order env 7 req (no_faults Sample.large_cart)
         = (json 201
              (OrderCreated "Order created successfully" (o_id o)
                 (o_order_number o) 129.60%float),
            no_faults d')
         /\ orders d' = [o]
         /\ o_subtotal o = 120.00%float
         /\ o_shipping_amount o = 0.00%float
         /\ o_tax_amount o = 9.60%float
         /\ o_total_amount o = 129.60%float).
Proof.
  split.
  - exists (placed env 7 req Sample.small_cart),
      (placed_order env 7 req Sample.small_cart).
    rewrite create_order_placed; [|discriminate|reflexivity].
    rewrite placed_orders. repeat split.
  - exists (placed env 7 req Sample.large_cart),
      (placed_order env 7 req Sample.large_cart).
    rewrite create_order_placed; [|discriminate|reflexivity].
    rewrite placed_orders. repeat split.
Qed.

End OptionalFields.



(** ** Failures of order creation *)

(** A rejection by the handler's own checks writes nothing, whatever the
    store does. *)
Lemma create_order_rejected env userId req w resp w' :
  Orders.create_order env userId req w = (resp, w') ->
  status resp = 400 ->
  db w' = db w.
Proof.
  unfold Orders.create_order, try_catch, Orders.create_order_body.
  unfold bind at 1.
  destruct (query _ w) as [[rows|] w1] eqn:Q.
  2:{ intros H; inversion H; subst; discriminate. }
  pose proof (query_db _ _ _ _ Q) as D1.
  destruct rows as [|r rs].
  { simpl. intros H _; inversion H; now subst. }
  cbn [List.length Nat.eqb].
  destruct (find _ (r :: rs)) as [bad|].
  { unfold ret. intros H _; inversion H; now subst. }
  unfold bind at 1.
  destruct (exec _ w1) as [[oid|] w2].
  2:{ intros H; inversion H; subst; discriminate. }
  unfold bind at 1.
  destruct (for_of _ _ w2) as [[[]|] w3].
  2:{ intros H; inversion H; subst; discriminate. }
  unfold bind at 1.
  destruct (exec _ w3) as [[[]|] w4];
    intros H; inversion H; subst; discriminate.
Qed.

Lemma exec_pass {A} (stmt : database -> A * database) d fs :
  exec stmt (mkWorld d (false :: fs))
  = (Returned (fst (stmt d)), mkWorld (snd (stmt d)) fs).
Proof. unfold exec; cbn. now destruct (stmt d). Qed.

Lemma exec_fail {A} (stmt : database -> A * database) d fs :
  exec stmt (mkWorld d (true :: fs)) = (Thrown, mkWorld d fs).
Proof. reflexivity. Qed.

(** Whatever the cart, once the checks have passed a throw at the first
    order-item insert leaves the order row behind. *)
Lemma create_order_partial env userId req d fs :
  Orders.selectCartItems userId d <> [] ->
  find (fun item => (Orders.stock_quantity item <? Orders.quantity item)%Z)
    (Orders.selectCartItems userId d) = None ->
  exists d1,
    Orders.create_order env userId req
      (mkWorld d (false :: false :: true :: fs))
    = (json 500 (Error "Failed to create order"), mkWorld d1 fs)
    /\ orders d1 = orders d ++ [placed_order env userId req d]
    /\ order_items d1 = order_items d
    /\ products d1 = products d
    /\ cart_items d1 = cart_items d.
Proof.
  intros Hne Hstock.
  unfold Orders.create_order, try_catch, Orders.create_order_body.
  unfold bind at 1. unfold query. rewrite exec_pass. cbn [fst snd].
  destruct (Orders.selectCartItems userId d) as [|r rs] eqn:Hsel;
    [congruence|].
  cbn [List.length Nat.eqb]. rewrite Hstock.
  unfold bind at 1. rewrite exec_pass.
  unfold bind at 1. cbn [for_of]. unfold bind at 1 2.
  rewrite exec_fail. eexists. split; [reflexivity|].
  unfold placed_order. rewrite Hsel. repeat split.
Qed.

(** C2 (the code departs from it).  When the store throws at the first
    order-item insert, order creation answers 500 and yet the order row
    inserted just before stays: there is an order without items, with the
    stock and the cart as they were. *)
Theorem create_order_not_atomic :
  fst (Orders.create_order Sample.env 7 Sample.bare Sample.failing_world)
  = json 500 (Error "Failed to create order")
  /\ orders (db Sample.failing_world) = []
  /\ map o_id
       (orders
          (db (snd (Orders.create_order Sample.env 7 Sample.bare
                      Sample.failing_world)))) = [1]
  /\ order_items
       (db (snd (Orders.create_order Sample.env 7 Sample.bare
                   Sample.failing_world))) = []
  /\ products
       (db (snd (Orders.create_order Sample.env 7 Sample.bare
                   Sample.failing_world)))
     = products (db Sample.failing_world)
  /\ cart_items
       (db (snd (Orders.create_order Sample.env 7 Sample.bare
                   Sample.failing_world)))
     = cart_items (db Sample.failing_world).
Proof. repeat split. Qed.

(** ** Cart lines whose product is not active *)

Lemma existsb_false_filter {A} (f : A -> bool) l :
  existsb f l = false -> filter f l = [].
Proof.
  induction l as [|x l IH]; cbn; [easy|].
  intros H. apply orb_false_elim in H as [-> Hl]. auto.
Qed.

Section InactiveLines.

Variable userId : Z.

Lemma agree_exec {A} (stmt : database -> A * database) w w0 :
  cart_blind userId stmt -> sim userId w w0 ->
  agree userId (exec stmt w) (exec stmt w0).
Proof.
  intros Hb [Hf Hr]. unfold exec. rewrite <- Hf.
  destruct (Hb _ _ Hr) as [Ha Hd].
  destruct (stmt (db w)) as [a d1], (stmt (db w0)) as [a0 d2].
  cbn [fst snd] in Ha, Hd.
  destruct (faults w) as [|[|] rest]; unfold agree, sim; cbn; auto.
Qed.

Lemma agree_bind {A B} (m m0 : M A) (k k0 : A -> M B) w w0 :
  agree userId (m w) (m0 w0) ->
  (forall a w1 w2, sim userId w1 w2 -> agree userId (k a w1) (k0 a w2)) ->
  agree userId (bind m k w) (bind m0 k0 w0).
Proof.
  unfold bind. intros [Hres Hsim] Hk.
  destruct (m w) as [[a|] w1], (m0 w0) as [[a0|] w2]; cbn in Hres, Hsim;
    try contradiction.
  - subst a0. now apply Hk.
  - split; cbn; auto.
Qed.

Lemma agree_for_of {A} (body : A -> M unit) xs w w0 :
  (forall x w1 w2, sim userId w1 w2 ->
                   agree userId (body x w1) (body x w2)) ->
  sim userId w w0 ->
  agree userId (for_of xs body w) (for_of xs body w0).
Proof.
  intros Hbody. revert w w0.
  induction xs as [|x xs IH]; intros w w0 Hsim; cbn [for_of].
  - split; cbn; auto.
  - apply agree_bind; [now apply Hbody | intros _ w1 w2; apply IH].
Qed.

Lemma insertOrder_blind env uid num st sub tax ship tot pm sa ba nt :
  cart_blind userId
    (Orders.insertOrder env uid num st sub tax ship tot pm sa ba nt).
Proof.
  intros d d0 (Hp & Ho & Hi & Hs & Hc). unfold Orders.insertOrder.
  cbn [fst snd]. rewrite Ho, Hs. split; [reflexivity|].
  repeat split; cbn; congruence.
Qed.

Lemma insertOrderItem_blind env oid pid qty up tp :
  cart_blind userId (Orders.insertOrderItem env oid pid qty up tp).
Proof.
  intros d d0 (Hp & Ho & Hi & Hs & Hc). unfold Orders.insertOrderItem.
  cbn [fst snd]. rewrite Hi, Hs. split; [reflexivity|].
  repeat split; cbn; congruence.
Qed.

Lemma updateStock_blind qty pid :
  cart_blind userId (Orders.updateStock qty pid).
Proof.
  intros d d0 (Hp & Ho & Hi & Hs & Hc). unfold Orders.updateStock.
  cbn [fst snd]. split; [reflexivity|].
  repeat split; cbn; congruence.
Qed.

Lemma agree_item_turn env oid item w w0 :
  sim userId w w0 ->
  agree userId (item_turn env oid item w) (item_turn env oid item w0).
Proof.
  intros Hsim. unfold item_turn. apply agree_bind.
  - apply agree_exec; [apply insertOrderItem_blind | exact Hsim].
  - intros _ w1 w2 H. apply agree_exec; [apply updateStock_blind | exact H].
Qed.

Lemma clearCart_joins d d0 :
  cart_rel userId d d0 ->
  snd (Orders.clearCart userId d) = snd (Orders.clearCart userId d0).
Proof.
  intros (Hp & Ho & Hi & Hs & Hc). unfold Orders.clearCart, with_cart_items.
  cbn [snd]. now rewrite Hp, Ho, Hi, Hs, Hc.
Qed.

Lemma select_without_inactive d :
  Orders.selectCartItems userId (without_inactive_lines userId d)
  = Orders.selectCartItems userId d.
Proof.
  unfold Orders.selectCartItems, without_inactive_lines.
  cbn [with_cart_items cart_items products].
  induction (cart_items d) as [|ci cs IH]; cbn [filter flat_map]; [easy|].
  destruct (ci_user_id ci =? userId)%Z eqn:E; cbn [negb orb].
  - destruct (line_active d ci) eqn:Ha; cbn [flat_map].
    + rewrite E. now rewrite IH.
    + rewrite IH. unfold line_active in Ha.
      now rewrite (existsb_false_filter _ _ Ha).
  - cbn [flat_map]. rewrite E. exact IH.
Qed.

Lemma without_inactive_rel d :
  cart_rel userId d (without_inactive_lines userId d).
Proof.
  unfold cart_rel, without_inactive_lines; cbn. repeat split.
  induction (cart_items d) as [|ci cs IH]; cbn; [easy|].
  destruct (ci_user_id ci =? userId)%Z eqn:E; cbn.
  - destruct (line_active d ci); cbn; [now rewrite E | exact IH].
  - rewrite E; cbn. now rewrite IH.
Qed.

End InactiveLines.

Section InactiveLinesDropped.

Variables (env : environment) (userId : Z) (req : Orders.request).

Lemma agree_ret {A} (a : A) w w0 :
  sim userId w w0 -> agree userId (ret a w) (ret a w0).
Proof. intros H. split; cbn; auto. Qed.

Lemma agree_query {A} (q : database -> A) w w0 :
  sim userId w w0 -> q (db w) = q (db w0) ->
  agree userId (query q w) (query q w0).
Proof.
  intros [Hf Hr] Hq. unfold query, exec. rewrite <- Hf, Hq.
  destruct (faults w) as [|[|] rest]; unfold agree, sim; cbn; auto.
Qed.

Lemma clearCart_blind : cart_blind userId (Orders.clearCart userId).
Proof.
  intros d d0 Hr. split; [reflexivity|].
  rewrite (clearCart_joins userId d d0 Hr).
  repeat split.
Qed.

Lemma create_order_body_agree w w0 :
  sim userId w w0 ->
  Orders.selectCartItems userId (db w)
  = Orders.selectCartItems userId (db w0) ->
  agree userId (Orders.create_order_body env userId req w)
    (Orders.create_order_body env userId req w0).
Proof.
  intros Hsim Hsel. unfold Orders.create_order_body.
  apply agree_bind; [now apply agree_query|].
  intros rows w1 w2 H1.
  destruct (List.length rows =? 0)%nat; [now apply agree_ret|].
  destruct (find _ rows); [now apply agree_ret|].
  apply agree_bind; [apply agree_exec; [apply insertOrder_blind | exact H1]|].
  intros oid w3 w4 H3.
  apply agree_bind.
  { apply agree_for_of; [|exact H3].
    intros item w5 w6 H5. now apply (agree_item_turn userId env oid item). }
  intros _ w5 w6 H5.
  apply agree_bind; [apply agree_exec; [apply clearCart_blind | exact H5]|].
  intros _ w7 w8 H7. now apply agree_ret.
Qed.

Lemma write_items_rel orderId items d d0 :
  cart_rel userId d d0 ->
  cart_rel userId (write_items env orderId items d)
    (write_items env orderId items d0).
Proof.
  unfold write_items. revert d d0.
  induction items as [|item items IH]; intros d d0 H; cbn [fold_left];
    [exact H|].
  apply IH. unfold write_item.
  exact (proj2 (updateStock_blind userId _ _ _ _
                  (proj2 (insertOrderItem_blind userId env orderId
                            _ _ _ _ _ _ H)))).
Qed.

Lemma placed_rel d d0 :
  cart_rel userId d d0 ->
  Orders.selectCartItems userId d = Orders.selectCartItems userId d0 ->
  placed env userId req d = placed env userId req d0.
Proof.
  intros Hr Hsel. unfold placed. rewrite <- Hsel.
  assert (Hid : next_order_id d = next_order_id d0).
  { unfold next_order_id. destruct Hr as (_ & -> & _ & -> & _). easy. }
  rewrite <- Hid. apply clearCart_joins, write_items_rel.
  exact (proj2 (insertOrder_blind userId env _ _ _ _ _ _ _ _ _ _ _ _ _ Hr)).
Qed.

Lemma no_active_line_no_rows d :
  (forall ci, In ci (user_lines userId d) -> line_active d ci = false) ->
  Orders.selectCartItems userId d = [].
Proof.
  intros H.
  destruct (Orders.selectCartItems userId d) as [|item rows] eqn:Hsel;
    [easy|].
  assert (Hin : In item (Orders.selectCartItems userId d))
    by (rewrite Hsel; now left).
  apply in_selectCartItems in Hin as (ci & p & Hci & Hp & Hi & Ha & _).
  specialize (H ci Hci). unfold line_active in H.
  assert (Hex : existsb
                  (fun p => (p_id p =? ci_product_id ci)%Z
                            && (p_is_active p =? 1)%Z) (products d) = true).
  { apply existsb_exists. exists p. split; [easy|].
    apply andb_true_intro. split; now apply Z.eqb_eq. }
  congruence.
Qed.

(** C7 (as amended).  A cart line whose product is not active is left out of
    the order instead of rejecting it: whatever the store does, order
    creation gives the answer, and leaves the products, orders and order
    items, it gives for the cart without such lines; when it answers 201 the
    whole database is the same, the cart emptied of those lines too.  It is
    rejected with 'Cart is empty' and no write when no line of the cart has
    an active product (the store raising no error). *)
Theorem inactive_lines_dropped (d : database) (fs : list bool) :
  fst (Orders.create_order env userId req (mkWorld d fs))
  = fst (Orders.create_order env userId req
           (mkWorld (without_inactive_lines userId d) fs))
  /\ cart_rel userId
       (db (snd (Orders.create_order env userId req (mkWorld d fs))))
       (db (snd (Orders.create_order env userId req
                   (mkWorld (without_inactive_lines userId d) fs))))
  /\ (status (fst (Orders.create_order env userId req (mkWorld d fs))) = 201 ->
      db (snd (Orders.create_order env userId req (mkWorld d fs)))
      = db (snd (Orders.create_order env userId req
                   (mkWorld (without_inactive_lines userId d) fs))))
  /\ ((forall ci, In ci (user_lines userId d) -> line_active d ci = false) ->
      Orders.create_order env userId req (no_faults d)
      = (json 400 (Error "Cart is empty"), no_faults d)).
Proof.
  assert (Hsim : sim userId (mkWorld d fs)
                   (mkWorld (without_inactive_lines userId d) fs))
    by (split; [reflexivity | apply without_inactive_rel]).
  assert (Hsel : Orders.selectCartItems userId (db (mkWorld d fs))
                 = Orders.selectCartItems userId
                     (db (mkWorld (without_inactive_lines userId d) fs)))
    by (symmetry; apply select_without_inactive).
  pose proof (create_order_body_agree _ _ Hsim Hsel) as [Hres [_ Hrel]].
  assert (Hfst : fst (Orders.create_order env userId req (mkWorld d fs))
                 = fst (Orders.create_order env userId req
                          (mkWorld (without_inactive_lines userId d) fs))).
  { unfold Orders.create_order, try_catch.
    destruct (Orders.create_order_body env userId req (mkWorld d fs))
      as [[r|] w1];
      destruct (Orders.create_order_body env userId req
                  (mkWorld (without_inactive_lines userId d) fs))
        as [[r0|] w2]; cbn in Hres |- *; try contradiction; congruence. }
  split; [exact Hfst|]. split; [|split].
  - unfold Orders.create_order, try_catch.
    destruct (Orders.create_order_body env userId req (mkWorld d fs))
      as [[r|] w1];
      destruct (Orders.create_order_body env userId req
                  (mkWorld (without_inactive_lines userId d) fs))
        as [[r0|] w2]; cbn in Hrel |- *; exact Hrel.
  - intros H201.
    destruct (Orders.create_order env userId req (mkWorld d fs))
      as [r w1] eqn:E1.
    destruct (Orders.create_order env userId req
                (mkWorld (without_inactive_lines userId d) fs))
      as [r0 w2] eqn:E2.
    cbn [fst snd] in *. subst r0.
    destruct (create_order_created _ _ _ _ _ _ E1 H201) as [_ ->].
    destruct (create_order_created _ _ _ _ _ _ E2 H201) as [_ ->].
    apply placed_rel; [apply without_inactive_rel | exact Hsel].
  - intros Hno.
    unfold Orders.create_order, try_catch, Orders.create_order_body.
    unfold bind at 1.
    now rewrite query_no_faults, (no_active_line_no_rows d Hno).
Qed.

End InactiveLinesDropped.

(** C7 (as stated) fails: user 7's cart holds a line for a deactivated
    product next to a line for an active one; order creation answers 201,
    writes an order for the active line alone and deletes both lines. *)
Lemma inactive_line_not_rejected :
  (exists ci, In ci (user_lines 7 Sample.mixed_cart)
              /\ line_active Sample.mixed_cart ci = false)
  /\ status
       (fst (Orders.create_order Sample.env 7 Sample.bare
               (no_faults Sample.mixed_cart))) = 201
  /\ map snapshot
       (order_items
          (db (snd (Orders.create_order Sample.env 7 Sample.bare
                      (no_faults Sample.mixed_cart)))))
     = [(1, 1, 3, 10%float, 30%float)]
  /\ cart_items
       (db (snd (Orders.create_order Sample.env 7 Sample.bare
                   (no_faults Sample.mixed_cart)))) = [].
Proof.
  split; [|repeat split].
  exists (Sample.line 7 2 1). split; [right; now left | reflexivity].
Qed.

Lemma inactive_lines_dropped_witness :
  (forall ci, In ci (user_lines 7 Sample.stale_cart) ->
              line_active Sample.stale_cart ci = false)
  /\ Orders.create_order Sample.env 7 Sample.bare
       (no_faults Sample.stale_cart)
     = (json 400 (Error "Cart is empty"), no_faults Sample.stale_cart).
Proof.
  split; [intros ci [<-|[]]; reflexivity|].
  apply (inactive_lines_dropped Sample.env 7 Sample.bare Sample.stale_cart []).
  intros ci [<-|[]]; reflexivity.
Defined.

(** ** Payment confirmation *)

Section Payment.

Variables (env : environment) (userId : Z) (req : Payments.request).

(** C5. A payment-confirmation request whose order id does not identify an
    order that is owned by the requesting user and has payment status
    'pending' is answered with an error (400, 404 or, when the store throws,
    500) and leaves every table, so every field of every order, as it was. *)
Theorem process_payment_rejects (w : world) :
  (forall o, In o (orders (db w)) ->
             ~ (Payments.orderId req = Some (o_id o)
                /\ o_user_id o = userId
                /\ o_payment_status o = "pending"%string)) ->
  (exists code e,
      fst (Payments.process_payment env userId req w) = json code (Error e)
      /\ (code = 400 \/ code = 404 \/ code = 500))
  /\ db (snd (Payments.process_payment env userId req w)) = db w.
Proof.
  intros Hnone.
  destruct (Payments.process_payment env userId req w) as [resp w'] eqn:Run.
  cbn [fst snd]. revert Run.
  unfold Payments.process_payment, try_catch, Payments.process_payment_body.
  destruct (negb (JS.truthy_int (Payments.orderId req))
            || negb (JS.truthy_string (Payments.paymentMethod req))) eqn:G.
  { cbn. intros H; inversion H; subst. split; [|reflexivity].
    do 2 eexists. split; [reflexivity|auto]. }
  apply orb_false_elim in G as [Gid _]. apply negb_false_iff in Gid.
  unfold JS.truthy_int in Gid.
  destruct (Payments.orderId req) as [oid|] eqn:Hoid; [|discriminate].
  apply negb_true_iff in Gid. cbn [JS.int_or]. rewrite Gid.
  unfold bind at 1.
  destruct (query _ w) as [[found|] w1] eqn:Q.
  - pose proof (query_db _ _ _ _ Q) as D1.
    apply query_returned in Q. subst found.
    destruct (Payments.selectPendingOrder oid userId (db w)) as [o|] eqn:F.
    + exfalso. unfold Payments.selectPendingOrder in F.
      destruct (find_some _ _ F) as [Hin Hc].
      apply andb_prop in Hc as [Hc Hp]. apply andb_prop in Hc as [Hi Hu].
      apply Z.eqb_eq in Hi, Hu. apply String.eqb_eq in Hp.
      apply (Hnone o Hin). subst oid. auto.
    + cbn. intros H; inversion H; subst. split; [|exact D1].
      do 2 eexists. split; [reflexivity|auto].
  - apply query_db in Q. intros H; inversion H; subst. split; [|exact Q].
    do 2 eexists. split; [reflexivity|auto].
Qed.

End Payment.

Lemma process_payment_rejects_witness :
  (forall o, In o (orders (db (no_faults Sample.awaiting_payment))) ->
             ~ (Payments.orderId Sample.pay_unknown = Some (o_id o)
                /\ o_user_id o = 7
                /\ o_payment_status o = "pending"%string))
  /\ (exists code e,
         fst (Payments.process_payment Sample.env 7 Sample.pay_unknown
                (no_faults Sample.awaiting_payment))
         = json code (Error e)
         /\ (code = 400 \/ code = 404 \/ code = 500))
  /\ db (snd (Payments.process_payment Sample.env 7 Sample.pay_unknown
                (no_faults Sample.awaiting_payment)))
     = db (no_faults Sample.awaiting_payment).
Proof.
  split; [intros o [<-|[]] [H _]; discriminate|].
  apply (process_payment_rejects Sample.env 7 Sample.pay_unknown
           (no_faults Sample.awaiting_payment)).
  intros o [<-|[]] [H _]; discriminate.
Defined.

Section PaymentOutcome.

Variables (env : environment) (userId : Z) (req : Payments.request).

(** C3 (as amended).  For an order owned by the requesting user with payment
    status 'pending', payment confirmation produces exactly one of these:
    for a request that names the order by its (non-zero) id and carries a
    non-empty payment method, either the payment status becomes 'completed'
    and the lifecycle status 'confirmed', the payment method and the
    payment id being recorded; or the payment status becomes 'failed' while
    the lifecycle status and every other column but the update time stay
    as they were; or, only when one of the two statements throws, the
    answer is 500 and the order stays as it was.  A request without an order
    id (absent or 0) or without a payment method (absent or empty) is
    answered 400 before any statement runs, and nothing changes. *)
Theorem process_payment_outcome (w w' : world) (resp : response)
    (o : order) :
  In o (orders (db w)) ->
  o_user_id o = userId ->
  o_payment_status o = "pending"%string ->
  Payments.process_payment env userId req w = (resp, w') ->
  let completed := fun (method : string) (x : order) =>
    mkOrder (o_id x) (o_user_id x) (o_order_number x) "confirmed"
      (o_subtotal x) (o_tax_amount x) (o_shipping_amount x)
      (o_discount_amount x) (o_total_amount x) (o_currency x)
      "completed" (Some method) (Some (Payments.paymentId_of env))
      (o_shipping_address_id x) (o_billing_address_id x) (o_notes x)
      (o_shipped_at x) (o_delivered_at x) (o_created_at x)
      (current_timestamp env) in
  let failed := fun x : order =>
    mkOrder (o_id x) (o_user_id x) (o_order_number x) (o_status x)
      (o_subtotal x) (o_tax_amount x) (o_shipping_amount x)
      (o_discount_amount x) (o_total_amount x) (o_currency x)
      "failed" (o_payment_method x) (o_payment_id x)
      (o_shipping_address_id x) (o_billing_address_id x) (o_notes x)
      (o_shipped_at x) (o_delivered_at x) (o_created_at x)
      (current_timestamp env) in
  (Payments.orderId req = Some (o_id o) ->
   o_id o <> 0 ->
   forall method,
     Payments.paymentMethod req = Some method ->
     method <> ""%string ->
     (resp = json 200
               (PaymentProcessed "Payment processed successfully"
                  (Payments.paymentId_of env) (o_id o))
      /\ db w'
         = with_orders (db w)
             (map (fun x => if (o_id x =? o_id o)%Z
                            then completed method x else x)
                (orders (db w)))
      /\ Payments.paymentSuccess env = true)
     \/ (resp = json 400
                  (PaymentFailed
                     "Payment processing failed. Please try again.")
         /\ db w'
            = with_orders (db w)
                (map (fun x => if (o_id x =? o_id o)%Z then failed x else x)
                   (orders (db w)))
         /\ Payments.paymentSuccess env = false)
     \/ (resp = json 500 (Error "Payment processing failed")
         /\ db w' = db w
         /\ In true (firstn 2 (faults w))))
  /\ (Payments.orderId req = None \/ Payments.orderId req = Some 0
      \/ Payments.paymentMethod req = None
      \/ Payments.paymentMethod req = Some ""%string ->
      resp = json 400 (Error "Order ID and payment method are required")
      /\ w' = w).
Proof.
  intros Hin Hu Hp Run. cbv zeta. split.
  - intros Hid Hnz method Hm Hne.
    assert (Hfound : Payments.selectPendingOrder (o_id o) userId (db w)
                     <> None).
    { unfold Payments.selectPendingOrder. intros Hnone.
      apply (find_none _ _ Hnone) in Hin.
      rewrite Hu, Hp, !Z.eqb_refl in Hin. discriminate. }
    revert Run.
    unfold Payments.process_payment, try_catch,
      Payments.process_payment_body.
    rewrite Hid, Hm.
    cbn [JS.truthy_int JS.truthy_string JS.int_or JS.string_or].
    destruct (Z.eqb_spec (o_id o) 0) as [|_]; [contradiction|].
    destruct (String.eqb_spec method "") as [|_]; [contradiction|].
    cbn [negb orb]. unfold bind at 1.
    destruct (query _ w) as [[found|] w1] eqn:Q.
    + pose proof (query_db _ _ _ _ Q) as D1.
      pose proof (exec_returned_faults _ _ _ _ Q) as F1.
      apply query_returned in Q. subst found.
      destruct (Payments.selectPendingOrder (o_id o) userId (db w))
        as [o1|]; [clear Hfound | contradiction].
      destruct (Payments.paymentSuccess env); unfold bind at 1;
        destruct (exec _ w1) as [[[]|] w2] eqn:E.
      * apply exec_returned in E as [_ D2]. cbn [ret].
        intros Run. inversion Run; subst resp w'. left.
        split; [reflexivity|]. split; [|reflexivity].
        rewrite D2, D1. reflexivity.
      * pose proof (exec_thrown_faults _ _ _ E) as F2.
        apply exec_thrown in E. intros Run. inversion Run; subst resp w'.
        right. right. split; [reflexivity|]. split; [congruence|].
        rewrite F1 in F2. destruct (faults w) as [|f1 [|f2 rest]];
          try discriminate F2.
        cbn in F2. inversion F2. cbn. auto.
      * apply exec_returned in E as [_ D2]. cbn [ret].
        intros Run. inversion Run; subst resp w'. right. left.
        split; [reflexivity|]. split; [|reflexivity].
        rewrite D2, D1. reflexivity.
      * pose proof (exec_thrown_faults _ _ _ E) as F2.
        apply exec_thrown in E. intros Run. inversion Run; subst resp w'.
        right. right. split; [reflexivity|]. split; [congruence|].
        rewrite F1 in F2. destruct (faults w) as [|f1 [|f2 rest]];
          try discriminate F2.
        cbn in F2. inversion F2. cbn. auto.
    + pose proof (exec_thrown_faults _ _ _ Q) as F1.
      apply query_db in Q. intros Run. inversion Run; subst resp w'.
      right. right. split; [reflexivity|]. split; [exact Q|].
      destruct (faults w) as [|f1 rest]; [discriminate F1|].
      cbn in F1. inversion F1. destruct rest; cbn; auto.
  - intros Hmiss. revert Run.
    unfold Payments.process_payment, try_catch,
      Payments.process_payment_body.
    assert (G : negb (JS.truthy_int (Payments.orderId req))
                || negb (JS.truthy_string (Payments.paymentMethod req))
                = true).
    { destruct Hmiss as [-> | [-> | [-> | ->]]]; cbn; try reflexivity;
        apply orb_true_r. }
    rewrite G. cbn [ret]. intros Run. inversion Run; subst. now split.
Qed.

End PaymentOutcome.

Lemma process_payment_outcome_witness :
  In Sample.unpaid (orders (db (no_faults Sample.awaiting_payment)))
  /\ o_user_id Sample.unpaid = 7
  /\ o_payment_status Sample.unpaid = "pending"%string
  /\ Payments.process_payment Sample.env 7 Sample.pay_by_card
       (no_faults Sample.awaiting_payment)
     = (fst Scenario.paid, snd Scenario.paid)
  /\ fst Scenario.paid
     = json 200
         (PaymentProcessed "Payment processed successfully"
            (Payments.paymentId_of Sample.env) 1)
  /\ map (fun x => (o_payment_status x, o_status x))
       (orders (db (snd Scenario.paid))) = [("completed", "confirmed")]
  /\ (Payments.paymentSuccess Sample.env = true
      \/ Payments.paymentSuccess Sample.env = false
      \/ In true (firstn 2 (faults (no_faults Sample.awaiting_payment)))).
Proof.
  split; [now left|]. split; [reflexivity|]. split; [reflexivity|].
  split; [reflexivity|]. split; [reflexivity|]. split; [reflexivity|].
  destruct (proj1 (process_payment_outcome Sample.env 7 Sample.pay_by_card
                     (no_faults Sample.awaiting_payment) (snd Scenario.paid)
                     (fst Scenario.paid) Sample.unpaid
                     (or_introl eq_refl) eq_refl eq_refl eq_refl)
              eq_refl ltac:(discriminate) "credit_card" eq_refl
              ltac:(discriminate))
    as [(_ & _ & H)|[(_ & _ & H)|(_ & _ & H)]]; auto.
Defined.

(** C3 (as stated) fails, twice: user 7 owns order 1, whose payment status
    is 'pending'.  A confirmation request for it that carries no payment
    method is answered 400 and the order keeps its payment status; and a
    complete request during which the lookup of the order throws is
    answered 500 and the order keeps its payment status: in both runs
    neither outcome is produced. *)
Lemma payment_without_method :
  In Sample.unpaid (orders Sample.awaiting_payment)
  /\ o_user_id Sample.unpaid = 7
  /\ o_payment_status Sample.unpaid = "pending"%string
  /\ Payments.orderId Sample.pay_unspecified = Some (o_id Sample.unpaid)
  /\ Payments.process_payment Sample.env 7 Sample.pay_unspecified
       (no_faults Sample.awaiting_payment)
     = (json 400 (Error "Order ID and payment method are required"),
        no_faults Sample.awaiting_payment)
  /\ Payments.orderId Sample.pay_by_card = Some (o_id Sample.unpaid)
  /\ Payments.paymentMethod Sample.pay_by_card = Some "credit_card"%string
  /\ Payments.process_payment Sample.env 7 Sample.pay_by_card
       (mkWorld Sample.awaiting_payment [true])
     = (json 500 (Error "Payment processing failed"),
        mkWorld Sample.awaiting_payment []).
Proof. split; [now left | repeat split]. Qed.

(** ** Order status updates *)

Lemma includes_In l v :
  Orders.includes l v = true <-> In v (map Some l).
Proof.
  unfold Orders.includes. destruct v as [s|].
  - rewrite existsb_exists, in_map_iff. split.
    + intros (x & Hin & E). apply String.eqb_eq in E. subst. now exists x.
    + intros (x & E & Hin). inversion E; subst. exists s.
      split; [easy | apply String.eqb_refl].
  - split; [discriminate|]. rewrite in_map_iff. now intros (x & E & _).
Qed.

Lemma filter_length_pos {A} (f : A -> bool) l x :
  In x l -> f x = true -> Z.of_nat (List.length (filter f l)) <> 0.
Proof.
  intros Hin Hf.
  assert (H : In x (filter f l)) by (apply filter_In; auto).
  destruct (filter f l); [destruct H | cbn; lia].
Qed.

Section StatusUpdate.

Variables (env : environment) (orderId : Z) (new_status : option string).

(** C9. An order-status update whose status is not one of pending,
    confirmed, processing, shipped, delivered, cancelled is rejected (400)
    without touching the store; one whose status is among the six, for an
    order that exists (the store raising no error), sets the status of that
    order to the given value and leaves the other orders as they were. *)
Theorem update_order_status_validates :
  (~ In new_status
       (map Some
          ["pending"; "confirmed"; "processing"; "shipped"; "delivered";
           "cancelled"]%string) ->
   forall w,
     Orders.update_order_status env orderId new_status w
     = (json 400 (Error "Invalid status"), w))
  /\ (forall s d,
         new_status = Some s ->
         In s ["pending"; "confirmed"; "processing"; "shipped"; "delivered";
               "cancelled"]%string ->
         (exists o, In o (orders d) /\ o_id o = orderId) ->
         exists d',
           Orders.update_order_status env orderId new_status (no_faults d)
           = (json 200 (Message "Order status updated successfully"),
              no_faults d')
           /\ orders d'
              = map (fun o => if (o_id o =? orderId)%Z
                              then Orders.set_status env s o else o)
                  (orders d)
           /\ (forall o, In o (orders d') -> o_id o = orderId ->
                         o_status o = s)
           /\ (forall o, In o (orders d) -> o_id o <> orderId ->
                         In o (orders d'))
           /\ products d' = products d
           /\ cart_items d' = cart_items d
           /\ order_items d' = order_items d).
Proof.
  split.
  - intros Hbad w.
    unfold Orders.update_order_status, try_catch,
      Orders.update_order_status_body.
    destruct (Orders.includes Orders.validStatuses new_status) eqn:E;
      [|reflexivity].
    apply includes_In in E. contradiction.
  - intros s d -> Hs (o & Hin & Hid).
    unfold Orders.update_order_status, try_catch,
      Orders.update_order_status_body.
    assert (E : Orders.includes Orders.validStatuses (Some s) = true).
    { apply includes_In. now apply in_map. }
    rewrite E. cbn [negb]. unfold bind. rewrite exec_no_faults.
    cbn [fst snd Orders.updateOrder].
    destruct (Z.eqb_spec
                (Z.of_nat
                   (List.length
                      (filter (fun o => (o_id o =? orderId)%Z) (orders d))))
                0) as [Hz|_].
    { exfalso. revert Hz. apply (filter_length_pos _ _ o Hin).
      now apply Z.eqb_eq. }
    eexists. split; [reflexivity|]. cbn. split; [reflexivity|].
    repeat split.
    + intros o' Ho' Hid'. apply in_map_iff in Ho' as (x & <- & Hx).
      destruct (Z.eqb_spec (o_id x) orderId) as [_|Hx']; [reflexivity|].
      contradiction.
    + intros o' Ho' Hid'. apply in_map_iff. exists o'. split; [|easy].
      destruct (Z.eqb_spec (o_id o') orderId); [contradiction|reflexivity].
Qed.

End StatusUpdate.

Lemma update_order_status_validates_witness :
  exists d',
    Orders.update_order_status Sample.env 1 (Some "shipped"%string)
      (no_faults Sample.awaiting_payment)
    = (json 200 (Message "Order status updated successfully"), no_faults d')
    /\ orders d'
       = map (fun o => if (o_id o =? 1)%Z
                       then Orders.set_status Sample.env "shipped" o else o)
           (orders Sample.awaiting_payment)
    /\ (forall o, In o (orders d') -> o_id o = 1 ->
                  o_status o = "shipped"%string)
    /\ (forall o, In o (orders Sample.awaiting_payment) -> o_id o <> 1 ->
                  In o (orders d'))
    /\ products d' = products Sample.awaiting_payment
    /\ cart_items d' = cart_items Sample.awaiting_payment
    /\ order_items d' = order_items Sample.awaiting_payment.
Proof.
  apply (proj2 (update_order_status_validates Sample.env 1
                  (Some "shipped"%string)) "shipped"%string
           Sample.awaiting_payment).
  - reflexivity.
  - cbn. tauto.
  - exists Sample.unpaid. split; [now left | reflexivity].
Defined.

(** ** What every handler preserves *)

Section Soundness.

Context (I : database -> Prop).

Lemma sound_ret {A} (a : A) (Q : A -> Prop) : Q a -> sound I (ret a) Q.
Proof.
  intros HQ w HI. split; [exact HI|]. cbn. intros a' E.
  inversion E; subst; exact HQ.
Qed.

Lemma sound_throw {A} (Q : A -> Prop) : sound I throw Q.
Proof. intros w HI. split; [exact HI|]. cbn. discriminate. Qed.

Lemma sound_bind {A B} (m : M A) (k : A -> M B) Q R :
  sound I m Q -> (forall a, Q a -> sound I (k a) R) -> sound I (bind m k) R.
Proof.
  intros Hm Hk w HI. destruct (Hm w HI) as [HI1 HQ]. unfold bind.
  destruct (m w) as [[a|] w1]; cbn in HI1, HQ |- *.
  - apply (Hk a (HQ a eq_refl) w1 HI1).
  - split; [exact HI1 | discriminate].
Qed.

Lemma sound_exec {A} (stmt : database -> A * database) (Q : A -> Prop) :
  (forall d, I d -> I (snd (stmt d)) /\ Q (fst (stmt d))) ->
  sound I (exec stmt) Q.
Proof.
  intros Hs w HI. destruct (Hs (db w) HI) as [HI1 HQ]. unfold exec.
  destruct (stmt (db w)) as [a d1]. cbn in HI1, HQ.
  destruct (faults w) as [|[|] rest]; cbn; split; auto;
    try discriminate; intros a' E; inversion E; subst; exact HQ.
Qed.

Lemma sound_query {A} (q : database -> A) :
  sound I (query q) (fun _ => True).
Proof. apply sound_exec. intros d HI. now split. Qed.

Lemma sound_constrained {A} (stmt : database -> option (A * database))
    (Q : A -> Prop) :
  (forall d a d', I d -> stmt d = Some (a, d') -> I d' /\ Q a) ->
  sound I (constrained stmt) Q.
Proof.
  intros Hs w HI. unfold constrained.
  destruct (stmt (db w)) as [[a d1]|] eqn:E.
  - destruct (Hs (db w) a d1 HI E) as [HI1 HQ].
    destruct (faults w) as [|[|] rest]; cbn; split; auto;
      try discriminate; intros a' E'; inversion E'; subst; exact HQ.
  - destruct (faults w) as [|[|] rest]; cbn; split; auto; discriminate.
Qed.

Lemma sound_for_of {A} (body : A -> M unit) xs :
  (forall x, sound I (body x) (fun _ => True)) ->
  sound I (for_of xs body) (fun _ => True).
Proof.
  intros Hb. induction xs as [|x xs IH]; cbn [for_of].
  - now apply sound_ret.
  - eapply sound_bind; [apply Hb | intros _ _; exact IH].
Qed.

Lemma sound_try_catch (m : M response) Q on_error w :
  sound I m Q -> I (db w) -> I (db (snd (try_catch m on_error w))).
Proof.
  intros Hm HI. destruct (Hm w HI) as [HI1 _]. unfold try_catch.
  now destruct (m w) as [[r|] w1].
Qed.

End Soundness.

(** ** Orders and their items stay as created *)

Lemma frozen_refl d : frozen d d.
Proof. intros k Hk. auto. Qed.

Section Frozen.

Variable d0 : database.

Lemma frozen_tables d d' :
  orders d' = orders d -> order_items d' = order_items d ->
  frozen d0 d -> frozen d0 d'.
Proof.
  intros Ho Hi H k Hk. unfold items_of, totals_of. rewrite Ho, Hi.
  apply (H k Hk).
Qed.

Lemma frozen_map_orders (f : order -> order) d :
  (forall o, o_id (f o) = o_id o /\ money (f o) = money o) ->
  frozen d0 d -> frozen d0 (with_orders d (map f (orders d))).
Proof.
  intros Hf H k Hk. destruct (H k Hk) as (Hin & Hit & Htot).
  unfold items_of, totals_of in *. cbn [with_orders orders order_items].
  split; [|split; [exact Hit|]].
  - rewrite map_map.
    replace (map (fun o => o_id (f o)) (orders d)) with (map o_id (orders d));
      [exact Hin|].
    apply map_ext. intros o. symmetry. apply Hf.
  - rewrite <- Htot. clear - Hf.
    induction (orders d) as [|o os IH]; cbn; [easy|].
    destruct (Hf o) as [-> Hm].
    destruct (o_id o =? k)%Z; cbn; [now rewrite Hm, IH | exact IH].
Qed.

Lemma frozen_update_orders (g : order -> order) orderId d :
  (forall o, o_id (g o) = o_id o /\ money (g o) = money o) ->
  frozen d0 d ->
  frozen d0
    (with_orders d
       (map (fun o => if (o_id o =? orderId)%Z then g o else o) (orders d))).
Proof.
  intros Hg. apply frozen_map_orders. intros o.
  destruct (o_id o =? orderId)%Z; [apply Hg | easy].
Qed.

Lemma frozen_insert_order (row : order) d ps cs s :
  ~ In (o_id row) (map o_id (orders d)) ->
  frozen d0 d ->
  frozen d0 (mkDatabase ps cs (orders d ++ [row]) (order_items d) s).
Proof.
  intros Hfresh H k Hk. destruct (H k Hk) as (Hin & Hit & Htot).
  unfold items_of, totals_of in *. cbn [orders order_items].
  split; [|split; [exact Hit|]].
  - rewrite map_app. apply in_or_app. now left.
  - rewrite filter_app, map_app, Htot. cbn.
    destruct (Z.eqb_spec (o_id row) k) as [E|_]; [|apply app_nil_r].
    subst k. contradiction.
Qed.

Lemma frozen_insert_item (it : order_item) d ps cs s :
  ~ In (oi_order_id it) (map o_id (orders d0)) ->
  frozen d0 d ->
  frozen d0 (mkDatabase ps cs (orders d) (order_items d ++ [it]) s).
Proof.
  intros Hfresh H k Hk. destruct (H k Hk) as (Hin & Hit & Htot).
  unfold items_of, totals_of in *. cbn [orders order_items].
  split; [exact Hin | split; [|exact Htot]].
  rewrite filter_app, Hit. cbn.
  destruct (Z.eqb_spec (oi_order_id it) k) as [E|_]; [|apply app_nil_r].
  subst k. contradiction.
Qed.

Lemma frozen_fresh d seq :
  frozen d0 d ->
  ~ In (next_rowid seq (map o_id (orders d))) (map o_id (orders d0)).
Proof.
  intros H Hin. destruct (H _ Hin) as (Hin' & _).
  now apply next_rowid_fresh in Hin'.
Qed.

Lemma create_order_frozen env userId req :
  sound (frozen d0) (Orders.create_order_body env userId req)
    (fun _ => True).
Proof.
  unfold Orders.create_order_body.
  eapply sound_bind; [apply sound_query|]. intros rows _.
  destruct (List.length rows =? 0)%nat; [now apply sound_ret|].
  destruct (find _ rows); [now apply sound_ret|].
  eapply sound_bind with
    (Q := fun oid => ~ In oid (map o_id (orders d0))).
  { apply sound_exec. intros d H. unfold Orders.insertOrder. cbn [fst snd].
    split; [|now apply frozen_fresh].
    apply frozen_insert_order; [apply next_rowid_fresh | exact H]. }
  intros oid Hoid.
  eapply sound_bind.
  { apply sound_for_of. intros item.
    eapply sound_bind with (Q := fun _ => True).
    - apply sound_exec. intros d H. split; [|exact Logic.I].
      unfold Orders.insertOrderItem. cbn [snd].
      now apply frozen_insert_item.
    - intros _ _. apply sound_exec. intros d H. split; [|exact Logic.I].
      now apply (frozen_tables d). }
  intros _ _.
  eapply sound_bind with (Q := fun _ => True).
  { apply sound_exec. intros d H. split; [|exact Logic.I].
    now apply (frozen_tables d). }
  intros _ _. now apply sound_ret.
Qed.

Lemma set_status_keeps env s o :
  o_id (Orders.set_status env s o) = o_id o
  /\ money (Orders.set_status env s o) = money o.
Proof. now split. Qed.

Lemma update_order_status_frozen env orderId new_status :
  sound (frozen d0) (Orders.update_order_status_body env orderId new_status)
    (fun _ => True).
Proof.
  unfold Orders.update_order_status_body.
  destruct (negb _); [now apply sound_ret|].
  eapply sound_bind with (Q := fun _ => True).
  { apply sound_exec. intros d H. split; [|exact Logic.I].
    unfold Orders.updateOrder. cbn [snd].
    apply frozen_update_orders; [apply set_status_keeps | exact H]. }
  intros changes _. destruct (changes =? 0)%Z; now apply sound_ret.
Qed.

Lemma process_payment_frozen env userId req :
  sound (frozen d0) (Payments.process_payment_body env userId req)
    (fun _ => True).
Proof.
  unfold Payments.process_payment_body.
  destruct (_ || _); [now apply sound_ret|].
  eapply sound_bind; [apply sound_query|]. intros found _.
  destruct found; [|now apply sound_ret].
  destruct (Payments.paymentSuccess env).
  - eapply sound_bind with (Q := fun _ => True); [|now intros; apply sound_ret].
    apply sound_exec. intros d H. split; [|exact Logic.I].
    unfold Payments.updateOrderCompleted. cbn [snd].
    apply frozen_update_orders; [now split | exact H].
  - eapply sound_bind with (Q := fun _ => True); [|now intros; apply sound_ret].
    apply sound_exec. intros d H. split; [|exact Logic.I].
    unfold Payments.updateOrderFailed. cbn [snd].
    apply frozen_update_orders; [now split | exact H].
Qed.

(** A statement that writes neither [orders] nor [order_items]. *)
Lemma sound_elsewhere {A} (stmt : database -> A * database) :
  (forall d, orders (snd (stmt d)) = orders d
             /\ order_items (snd (stmt d)) = order_items d) ->
  sound (frozen d0) (exec stmt) (fun _ => True).
Proof.
  intros Hs. apply sound_exec. intros d H. split; [|exact Logic.I].
  destruct (Hs d) as [Ho Hi]. now apply (frozen_tables d).
Qed.

Lemma create_product_frozen req :
  sound (frozen d0) (Products.create_product_body req) (fun _ => True).
Proof.
  unfold Products.create_product_body.
  destruct (_ || _); [now apply sound_ret|].
  eapply sound_bind with (Q := fun _ => True).
  { unfold Products.bound_name.
    destruct (Products.name req); [now apply sound_ret | apply sound_throw]. }
  intros product_name _.
  eapply sound_bind with (Q := fun _ => True).
  { unfold Products.bound_price.
    destruct (Products.price req); [now apply sound_ret | apply sound_throw]. }
  intros product_price _.
  eapply sound_bind; [now apply sound_elsewhere|]. intros productId _.
  eapply sound_bind; [|now intros; apply sound_ret].
  apply sound_for_of. intros _. now apply sound_elsewhere.
Qed.

Lemma update_product_frozen productId req :
  sound (frozen d0) (Products.update_product_body productId req)
    (fun _ => True).
Proof.
  unfold Products.update_product_body.
  eapply sound_bind with (Q := fun _ => True).
  { apply sound_constrained. intros d a d' H E. split; [|exact Logic.I].
    apply update_product_tables in E as (_ & Ho & Hi & _).
    now apply (frozen_tables d). }
  intros changes _.
  destruct (changes =? 0)%Z; now apply sound_ret.
Qed.

Lemma delete_product_frozen productId :
  sound (frozen d0) (Products.delete_product_body productId) (fun _ => True).
Proof.
  unfold Products.delete_product_body.
  eapply sound_bind; [now apply sound_elsewhere|]. intros changes _.
  destruct (changes =? 0)%Z; now apply sound_ret.
Qed.

Lemma add_to_cart_frozen env userId req :
  sound (frozen d0) (Cart.add_to_cart_body env userId req) (fun _ => True).
Proof.
  unfold Cart.add_to_cart_body.
  destruct (negb _); [now apply sound_ret|].
  eapply sound_bind; [apply sound_query|]. intros found _.
  destruct found as [product|]; [|now apply sound_ret].
  destruct (_ <? _)%Z; [now apply sound_ret|].
  eapply sound_bind; [apply sound_query|]. intros existingItem _.
  destruct existingItem as [item|].
  - destruct (_ <? _)%Z; [now apply sound_ret|].
    eapply sound_bind; [now apply sound_elsewhere|].
    now intros; apply sound_ret.
  - eapply sound_bind; [now apply sound_elsewhere|].
    now intros; apply sound_ret.
Qed.

Lemma update_cart_item_frozen env userId item_id qty :
  sound (frozen d0) (Cart.update_cart_item_body env userId item_id qty)
    (fun _ => True).
Proof.
  unfold Cart.update_cart_item_body.
  destruct (_ || _); [now apply sound_ret|].
  eapply sound_bind; [apply sound_query|]. intros cartItem _.
  destruct cartItem as [stock|]; [|now apply sound_ret].
  destruct (_ <? _)%Z; [now apply sound_ret|].
  eapply sound_bind; [now apply sound_elsewhere|].
  now intros; apply sound_ret.
Qed.

Lemma remove_from_cart_frozen userId item_id :
  sound (frozen d0) (Cart.remove_from_cart_body userId item_id)
    (fun _ => True).
Proof.
  unfold Cart.remove_from_cart_body.
  eapply sound_bind; [now apply sound_elsewhere|]. intros changes _.
  destruct (changes =? 0)%Z; now apply sound_ret.
Qed.

Lemma clear_cart_frozen userId :
  sound (frozen d0) (Cart.clear_cart_body userId) (fun _ => True).
Proof.
  unfold Cart.clear_cart_body.
  eapply sound_bind; [now apply sound_elsewhere|].
  now intros; apply sound_ret.
Qed.

Lemma perform_frozen op w :
  frozen d0 (db w) -> frozen d0 (db (snd (perform op w))).
Proof.
  destruct op; cbn [perform]; eapply sound_try_catch.
  - apply create_order_frozen.
  - apply update_order_status_frozen.
  - apply process_payment_frozen.
  - apply create_product_frozen.
  - apply update_product_frozen.
  - apply delete_product_frozen.
  - apply add_to_cart_frozen.
  - apply update_cart_item_frozen.
  - apply remove_from_cart_frozen.
  - apply clear_cart_frozen.
Qed.

Lemma serve_frozen ops w :
  frozen d0 (db w) -> frozen d0 (db (serve ops w)).
Proof.
  revert w. induction ops as [|op ops IH]; intros w H; cbn [serve];
    [exact H|].
  apply IH. now apply perform_frozen.
Qed.

End Frozen.

(** C6. Once an order is created, no later request changes its order-item
    rows (product, quantity, unit price, line total) or its monetary totals
    (subtotal, tax, shipping, discount, total): after any sequence of
    requests, whatever the store does, the item rows of the order and its
    totals are those it had; in particular after a product's price or stock
    is updated. *)
Theorem order_snapshot_frozen (ops : list operation) (w : world) (o : order) :
  In o (orders (db w)) ->
  items_of (o_id o) (db (serve ops w)) = items_of (o_id o) (db w)
  /\ totals_of (o_id o) (db (serve ops w)) = totals_of (o_id o) (db w)
  /\ In (money o) (totals_of (o_id o) (db (serve ops w))).
Proof.
  intros Hin.
  assert (Hk : In (o_id o) (map o_id (orders (db w)))) by now apply in_map.
  destruct (serve_frozen (db w) ops w (frozen_refl (db w)) _ Hk)
    as (_ & Hit & Htot).
  split; [exact Hit|]. split; [exact Htot|].
  rewrite Htot. unfold totals_of. apply in_map. apply filter_In.
  split; [exact Hin | apply Z.eqb_refl].
Qed.

Lemma order_snapshot_frozen_witness :
  In Sample.unpaid (orders (db (no_faults Sample.awaiting_payment)))
  /\ map p_price
       (products
          (db (serve [Sample.reprice] (no_faults Sample.awaiting_payment))))
     = [99.00%float]
  /\ items_of (o_id Sample.unpaid)
       (db (serve [Sample.reprice] (no_faults Sample.awaiting_payment)))
     = items_of (o_id Sample.unpaid) (db (no_faults Sample.awaiting_payment))
  /\ totals_of (o_id Sample.unpaid)
       (db (serve [Sample.reprice] (no_faults Sample.awaiting_payment)))
     = totals_of (o_id Sample.unpaid)
         (db (no_faults Sample.awaiting_payment))
  /\ In (money Sample.unpaid)
       (totals_of (o_id Sample.unpaid)
          (db (serve [Sample.reprice] (no_faults Sample.awaiting_payment)))).
Proof.
  split; [now left|]. split; [reflexivity|].
  apply (order_snapshot_frozen [Sample.reprice]
           (no_faults Sample.awaiting_payment) Sample.unpaid).
  now left.
Defined.

(** * Further properties of the handlers *)

(** ** A logic for handlers *)

Section Hoare.

Lemma hoare_ret {A} (P : database -> Prop) (a : A) Q :
  (forall d, P d -> Q (Returned a) d) -> hoare P (ret a) Q.
Proof. intros H w HP. now apply H. Qed.

Lemma hoare_throw {A} (P : database -> Prop)
    (Q : result A -> database -> Prop) :
  (forall d, P d -> Q Thrown d) -> hoare P throw Q.
Proof. intros H w HP. now apply H. Qed.

Lemma hoare_bind {A B} (P : database -> Prop) (m : M A) (k : A -> M B)
    (R : result A -> database -> Prop) (Q : result B -> database -> Prop) :
  hoare P m R ->
  (forall a, hoare (R (Returned a)) (k a) Q) ->
  (forall d, R Thrown d -> Q Thrown d) ->
  hoare P (bind m k) Q.
Proof.
  intros Hm Hk Ht w HP. specialize (Hm w HP). unfold bind.
  destruct (m w) as [[a|] w1]; cbn [fst snd] in *.
  - now apply Hk.
  - now apply Ht.
Qed.

Lemma hoare_exec {A} (P : database -> Prop)
    (stmt : database -> A * database) Q :
  (forall d, P d ->
             Q (Returned (fst (stmt d))) (snd (stmt d)) /\ Q Thrown d) ->
  hoare P (exec stmt) Q.
Proof.
  intros H w HP. destruct (H (db w) HP) as [Hr Ht]. unfold exec.
  destruct (stmt (db w)) as [a d1]. cbn [fst snd] in Hr.
  now destruct (faults w) as [|[|] rest].
Qed.

Lemma hoare_query {A} (P : database -> Prop) (q : database -> A) :
  hoare P (query q)
    (fun r d => P d /\ match r with
                       | Returned a => a = q d
                       | Thrown => True
                       end).
Proof. apply hoare_exec. intros d HP. cbn. auto. Qed.

Lemma hoare_constrained {A} (P : database -> Prop)
    (stmt : database -> option (A * database)) Q :
  (forall d, P d ->
             Q Thrown d
             /\ forall a d', stmt d = Some (a, d') -> Q (Returned a) d') ->
  hoare P (constrained stmt) Q.
Proof.
  intros H w HP. destruct (H (db w) HP) as [Ht Hr]. unfold constrained.
  destruct (stmt (db w)) as [[a d1]|].
  - specialize (Hr a d1 eq_refl). now destruct (faults w) as [|[|] rest].
  - now destruct (faults w) as [|[|] rest].
Qed.

Lemma hoare_conseq {A} (P P' : database -> Prop) (m : M A)
    (Q Q' : result A -> database -> Prop) :
  hoare P m Q ->
  (forall d, P' d -> P d) ->
  (forall r d, Q r d -> Q' r d) ->
  hoare P' m Q'.
Proof. intros Hm HP HQ w H. apply HQ, Hm, HP, H. Qed.

(** A loop whose invariant [J] speaks of the elements still to come; [E]
    holds if a turn throws. *)
Lemma hoare_for_of {A} (J : list A -> database -> Prop)
    (E : database -> Prop) (body : A -> M unit) xs :
  (forall x rest,
      hoare (J (x :: rest)) (body x)
        (fun r d => match r with
                    | Returned _ => J rest d
                    | Thrown => E d
                    end)) ->
  hoare (J xs) (for_of xs body)
    (fun r d => match r with
                | Returned _ => J [] d
                | Thrown => E d
                end).
Proof.
  intros Hb. induction xs as [|x rest IH]; cbn [for_of].
  - now apply hoare_ret.
  - eapply hoare_bind; [apply Hb | intros u; exact IH | auto].
Qed.

(** A loop under a plain invariant. *)
Lemma hoare_for_of_inv {A} (I : database -> Prop) (body : A -> M unit) xs :
  (forall x, hoare I (body x) (fun _ d => I d)) ->
  hoare I (for_of xs body) (fun _ d => I d).
Proof.
  intros Hb. induction xs as [|x rest IH]; cbn [for_of].
  - now apply hoare_ret.
  - eapply hoare_bind; [apply Hb | intros u; exact IH | auto].
Qed.

Lemma hoare_try_catch (P : database -> Prop) (m : M response) Q on_error w :
  hoare P m Q -> P (db w) ->
  (exists r, fst (try_catch m on_error w) = r
             /\ Q (Returned r) (db (snd (try_catch m on_error w))))
  \/ (fst (try_catch m on_error w) = on_error
      /\ Q Thrown (db (snd (try_catch m on_error w)))).
Proof.
  intros Hm HP. specialize (Hm w HP). unfold try_catch.
  destruct (m w) as [[r|] w1]; cbn [fst snd] in *.
  - left. now exists r.
  - right. auto.
Qed.

End Hoare.

(** ** The keys of the schema are kept *)

Lemma distinct_snoc l x :
  distinct l = true -> ~ In x l -> distinct (l ++ [x]) = true.
Proof.
  induction l as [|y l IH]; cbn; [easy|].
  intros H Hx. apply andb_prop in H as [Hy Hl].
  apply andb_true_intro. split; [|apply IH; tauto].
  apply negb_true_iff in Hy. apply negb_true_iff.
  rewrite existsb_app, Hy. cbn.
  destruct (Z.eqb_spec y x); [subst; tauto | reflexivity].
Qed.

Lemma distinct_map_filter {A} (key : A -> Z) (f : A -> bool) l :
  distinct (map key l) = true -> distinct (map key (filter f l)) = true.
Proof.
  induction l as [|x l IH]; cbn; [easy|].
  intros H. apply andb_prop in H as [Hx Hl].
  destruct (f x); cbn; [|auto].
  apply andb_true_intro. split; [|auto].
  apply negb_true_iff in Hx. apply negb_true_iff.
  destruct (existsb (Z.eqb (key x)) (map key (filter f l))) eqn:E; [|easy].
  apply existsb_eqb_In in E. apply in_map_iff in E as (y & Hy & Hin).
  apply filter_In in Hin as [Hin _].
  assert (Hex : existsb (Z.eqb (key x)) (map key l) = true).
  { apply existsb_eqb_In. rewrite <- Hy. now apply in_map. }
  congruence.
Qed.

Lemma primary_key_filter {A} (key : A -> Z) (f : A -> bool) l :
  primary_key key l = true -> primary_key key (filter f l) = true.
Proof. apply distinct_map_filter. Qed.

Lemma primary_key_map {A} (key : A -> Z) (f : A -> A) l :
  (forall x, key (f x) = key x) ->
  primary_key key (map f l) = primary_key key l.
Proof.
  intros Hf. unfold primary_key. rewrite map_map. f_equal.
  apply map_ext, Hf.
Qed.

Lemma primary_key_snoc {A} (key : A -> Z) l x :
  primary_key key l = true -> ~ In (key x) (map key l) ->
  primary_key key (l ++ [x]) = true.
Proof.
  intros H Hx. unfold primary_key. rewrite map_app. now apply distinct_snoc.
Qed.

Lemma primary_key_insert {A} (key : A -> Z) l seq (mk : Z -> A) :
  (forall k, key (mk k) = k) ->
  primary_key key l = true ->
  primary_key key (l ++ [mk (next_rowid seq (map key l))]) = true.
Proof.
  intros Hmk H. apply primary_key_snoc; [exact H|].
  rewrite Hmk. apply next_rowid_fresh.
Qed.

Lemma filter_comm {A} (f g : A -> bool) l :
  filter f (filter g l) = filter g (filter f l).
Proof.
  induction l as [|x l IH]; cbn; [easy|].
  destruct (f x) eqn:F, (g x) eqn:G; cbn; rewrite ?F, ?G, IH; reflexivity.
Qed.

Lemma filter_map_comm {A} (f : A -> bool) (g : A -> A) l :
  (forall x, f (g x) = f x) ->
  filter f (map g l) = map g (filter f l).
Proof.
  intros H. induction l as [|x l IH]; cbn; [easy|].
  rewrite H. destruct (f x); cbn; now rewrite IH.
Qed.

Section Keys.

Lemma keys_products d ps :
  primary_key p_id ps = true -> keys_ok d -> keys_ok (with_products d ps).
Proof. intros H (_ & K). split; [exact H | exact K]. Qed.

Lemma keys_orders d os :
  primary_key o_id os = true -> keys_ok d -> keys_ok (with_orders d os).
Proof. intros H (Kp & Kc & _ & K). repeat split; tauto. Qed.

Lemma keys_cart_filter d (f : cart_item -> bool) :
  keys_ok d -> keys_ok (with_cart_items d (filter f (cart_items d))).
Proof.
  intros (Kp & Kc & Ko & Ki & Ku). repeat split; try assumption.
  - now apply primary_key_filter.
  - intros u. unfold user_lines. cbn [with_cart_items cart_items].
    rewrite filter_comm. apply primary_key_filter, Ku.
Qed.

Lemma keys_cart_map d (f : cart_item -> cart_item) :
  (forall ci, ci_id (f ci) = ci_id ci
              /\ ci_user_id (f ci) = ci_user_id ci
              /\ ci_product_id (f ci) = ci_product_id ci) ->
  keys_ok d -> keys_ok (with_cart_items d (map f (cart_items d))).
Proof.
  intros Hf (Kp & Kc & Ko & Ki & Ku). repeat split; try assumption.
  - cbn [with_cart_items cart_items].
    rewrite primary_key_map; [exact Kc | apply Hf].
  - intros u. unfold user_lines. cbn [with_cart_items cart_items].
    rewrite filter_map_comm.
    + rewrite primary_key_map; [apply Ku | apply Hf].
    + intros ci. now destruct (Hf ci) as (_ & -> & _).
Qed.

Lemma keys_insertOrder env uid num st sub tax ship tot pm sa ba nt d :
  keys_ok d ->
  keys_ok (snd (Orders.insertOrder env uid num st sub tax ship tot pm sa ba
                  nt d)).
Proof.
  intros (Kp & Kc & Ko & Ki & Ku). unfold Orders.insertOrder. cbn [snd].
  repeat split; try assumption. cbn [orders].
  apply primary_key_snoc; [exact Ko | apply next_rowid_fresh].
Qed.

Lemma keys_insertOrderItem env oid pid qty up tp d :
  keys_ok d ->
  keys_ok (snd (Orders.insertOrderItem env oid pid qty up tp d)).
Proof.
  intros (Kp & Kc & Ko & Ki & Ku). unfold Orders.insertOrderItem. cbn [snd].
  repeat split; try assumption. cbn [order_items].
  apply primary_key_snoc; [exact Ki | apply next_rowid_fresh].
Qed.

Lemma keys_updateStock qty pid d :
  keys_ok d -> keys_ok (snd (Orders.updateStock qty pid d)).
Proof.
  intros K. unfold Orders.updateStock. cbn [snd].
  apply keys_products; [|exact K].
  rewrite primary_key_map; [apply K|].
  intros p. now destruct (p_id p =? pid)%Z.
Qed.

Lemma keys_update_orders (g : order -> order) oid d :
  (forall o, o_id (g o) = o_id o) ->
  keys_ok d ->
  keys_ok (with_orders d
             (map (fun o => if (o_id o =? oid)%Z then g o else o) (orders d))).
Proof.
  intros Hg K. apply keys_orders; [|exact K].
  rewrite primary_key_map; [apply K|].
  intros o. destruct (o_id o =? oid)%Z; [apply Hg | reflexivity].
Qed.

Lemma keys_insertProduct nm pr st d :
  keys_ok d -> keys_ok (snd (Products.insertProduct nm pr st d)).
Proof.
  intros (Kp & Kc & Ko & Ki & Ku). unfold Products.insertProduct. cbn [snd].
  repeat split; try assumption. cbn [products].
  apply primary_key_snoc; [exact Kp | apply next_rowid_fresh].
Qed.

Lemma keys_updateProduct nm pr st ac pid d :
  keys_ok d -> keys_ok (snd (Products.updateProduct nm pr st ac pid d)).
Proof.
  intros K. unfold Products.updateProduct. cbn [snd].
  apply keys_products; [|exact K].
  rewrite primary_key_map; [apply K|].
  intros p. now destruct (p_id p =? pid)%Z.
Qed.

Lemma keys_deleteProduct pid d :
  keys_ok d -> keys_ok (snd (Products.deleteProduct pid d)).
Proof.
  intros K. unfold Products.deleteProduct. cbn [snd].
  apply keys_products; [|exact K].
  rewrite primary_key_map; [apply K|].
  intros p. now destruct (p_id p =? pid)%Z.
Qed.

Lemma keys_updateItem env qty item_id d :
  keys_ok d -> keys_ok (snd (Cart.updateItem env qty item_id d)).
Proof.
  intros K. unfold Cart.updateItem. cbn [snd].
  apply keys_cart_map; [|exact K].
  intros ci. now destruct (ci_id ci =? item_id)%Z.
Qed.

Lemma no_existing_item uid pid d :
  Cart.selectExistingItem uid pid d = None ->
  ~ In pid (map ci_product_id (user_lines uid d)).
Proof.
  unfold Cart.selectExistingItem, user_lines. intros Hnone Hin.
  apply in_map_iff in Hin as (ci & Hp & Hci).
  apply filter_In in Hci as [Hci Hu].
  pose proof (find_none _ _ Hnone ci Hci) as Hf. cbn in Hf.
  rewrite Hu, Hp, Z.eqb_refl in Hf. discriminate.
Qed.

Lemma keys_insertItem env uid pid qty d :
  Cart.selectExistingItem uid pid d = None ->
  keys_ok d -> keys_ok (snd (Cart.insertItem env uid pid qty d)).
Proof.
  intros Hnone (Kp & Kc & Ko & Ki & Ku). unfold Cart.insertItem. cbn [snd].
  repeat split; try assumption.
  - cbn [cart_items]. apply primary_key_snoc; [exact Kc|].
    apply next_rowid_fresh.
  - intros u. unfold user_lines. cbn [cart_items]. rewrite filter_app.
    cbn [filter ci_user_id].
    destruct (Z.eqb_spec uid u) as [->|_].
    + apply primary_key_snoc; [apply Ku|]. now apply no_existing_item.
    + rewrite app_nil_r. apply Ku.
Qed.

End Keys.

Section Invariants.

Context (I : database -> Prop).

Lemma inv_ret {A} (a : A) : hoare I (ret a) (fun _ d => I d).
Proof. now apply hoare_ret. Qed.

Lemma inv_throw {A} : hoare I (@throw A) (fun _ d => I d).
Proof. now apply hoare_throw. Qed.

Lemma inv_bind {A B} (m : M A) (k : A -> M B) :
  hoare I m (fun _ d => I d) ->
  (forall a, hoare I (k a) (fun _ d => I d)) ->
  hoare I (bind m k) (fun _ d => I d).
Proof. intros Hm Hk. eapply hoare_bind; [exact Hm | exact Hk | auto]. Qed.

Lemma inv_exec {A} (stmt : database -> A * database) :
  (forall d, I d -> I (snd (stmt d))) ->
  hoare I (exec stmt) (fun _ d => I d).
Proof. intros H. apply hoare_exec. auto. Qed.

Lemma inv_query {A} (q : database -> A) :
  hoare I (query q) (fun _ d => I d).
Proof. now apply inv_exec. Qed.

Lemma inv_constrained {A} (stmt : database -> option (A * database)) :
  (forall d a d', I d -> stmt d = Some (a, d') -> I d') ->
  hoare I (constrained stmt) (fun _ d => I d).
Proof.
  intros H. apply hoare_constrained. intros d HI. split; [exact HI|].
  intros a d'. now apply H.
Qed.

Lemma inv_try_catch (m : M response) on_error w :
  hoare I m (fun _ d => I d) -> I (db w) ->
  I (db (snd (try_catch m on_error w))).
Proof.
  intros Hm HI.
  destruct (hoare_try_catch I m _ on_error w Hm HI) as [(r & _ & H)|[_ H]];
    exact H.
Qed.

End Invariants.

Section KeysKept.

Lemma create_order_keys env userId req :
  hoare keys_ok (Orders.create_order_body env userId req)
    (fun _ d => keys_ok d).
Proof.
  unfold Orders.create_order_body.
  apply inv_bind; [apply inv_query|]. intros rows.
  destruct (List.length rows =? 0)%nat; [apply inv_ret|].
  destruct (find _ rows); [apply inv_ret|].
  apply inv_bind; [apply inv_exec; intros d; apply keys_insertOrder|].
  intros oid.
  apply inv_bind.
  { apply hoare_for_of_inv. intros item. apply inv_bind.
    - apply inv_exec. intros d. apply keys_insertOrderItem.
    - intros _. apply inv_exec. intros d. apply keys_updateStock. }
  intros _.
  apply inv_bind; [|intros _; apply inv_ret].
  apply inv_exec. intros d. apply keys_cart_filter.
Qed.

Lemma update_order_status_keys env orderId new_status :
  hoare keys_ok (Orders.update_order_status_body env orderId new_status)
    (fun _ d => keys_ok d).
Proof.
  unfold Orders.update_order_status_body.
  destruct (negb _); [apply inv_ret|].
  apply inv_bind.
  - apply inv_exec. intros d. unfold Orders.updateOrder. cbn [snd].
    now apply keys_update_orders.
  - intros changes. destruct (changes =? 0)%Z; apply inv_ret.
Qed.

Lemma process_payment_keys env userId req :
  hoare keys_ok (Payments.process_payment_body env userId req)
    (fun _ d => keys_ok d).
Proof.
  unfold Payments.process_payment_body.
  destruct (_ || _); [apply inv_ret|].
  apply inv_bind; [apply inv_query|]. intros found.
  destruct found; [|apply inv_ret].
  destruct (Payments.paymentSuccess env).
  - apply inv_bind; [|intros _; apply inv_ret].
    apply inv_exec. intros d. unfold Payments.updateOrderCompleted.
    cbn [snd]. now apply keys_update_orders.
  - apply inv_bind; [|intros _; apply inv_ret].
    apply inv_exec. intros d. unfold Payments.updateOrderFailed.
    cbn [snd]. now apply keys_update_orders.
Qed.

Lemma create_product_keys req :
  hoare keys_ok (Products.create_product_body req) (fun _ d => keys_ok d).
Proof.
  unfold Products.create_product_body.
  destruct (_ || _); [apply inv_ret|].
  apply inv_bind.
  { unfold Products.bound_name.
    destruct (Products.name req); [apply inv_ret | apply inv_throw]. }
  intros product_name. apply inv_bind.
  { unfold Products.bound_price.
    destruct (Products.price req); [apply inv_ret | apply inv_throw]. }
  intros product_price.
  apply inv_bind; [apply inv_exec; intros d; apply keys_insertProduct|].
  intros productId. apply inv_bind; [|intros _; apply inv_ret].
  apply hoare_for_of_inv. intros _. now apply inv_exec.
Qed.

Lemma update_product_keys productId req :
  hoare keys_ok (Products.update_product_body productId req)
    (fun _ d => keys_ok d).
Proof.
  unfold Products.update_product_body.
  apply inv_bind.
  { apply inv_constrained. intros d a d' K E.
    unfold Products.updateProduct_bound in E.
    destruct (Products.name req) as [nm|], (Products.price req) as [pr|];
      try (destruct (existsb _ _); [discriminate|];
           injection E as _ <-; exact K).
    injection E as _ <-. now apply keys_updateProduct. }
  intros changes. destruct (changes =? 0)%Z; apply inv_ret.
Qed.

Lemma delete_product_keys productId :
  hoare keys_ok (Products.delete_product_body productId)
    (fun _ d => keys_ok d).
Proof.
  unfold Products.delete_product_body.
  apply inv_bind; [apply inv_exec; intros d; apply keys_deleteProduct|].
  intros changes. destruct (changes =? 0)%Z; apply inv_ret.
Qed.

Lemma add_to_cart_keys env userId req :
  hoare keys_ok (Cart.add_to_cart_body env userId req)
    (fun _ d => keys_ok d).
Proof.
  unfold Cart.add_to_cart_body.
  destruct (negb _); [apply inv_ret|].
  apply inv_bind; [apply inv_query|]. intros found.
  destruct found as [product|]; [|apply inv_ret].
  destruct (_ <? _)%Z; [apply inv_ret|].
  eapply hoare_bind; [apply hoare_query | | cbn; tauto].
  intros existingItem. destruct existingItem as [item|].
  - destruct (_ <? _)%Z; [apply hoare_ret; cbn; tauto|].
    eapply hoare_bind with (R := fun _ d => keys_ok d).
    + apply hoare_exec. intros d [K _]. split; [|exact K].
      now apply keys_updateItem.
    + intros _. apply inv_ret.
    + auto.
  - eapply hoare_bind with (R := fun _ d => keys_ok d).
    + apply hoare_exec. intros d [K E]. split; [|exact K].
      apply keys_insertItem; [now symmetry | exact K].
    + intros _. apply inv_ret.
    + auto.
Qed.

Lemma update_cart_item_keys env userId item_id qty :
  hoare keys_ok (Cart.update_cart_item_body env userId item_id qty)
    (fun _ d => keys_ok d).
Proof.
  unfold Cart.update_cart_item_body.
  destruct (_ || _); [apply inv_ret|].
  apply inv_bind; [apply inv_query|]. intros cartItem.
  destruct cartItem as [stock|]; [|apply inv_ret].
  destruct (_ <? _)%Z; [apply inv_ret|].
  apply inv_bind; [|intros _; apply inv_ret].
  apply inv_exec. intros d. apply keys_updateItem.
Qed.

Lemma remove_from_cart_keys userId item_id :
  hoare keys_ok (Cart.remove_from_cart_body userId item_id)
    (fun _ d => keys_ok d).
Proof.
  unfold Cart.remove_from_cart_body.
  apply inv_bind.
  - apply inv_exec. intros d. unfold Cart.deleteItem. cbn [snd].
    apply keys_cart_filter.
  - intros changes. destruct (changes =? 0)%Z; apply inv_ret.
Qed.

Lemma clear_cart_keys userId :
  hoare keys_ok (Cart.clear_cart_body userId) (fun _ d => keys_ok d).
Proof.
  unfold Cart.clear_cart_body.
  apply inv_bind; [|intros _; apply inv_ret].
  apply inv_exec. intros d. apply keys_cart_filter.
Qed.

Lemma perform_keys op w :
  keys_ok (db w) -> keys_ok (db (snd (perform op w))).
Proof.
  destruct op; cbn [perform]; apply inv_try_catch.
  - apply create_order_keys.
  - apply update_order_status_keys.
  - apply process_payment_keys.
  - apply create_product_keys.
  - apply update_product_keys.
  - apply delete_product_keys.
  - apply add_to_cart_keys.
  - apply update_cart_item_keys.
  - apply remove_from_cart_keys.
  - apply clear_cart_keys.
Qed.

End KeysKept.

(** X1. The keys the schema declares are invariants of the handlers: if the
    ids of products, cart items, orders and order items are distinct and no
    user has two cart lines for one product, this still holds after any
    sequence of requests, whatever the store does.  (The insert of a cart
    line is only reached when no line for that user and product exists.) *)
Theorem keys_kept (ops : list operation) (w : world) :
  keys_ok (db w) -> keys_ok (db (serve ops w)).
Proof.
  revert w. induction ops as [|op ops IH]; intros w K; cbn [serve];
    [exact K|].
  apply IH. now apply perform_keys.
Qed.

(** ** Order creation never oversells *)

Lemma primary_key_inj {A} (key : A -> Z) l x y :
  primary_key key l = true -> In x l -> In y l -> key x = key y -> x = y.
Proof.
  unfold primary_key. induction l as [|z l IH]; cbn; [easy|].
  intros H Hx Hy E. apply andb_prop in H as [Hz Hl].
  apply negb_true_iff in Hz.
  assert (Hout : forall u, In u l -> key z <> key u).
  { intros u Hu Ek.
    assert (Hex : existsb (Z.eqb (key z)) (map key l) = true).
    { apply existsb_eqb_In. rewrite Ek. now apply in_map. }
    congruence. }
  destruct Hx as [->|Hx], Hy as [->|Hy]; auto.
  - now apply Hout in Hy.
  - apply Hout in Hx. congruence.
Qed.

Lemma filter_nil_existsb {A} (f : A -> bool) l :
  filter f l = [] -> existsb f l = false.
Proof.
  induction l as [|x l IH]; cbn; [easy|].
  destruct (f x); [discriminate | exact IH].
Qed.

Lemma select_products userId d :
  primary_key p_id (products d) = true ->
  map Orders.product_id (Orders.selectCartItems userId d)
  = map ci_product_id (filter (line_active d) (user_lines userId d)).
Proof.
  intros PK. unfold Orders.selectCartItems, user_lines.
  induction (cart_items d) as [|ci cs IH]; cbn [flat_map filter map]; [easy|].
  destruct (ci_user_id ci =? userId)%Z; cbn [filter]; [|exact IH].
  rewrite map_app, IH. clear IH.
  assert (HL : line_active d ci
               = existsb (fun p => (p_id p =? ci_product_id ci)%Z
                                   && (p_is_active p =? 1)%Z) (products d))
    by reflexivity.
  rewrite HL. clear HL.
  destruct (filter (fun p => (p_id p =? ci_product_id ci)%Z
                             && (p_is_active p =? 1)%Z) (products d))
    as [|p ps] eqn:F.
  - rewrite (filter_nil_existsb _ _ F). reflexivity.
  - assert (Hex : existsb
                    (fun p => (p_id p =? ci_product_id ci)%Z
                              && (p_is_active p =? 1)%Z) (products d) = true).
    { apply existsb_exists. exists p.
      apply (proj1 (filter_In
                      (fun p => (p_id p =? ci_product_id ci)%Z
                                && (p_is_active p =? 1)%Z) p (products d))).
      rewrite F. now left. }
    rewrite Hex.
    rewrite (filter_key p_id (fun p => (p_is_active p =? 1)%Z) _ _ PK) in F.
    destruct (find _ (products d)) as [p0|]; [|discriminate].
    destruct (p_is_active p0 =? 1)%Z; [|discriminate].
    inversion F; subst. reflexivity.
Qed.

Lemma checked_rows_covered userId d :
  keys_ok d -> stock_ok d ->
  find (fun item => (Orders.stock_quantity item <? Orders.quantity item)%Z)
    (Orders.selectCartItems userId d) = None ->
  covered (Orders.selectCartItems userId d) d.
Proof.
  intros (Kp & _ & _ & _ & Ku) Hs Hfind. split; [exact Hs|]. split.
  - unfold primary_key. rewrite (select_products _ _ Kp).
    apply distinct_map_filter, Ku.
  - intros item p Hitem Hp Hid.
    pose proof (find_none _ _ Hfind item Hitem) as Hq. cbn in Hq.
    apply Z.ltb_ge in Hq.
    apply in_selectCartItems in Hitem as (ci & p0 & _ & Hp0 & Hi0 & _ & ->).
    cbn in Hid, Hq |- *.
    assert (p = p0) by (apply (primary_key_inj p_id (products d)); congruence).
    now subst.
Qed.

Lemma covered_step qty pid item rest d :
  qty = Orders.quantity item -> pid = Orders.product_id item ->
  covered (item :: rest) d ->
  covered rest (snd (Orders.updateStock qty pid d)).
Proof.
  intros -> -> (Hs & Hk & Hc). unfold Orders.updateStock. cbn [snd].
  unfold primary_key in Hk. cbn in Hk. apply andb_prop in Hk as [Hfresh Hk].
  apply negb_true_iff in Hfresh.
  assert (Hother : forall it, In it rest ->
                     Orders.product_id it <> Orders.product_id item).
  { intros it Hit E.
    assert (Hex : existsb (Z.eqb (Orders.product_id item))
                    (map Orders.product_id rest) = true).
    { apply existsb_eqb_In. rewrite <- E. now apply in_map. }
    congruence. }
  split; [|split; [exact Hk|]].
  - intros p' Hp'. cbn in Hp'. apply in_map_iff in Hp' as (p & <- & Hp).
    destruct (Z.eqb_spec (p_id p) (Orders.product_id item)) as [E|_].
    + cbn. specialize (Hc item p (or_introl eq_refl) Hp E). lia.
    + now apply Hs.
  - intros it p' Hit Hp' Hid. cbn in Hp'.
    apply in_map_iff in Hp' as (p & <- & Hp).
    destruct (Z.eqb_spec (p_id p) (Orders.product_id item)) as [E|_].
    + cbn in Hid. apply Hother in Hit. congruence.
    + apply (Hc it p); auto. now right.
Qed.

Lemma create_order_body_stock env userId req :
  hoare (fun d => keys_ok d /\ stock_ok d)
    (Orders.create_order_body env userId req) (fun _ d => stock_ok d).
Proof.
  unfold Orders.create_order_body.
  eapply hoare_bind; [apply hoare_query | | cbn; tauto].
  intros rows.
  destruct (List.length rows =? 0)%nat; [apply hoare_ret; cbn; tauto|].
  destruct (find _ rows) as [bad|] eqn:Hfind; [apply hoare_ret; cbn; tauto|].
  eapply hoare_bind with (R := fun _ d => covered rows d).
  - apply hoare_exec. intros d [[K Hs] ->].
    assert (Hc : covered (Orders.selectCartItems userId d) d)
      by now apply checked_rows_covered.
    split; exact Hc.
  - intros oid.
    eapply hoare_bind
      with (R := fun _ d => stock_ok d).
    + eapply hoare_conseq.
      * apply (hoare_for_of covered stock_ok). intros item rest.
        eapply hoare_bind with (R := fun _ d => covered (item :: rest) d).
        -- apply hoare_exec. intros d Hc. split; exact Hc.
        -- intros _. apply hoare_exec. intros d Hc. split.
           ++ now apply (covered_step _ _ item rest d).
           ++ apply Hc.
        -- intros d Hc. apply Hc.
      * auto.
      * intros [u|] d H; [apply H | exact H].
    + intros _.
      eapply hoare_bind with (R := fun _ d => stock_ok d).
      * apply hoare_exec. intros d Hs. split; exact Hs.
      * intros _. now apply hoare_ret.
      * auto.
    + auto.
  - intros d Hc. apply Hc.
Qed.

(** X2. Order creation never drives a stock below zero: from a database that
    satisfies the keys of the schema and in which no stock is negative, it
    leaves, whatever the store does and whether it succeeds, fails or stops
    half way, a database in which no stock is negative. *)
Theorem create_order_never_oversells env userId req (w : world) :
  keys_ok (db w) -> stock_ok (db w) ->
  stock_ok (db (snd (Orders.create_order env userId req w))).
Proof.
  intros K Hs. unfold Orders.create_order.
  destruct (hoare_try_catch _ _ _ (json 500 (Error "Failed to create order"))
              w (create_order_body_stock env userId req) (conj K Hs))
    as [(r & _ & H)|[_ H]]; exact H.
Qed.

(** ** Requests with one write are atomic *)

Lemma with_products_same d : with_products d (products d) = d.
Proof. now destruct d. Qed.

Lemma with_cart_items_same d : with_cart_items d (cart_items d) = d.
Proof. now destruct d. Qed.

Lemma with_orders_same d : with_orders d (orders d) = d.
Proof. now destruct d. Qed.

Lemma no_match {A} (f : A -> bool) l :
  Z.of_nat (List.length (filter f l)) = 0 ->
  forall x, In x l -> f x = false.
Proof.
  intros H x Hin. destruct (f x) eqn:E; [|easy].
  exfalso. revert H. now apply (filter_length_pos f l x).
Qed.

Lemma map_no_match {A} (f : A -> bool) (g : A -> A) l :
  (forall x, In x l -> f x = false) ->
  map (fun x => if f x then g x else x) l = l.
Proof.
  induction l as [|x l IH]; cbn; [easy|].
  intros H. rewrite (H x (or_introl eq_refl)). f_equal. apply IH.
  intros y Hy. apply H. now right.
Qed.

Lemma filter_no_match {A} (f : A -> bool) l :
  (forall x, In x l -> f x = false) ->
  filter (fun x => negb (f x)) l = l.
Proof.
  induction l as [|x l IH]; cbn; [easy|].
  intros H. rewrite (H x (or_introl eq_refl)). cbn. f_equal. apply IH.
  intros y Hy. apply H. now right.
Qed.

Section Atomic.

Variable d0 : database.

Lemma atomic_error (code : Z) (e : string) :
  hoare (eq d0) (ret (json code (Error e))) (unchanged_on_error d0).
Proof. apply hoare_ret. intros d <- _ _. reflexivity. Qed.

Lemma atomic_message (P : database -> Prop) (code : Z) (m : string) :
  code < 400 ->
  hoare P (ret (json code (Message m))) (unchanged_on_error d0).
Proof. intros Hc. apply hoare_ret. intros d _ H. cbn in H. lia. Qed.

(** The last statement of a handler that answers 404 when nothing changed. *)
Lemma atomic_changes (stmt : database -> option (Z * database))
    (e m : string) :
  (forall d d', stmt d = Some (0, d') -> d' = d) ->
  hoare (eq d0)
    (bind (constrained stmt)
       (fun changes => if (changes =? 0)%Z
                       then ret (json 404 (Error e))
                       else ret (json 200 (Message m))))
    (unchanged_on_error d0).
Proof.
  intros Hs.
  eapply hoare_bind
    with (R := fun r d => match r with
                          | Returned changes => changes = 0 -> d = d0
                          | Thrown => d = d0
                          end).
  - apply hoare_constrained. intros d <-. split; [reflexivity|].
    intros changes d' E ->. now apply Hs.
  - intros changes. destruct (Z.eqb_spec changes 0) as [E|_].
    + apply hoare_ret. intros d H _ _. now apply H.
    + apply atomic_message. lia.
  - auto.
Qed.

Lemma atomic_changes_exec (stmt : database -> Z * database) (e m : string) :
  (forall d, fst (stmt d) = 0 -> snd (stmt d) = d) ->
  hoare (eq d0)
    (bind (exec stmt)
       (fun changes => if (changes =? 0)%Z
                       then ret (json 404 (Error e))
                       else ret (json 200 (Message m))))
    (unchanged_on_error d0).
Proof.
  intros Hs.
  eapply hoare_bind
    with (R := fun r d => match r with
                          | Returned changes => changes = 0 -> d = d0
                          | Thrown => d = d0
                          end).
  - apply hoare_exec. intros d <-. split; [apply Hs | reflexivity].
  - intros changes. destruct (Z.eqb_spec changes 0) as [E|_].
    + apply hoare_ret. intros d H _ _. now apply H.
    + apply atomic_message. lia.
  - auto.
Qed.

(** The last statement of a handler that then answers 200 with a message. *)
Lemma atomic_write (stmt : database -> unit * database) (m : string) :
  hoare (eq d0)
    (bind (exec stmt) (fun _ => ret (json 200 (Message m))))
    (unchanged_on_error d0).
Proof.
  eapply hoare_bind
    with (R := fun r d => match r with
                          | Returned _ => True
                          | Thrown => d = d0
                          end).
  - apply hoare_exec. intros d <-. auto.
  - intros _. apply atomic_message. lia.
  - auto.
Qed.

Lemma atomic_query {A} (q : database -> A) (k : A -> M response) :
  (forall a, hoare (eq d0) (k a) (unchanged_on_error d0)) ->
  hoare (eq d0) (bind (query q) k) (unchanged_on_error d0).
Proof.
  intros Hk.
  eapply hoare_bind; [apply hoare_query | | now intros d [<- _]].
  intros a. eapply hoare_conseq; [apply Hk | cbn; tauto | auto].
Qed.

Lemma update_order_status_atomic env orderId new_status :
  hoare (eq d0) (Orders.update_order_status_body env orderId new_status)
    (unchanged_on_error d0).
Proof.
  unfold Orders.update_order_status_body.
  destruct (negb _); [apply atomic_error|].
  apply atomic_changes_exec. intros d H. unfold Orders.updateOrder in *.
  cbn [fst snd] in *.
  rewrite (map_no_match _ _ _ (no_match _ _ H)). apply with_orders_same.
Qed.

Lemma process_payment_atomic env userId req :
  hoare (eq d0) (Payments.process_payment_body env userId req)
    (unchanged_on_error d0).
Proof.
  unfold Payments.process_payment_body.
  destruct (_ || _); [apply atomic_error|].
  apply atomic_query. intros found.
  destruct found; [|apply atomic_error].
  destruct (Payments.paymentSuccess env).
  - eapply hoare_bind
      with (R := fun r d => match r with
                            | Returned _ => True
                            | Thrown => d = d0
                            end).
    + apply hoare_exec. intros d <-. auto.
    + intros _. apply hoare_ret. intros d _ H. cbn in H. lia.
    + auto.
  - eapply hoare_bind
      with (R := fun r d => match r with
                            | Returned _ => True
                            | Thrown => d = d0
                            end).
    + apply hoare_exec. intros d <-. auto.
    + intros _. apply hoare_ret. intros d _ _ H. exfalso. apply H.
      now eexists.
    + auto.
Qed.

Lemma create_product_atomic req :
  Products.images req = [] ->
  hoare (eq d0) (Products.create_product_body req) (unchanged_on_error d0).
Proof.
  intros Himg. unfold Products.create_product_body. rewrite Himg.
  destruct (_ || _); [apply atomic_error|].
  eapply hoare_bind with (R := fun _ d => d = d0).
  { unfold Products.bound_name.
    destruct (Products.name req); [now apply hoare_ret | now apply hoare_throw]. }
  2: auto.
  intros product_name.
  eapply hoare_bind with (R := fun _ d => d = d0).
  { unfold Products.bound_price.
    destruct (Products.price req);
      [now apply hoare_ret | now apply hoare_throw]. }
  2: auto.
  intros product_price.
  eapply hoare_bind
    with (R := fun r d => match r with
                          | Returned _ => True
                          | Thrown => d = d0
                          end).
  - apply hoare_exec. intros d <-. auto.
  - intros productId. cbn [for_of].
    eapply hoare_bind
      with (R := fun r _ => match r with
                            | Returned _ => True
                            | Thrown => False
                            end).
    + now apply hoare_ret.
    + intros _. apply hoare_ret. intros d _ H. cbn in H. lia.
    + intros d [].
  - auto.
Qed.

Lemma update_product_atomic productId req :
  hoare (eq d0) (Products.update_product_body productId req)
    (unchanged_on_error d0).
Proof.
  unfold Products.update_product_body.
  apply atomic_changes. intros d d' E.
  unfold Products.updateProduct_bound in E.
  destruct (Products.name req) as [nm|], (Products.price req) as [pr|];
    try (destruct (existsb _ _); [discriminate|];
         now injection E as <-).
  unfold Products.updateProduct in E. injection E as H <-.
  rewrite (map_no_match _ _ _ (no_match _ _ H)). apply with_products_same.
Qed.

Lemma delete_product_atomic productId :
  hoare (eq d0) (Products.delete_product_body productId)
    (unchanged_on_error d0).
Proof.
  unfold Products.delete_product_body.
  apply atomic_changes_exec. intros d H. unfold Products.deleteProduct in *.
  cbn [fst snd] in *.
  rewrite (map_no_match _ _ _ (no_match _ _ H)). apply with_products_same.
Qed.

Lemma add_to_cart_atomic env userId req :
  hoare (eq d0) (Cart.add_to_cart_body env userId req)
    (unchanged_on_error d0).
Proof.
  unfold Cart.add_to_cart_body.
  destruct (negb _); [apply atomic_error|].
  apply atomic_query. intros found.
  destruct found as [product|]; [|apply atomic_error].
  destruct (_ <? _)%Z; [apply atomic_error|].
  apply atomic_query. intros existingItem.
  destruct existingItem as [item|].
  - destruct (_ <? _)%Z; [apply atomic_error | apply atomic_write].
  - apply atomic_write.
Qed.

Lemma update_cart_item_atomic env userId item_id qty :
  hoare (eq d0) (Cart.update_cart_item_body env userId item_id qty)
    (unchanged_on_error d0).
Proof.
  unfold Cart.update_cart_item_body.
  destruct (_ || _); [apply atomic_error|].
  apply atomic_query. intros cartItem.
  destruct cartItem as [stock|]; [|apply atomic_error].
  destruct (_ <? _)%Z; [apply atomic_error | apply atomic_write].
Qed.

Lemma remove_from_cart_atomic userId item_id :
  hoare (eq d0) (Cart.remove_from_cart_body userId item_id)
    (unchanged_on_error d0).
Proof.
  unfold Cart.remove_from_cart_body.
  apply atomic_changes_exec. intros d H. unfold Cart.deleteItem in *.
  cbn [fst snd] in *.
  rewrite (filter_no_match _ _ (no_match _ _ H)).
  apply with_cart_items_same.
Qed.

Lemma clear_cart_atomic userId :
  hoare (eq d0) (Cart.clear_cart_body userId) (unchanged_on_error d0).
Proof. unfold Cart.clear_cart_body. apply atomic_write. Qed.

End Atomic.

Lemma atomic_try_catch (m : M response) (code : Z) (e : string) w :
  hoare (eq (db w)) m (unchanged_on_error (db w)) ->
  400 <= status (fst (try_catch m (json code (Error e)) w)) ->
  ~ declined (fst (try_catch m (json code (Error e)) w)) ->
  db (snd (try_catch m (json code (Error e)) w)) = db w.
Proof.
  intros Hm.
  destruct (hoare_try_catch _ _ _ (json code (Error e)) w Hm eq_refl)
    as [(r & Hr & H)|[_ H]].
  - rewrite Hr. exact H.
  - intros _ _. exact H.
Qed.

(** X3. A failed request has written nothing, a declined payment apart.
    For every request but order creation and the creation of a product with
    images, an answer with a status of 400 or above (400, 404, or 500 when
    a statement throws) leaves the database exactly as it was, unless it is
    the answer of a declined payment, which comes after the payment status
    'failed' has been written. *)
Theorem error_leaves_database (op : operation) (w : world) :
  single_write op ->
  400 <= status (fst (perform op w)) ->
  ~ declined (fst (perform op w)) ->
  db (snd (perform op w)) = db w.
Proof.
  destruct op; cbn [single_write perform]; intros Hop;
    try contradiction; apply atomic_try_catch.
  - apply update_order_status_atomic.
  - apply process_payment_atomic.
  - now apply create_product_atomic.
  - apply update_product_atomic.
  - apply delete_product_atomic.
  - apply add_to_cart_atomic.
  - apply update_cart_item_atomic.
  - apply remove_from_cart_atomic.
  - apply clear_cart_atomic.
Qed.

(** ** Payment confirmation, once more *)

Lemma process_payment_settled env userId req w oid :
  Payments.orderId req = Some oid ->
  Payments.selectPendingOrder oid userId (db w) = None ->
  is_error (fst (Payments.process_payment env userId req w))
  /\ db (snd (Payments.process_payment env userId req w)) = db w.
Proof.
  intros Hid Hnone.
  destruct (Payments.process_payment env userId req w) as [resp w'] eqn:Run.
  cbn [fst snd]. revert Run.
  unfold Payments.process_payment, try_catch, Payments.process_payment_body.
  destruct (negb (JS.truthy_int (Payments.orderId req))
            || negb (JS.truthy_string (Payments.paymentMethod req))) eqn:G.
  { cbn [ret]. intros Run. inversion Run; subst.
    split; [now eexists | reflexivity]. }
  apply orb_false_elim in G as [Gid _]. apply negb_false_iff in Gid.
  rewrite Hid in Gid |- *. cbn in Gid. apply negb_true_iff in Gid.
  cbn [JS.int_or]. rewrite Gid. unfold bind at 1.
  destruct (query _ w) as [[found|] w1] eqn:Q.
  - pose proof (query_db _ _ _ _ Q) as D1.
    apply query_returned in Q. subst found. rewrite Hnone. cbn [ret].
    intros Run. inversion Run; subst. split; [now eexists | exact D1].
  - apply query_db in Q. intros Run. inversion Run; subst.
    split; [now eexists | exact Q].
Qed.

Section PaymentFinal.

Variables (env : environment) (userId : Z) (req : Payments.request).

(** X5. Payment confirmation writes to nothing but the order it names:
    whatever its outcome and whatever the store does, products (so the stock
    that order creation took, also after a decline), cart lines, order items
    and every order with another id are as before. *)
Theorem payment_touches_one_order (w : world) :
  products (db (snd (Payments.process_payment env userId req w)))
  = products (db w)
  /\ cart_items (db (snd (Payments.process_payment env userId req w)))
     = cart_items (db w)
  /\ order_items (db (snd (Payments.process_payment env userId req w)))
     = order_items (db w)
  /\ forall o, In o (orders (db w)) ->
               Payments.orderId req <> Some (o_id o) ->
               In o (orders
                       (db (snd (Payments.process_payment env userId req
                                   w)))).
Proof.
  set (frame := fun d =>
         products d = products (db w)
         /\ cart_items d = cart_items (db w)
         /\ order_items d = order_items (db w)
         /\ forall o, In o (orders (db w)) ->
                      Payments.orderId req <> Some (o_id o) ->
                      In o (orders d)).
  assert (Hupd : forall (g : order -> order) d,
             frame d ->
             JS.truthy_int (Payments.orderId req) = true ->
             frame (with_orders d
                      (map (fun o => if (o_id o
                                         =? JS.int_or (Payments.orderId req) 0)%Z
                                     then g o else o) (orders d)))).
  { intros g d (Fp & Fc & Fi & Fo) Ht. repeat split; try assumption.
    intros o Ho Hne. cbn [with_orders orders]. apply in_map_iff.
    exists o. split; [|now apply Fo].
    destruct (Payments.orderId req) as [z|]; [|discriminate].
    cbn in Ht |- *. apply negb_true_iff in Ht. rewrite Ht.
    destruct (Z.eqb_spec (o_id o) z); [subst; congruence | reflexivity]. }
  assert (H : hoare frame (Payments.process_payment_body env userId req)
                (fun _ d => frame d)).
  { unfold Payments.process_payment_body.
    destruct (negb (JS.truthy_int (Payments.orderId req))) eqn:G;
      [apply inv_ret|].
    apply negb_false_iff in G.
    destruct (negb (JS.truthy_string (Payments.paymentMethod req)));
      [apply inv_ret|]. cbn [orb].
    apply inv_bind; [apply inv_query|]. intros found.
    destruct found; [|apply inv_ret].
    destruct (Payments.paymentSuccess env);
      (apply inv_bind; [|intros _; apply inv_ret]);
      apply inv_exec; intros d Hd; now apply Hupd. }
  apply (inv_try_catch frame _ _ w H). repeat split; auto.
Qed.

End PaymentFinal.

(** ** The cart *)

Lemma find_map_same {A} (f : A -> bool) (g : A -> A) l :
  (forall x, f (g x) = f x) ->
  find f (map g l) = option_map g (find f l).
Proof.
  intros H. induction l as [|x l IH]; cbn; [easy|].
  rewrite H. now destruct (f x).
Qed.

Lemma find_snoc {A} (f : A -> bool) l x :
  find f (l ++ [x])
  = match find f l with
    | Some y => Some y
    | None => if f x then Some x else None
    end.
Proof.
  induction l as [|y l IH]; cbn; [easy|]. now destruct (f y).
Qed.

Lemma quantity_after_update env userId pid item q u pid' d :
  primary_key ci_id (cart_items d) = true ->
  Cart.selectExistingItem userId pid d = Some item ->
  quantity_in_cart u pid' (snd (Cart.updateItem env q (ci_id item) d))
  = if (u =? userId)%Z && (pid' =? pid)%Z then Some q
    else quantity_in_cart u pid' d.
Proof.
  intros PK Hitem. unfold quantity_in_cart, Cart.selectExistingItem in *.
  unfold Cart.updateItem. cbn [snd with_cart_items cart_items].
  destruct (find_some _ _ Hitem) as [Hin Hm].
  apply andb_prop in Hm as [Hu Hp]. apply Z.eqb_eq in Hu, Hp.
  rewrite find_map_same.
  2:{ intros ci. now destruct (ci_id ci =? ci_id item)%Z. }
  assert (Hother :
            (u <> userId \/ pid' <> pid) ->
            forall r,
              find (fun ci => (ci_user_id ci =? u)%Z
                              && (ci_product_id ci =? pid')%Z) (cart_items d)
              = r ->
              option_map ci_quantity
                (option_map
                   (fun ci => if (ci_id ci =? ci_id item)%Z
                              then Cart.set_quantity env q ci else ci) r)
              = option_map ci_quantity r).
  { intros Hne [ci|] F; [|reflexivity].
    destruct (find_some _ _ F) as [Hci Hc]. cbn.
    destruct (Z.eqb_spec (ci_id ci) (ci_id item)) as [E|_]; [|reflexivity].
    apply (primary_key_inj ci_id _ _ _ PK Hci Hin) in E. subst ci.
    apply andb_prop in Hc as [Hc1 Hc2]. apply Z.eqb_eq in Hc1, Hc2.
    destruct Hne; congruence. }
  destruct (Z.eqb_spec u userId) as [->|Hne];
    [destruct (Z.eqb_spec pid' pid) as [->|Hne]|]; cbn [andb].
  - rewrite Hitem. cbn. now rewrite Z.eqb_refl.
  - apply Hother; auto.
  - apply Hother; auto.
Qed.

Lemma quantity_after_insert env userId pid q u pid' d :
  Cart.selectExistingItem userId pid d = None ->
  quantity_in_cart u pid' (snd (Cart.insertItem env userId pid q d))
  = if (u =? userId)%Z && (pid' =? pid)%Z then Some q
    else quantity_in_cart u pid' d.
Proof.
  intros Hnone. unfold quantity_in_cart, Cart.selectExistingItem in *.
  unfold Cart.insertItem. cbn [snd cart_items]. rewrite find_snoc.
  cbn [ci_user_id ci_product_id].
  rewrite (Z.eqb_sym userId u), (Z.eqb_sym pid pid').
  destruct (Z.eqb_spec u userId) as [->|Hne];
    [destruct (Z.eqb_spec pid' pid) as [->|Hne]|]; cbn [andb].
  - now rewrite Hnone.
  - match goal with
    | |- context [match ?x with Some _ => _ | None => _ end] => now destruct x
    end.
  - match goal with
    | |- context [match ?x with Some _ => _ | None => _ end] => now destruct x
    end.
Qed.

Section AddToCart.

Variables (env : environment) (userId : Z) (req : Cart.request).

(** X6. Adding to the cart is checked against the stock and against nothing
    else.  Whenever POST /add answers 200, the product is active, the
    quantity the user now holds of it is the quantity held before (0 if
    none) plus the requested one (1 if left out), and this sum is within the
    product's stock; every other cart line, and every product, order and
    order item, is as before.  The requested quantity itself has no lower
    bound: zero or a negative number passes. *)
Theorem add_to_cart_effect (w w' : world) (resp : response) :
  primary_key ci_id (cart_items (db w)) = true ->
  Cart.add_to_cart env userId req w = (resp, w') ->
  status resp = 200 ->
  exists pid p,
    Cart.productId req = Some pid
    /\ Cart.selectActiveProduct pid (db w) = Some p
    /\ p_is_active p = 1
    /\ (exists held,
           held = match quantity_in_cart userId pid (db w) with
                  | Some q => q
                  | None => 0
                  end
                  + match Cart.quantity req with Some q => q | None => 1 end
           /\ held <= p_stock_quantity p
           /\ forall u pid',
               quantity_in_cart u pid' (db w')
               = if (u =? userId)%Z && (pid' =? pid)%Z then Some held
                 else quantity_in_cart u pid' (db w))
    /\ products (db w') = products (db w)
    /\ orders (db w') = orders (db w)
    /\ order_items (db w') = order_items (db w).
Proof.
  intros PK.
  unfold Cart.add_to_cart, try_catch, Cart.add_to_cart_body.
  destruct (negb (JS.truthy_int (Cart.productId req))) eqn:G.
  { cbn. intros H; inversion H; subst; discriminate. }
  apply negb_false_iff in G.
  destruct (Cart.productId req) as [pid|] eqn:Hpid; [|discriminate].
  cbn in G. apply negb_true_iff in G. cbn [JS.int_or]. rewrite G.
  unfold bind at 1.
  destruct (query _ w) as [[found|] w1] eqn:Q1.
  2:{ intros H; inversion H; subst; discriminate. }
  pose proof (query_db _ _ _ _ Q1) as D1.
  apply query_returned in Q1. subst found.
  destruct (Cart.selectActiveProduct pid (db w)) as [p|] eqn:Hp.
  2:{ cbn. intros H; inversion H; subst; discriminate. }
  assert (Hact : p_is_active p = 1).
  { unfold Cart.selectActiveProduct in Hp.
    destruct (find_some _ _ Hp) as [_ Hc].
    apply andb_prop in Hc as [_ Hc]. now apply Z.eqb_eq in Hc. }
  destruct (Z.ltb_spec (p_stock_quantity p)
              match Cart.quantity req with Some q => q | None => 1 end)
    as [Hlt|Hq].
  { cbn. intros H; inversion H; subst; discriminate. }
  unfold bind at 1.
  destruct (query _ w1) as [[existing|] w2] eqn:Q2.
  2:{ intros H; inversion H; subst; discriminate. }
  pose proof (query_db _ _ _ _ Q2) as D2.
  apply query_returned in Q2. rewrite D1 in Q2, D2. subst existing.
  destruct (Cart.selectExistingItem userId pid (db w)) as [item|] eqn:Hex.
  - destruct (Z.ltb_spec (p_stock_quantity p)
                (ci_quantity item
                 + match Cart.quantity req with Some q => q | None => 1 end))
      as [Hlt|Hsum].
    { cbn. intros H; inversion H; subst; discriminate. }
    unfold bind at 1.
    destruct (exec _ w2) as [[[]|] w3] eqn:E3.
    2:{ intros H; inversion H; subst; discriminate. }
    apply exec_returned in E3 as [_ D3]. rewrite D2 in D3.
    cbn. intros H _. inversion H; subst resp w'. clear H.
    exists pid, p. repeat split; try assumption; try (rewrite D3; reflexivity).
    assert (Hold : quantity_in_cart userId pid (db w)
                   = Some (ci_quantity item))
      by (unfold quantity_in_cart; now rewrite Hex).
    rewrite Hold.
    eexists. split; [reflexivity|]. split; [exact Hsum|].
    intros u pid'. rewrite D3.
    now apply (quantity_after_update env userId pid).
  - unfold bind at 1.
    destruct (exec _ w2) as [[[]|] w3] eqn:E3.
    2:{ intros H; inversion H; subst; discriminate. }
    apply exec_returned in E3 as [_ D3]. rewrite D2 in D3.
    cbn. intros H _. inversion H; subst resp w'. clear H.
    exists pid, p. repeat split; try assumption; try (rewrite D3; reflexivity).
    assert (Hold : quantity_in_cart userId pid (db w) = None)
      by (unfold quantity_in_cart; now rewrite Hex).
    rewrite Hold.
    eexists. split; [reflexivity|]. split; [cbn; lia|].
    intros u pid'. rewrite D3. cbn [Z.add].
    now apply (quantity_after_insert env userId pid).
Qed.

End AddToCart.

Lemma selectItemStock_owner item_id userId d stock :
  Cart.selectItemStock item_id userId d = Some stock ->
  exists ci, In ci (cart_items d)
             /\ ci_id ci = item_id /\ ci_user_id ci = userId.
Proof.
  unfold Cart.selectItemStock.
  induction (cart_items d) as [|ci cs IH]; cbn [flat_map]; [discriminate|].
  destruct ((ci_id ci =? item_id)%Z && (ci_user_id ci =? userId)%Z) eqn:E.
  - intros _. apply andb_prop in E as [E1 E2]. apply Z.eqb_eq in E1, E2.
    exists ci. split; [now left | auto].
  - cbn [app]. intros H. destruct (IH H) as (x & Hx & Hi).
    exists x. split; [now right | exact Hi].
Qed.

Lemma updateItem_other_user env q item d u :
  primary_key ci_id (cart_items d) = true ->
  In item (cart_items d) ->
  ci_user_id item <> u ->
  user_lines u (snd (Cart.updateItem env q (ci_id item) d))
  = user_lines u d.
Proof.
  intros PK Hin Hne. unfold user_lines, Cart.updateItem.
  cbn [snd with_cart_items cart_items].
  rewrite filter_map_comm.
  2:{ intros ci. now destruct (ci_id ci =? ci_id item)%Z. }
  apply map_no_match. intros ci Hci.
  apply filter_In in Hci as [Hci Hu]. apply Z.eqb_eq in Hu.
  destruct (Z.eqb_spec (ci_id ci) (ci_id item)) as [E|_]; [|reflexivity].
  apply (primary_key_inj ci_id _ _ _ PK Hci Hin) in E. congruence.
Qed.

Section Isolation.

Variables (u : Z) (d0 : database).

Abbreviation lines_kept := (same_lines u d0).
Abbreviation lines_keyed := (keyed_lines u d0).

Lemma same_lines_cart d d' :
  cart_items d' = cart_items d -> lines_kept d -> lines_kept d'.
Proof. unfold same_lines, user_lines. now intros ->. Qed.

Lemma same_lines_cleared userId d :
  userId <> u -> lines_kept d ->
  lines_kept (snd (Orders.clearCart userId d)).
Proof.
  unfold same_lines, user_lines, Orders.clearCart.
  cbn [snd with_cart_items cart_items]. intros Hne <-.
  rewrite filter_comm. apply filter_no_match.
  intros ci Hci. apply filter_In in Hci as [_ Hu]. apply Z.eqb_eq in Hu.
  destruct (Z.eqb_spec (ci_id ci) 0); destruct (Z.eqb_spec (ci_user_id ci) userId);
    congruence.
Qed.

Lemma create_order_lines env userId req :
  userId <> u ->
  hoare lines_kept (Orders.create_order_body env userId req)
    (fun _ d => lines_kept d).
Proof.
  intros Hne. unfold Orders.create_order_body.
  apply inv_bind; [apply inv_query|]. intros rows.
  destruct (List.length rows =? 0)%nat; [apply inv_ret|].
  destruct (find _ rows); [apply inv_ret|].
  apply inv_bind; [apply inv_exec; intros d; now apply same_lines_cart|].
  intros oid. apply inv_bind.
  { apply hoare_for_of_inv. intros item. apply inv_bind.
    - apply inv_exec. intros d. now apply same_lines_cart.
    - intros _. apply inv_exec. intros d. now apply same_lines_cart. }
  intros _. apply inv_bind; [|intros _; apply inv_ret].
  apply inv_exec. intros d. now apply same_lines_cleared.
Qed.

Lemma add_to_cart_lines env userId req :
  userId <> u ->
  hoare lines_keyed (Cart.add_to_cart_body env userId req)
    (fun _ d => lines_kept d).
Proof.
  intros Hne. unfold Cart.add_to_cart_body.
  destruct (negb _); [apply hoare_ret; now intros d [_ H]|].
  eapply hoare_bind; [apply hoare_query | | now intros d [[_ H] _]].
  intros found. cbn beta.
  destruct found as [product|]; [|apply hoare_ret; now intros d [[_ H] _]].
  destruct (_ <? _)%Z; [apply hoare_ret; now intros d [[_ H] _]|].
  eapply hoare_bind; [apply hoare_query | | now intros d [[[_ H] _] _]].
  intros existingItem. cbn beta.
  destruct existingItem as [item|].
  - destruct (_ <? _)%Z; [apply hoare_ret; now intros d [[[_ H] _] _]|].
    eapply hoare_bind with (R := fun _ d => lines_kept d).
    + apply hoare_exec. intros d [[[PK H] _] E].
      split; [|exact H]. unfold same_lines. rewrite <- H.
      unfold Cart.selectExistingItem in E. symmetry in E.
      destruct (find_some _ _ E) as [Hin Hc].
      apply andb_prop in Hc as [Hc _]. apply Z.eqb_eq in Hc.
      apply updateItem_other_user; congruence.
    + intros _. apply inv_ret.
    + auto.
  - eapply hoare_bind with (R := fun _ d => lines_kept d).
    + apply hoare_exec. intros d [[[PK H] _] E].
      split; [|exact H]. unfold same_lines. rewrite <- H.
      unfold user_lines, Cart.insertItem. cbn [snd cart_items].
      rewrite filter_app. cbn [filter ci_user_id].
      destruct (Z.eqb_spec userId u); [contradiction | apply app_nil_r].
    + intros _. apply inv_ret.
    + auto.
Qed.

Lemma update_cart_item_lines env userId item_id qty :
  userId <> u ->
  hoare lines_keyed (Cart.update_cart_item_body env userId item_id qty)
    (fun _ d => lines_kept d).
Proof.
  intros Hne. unfold Cart.update_cart_item_body.
  destruct (_ || _); [apply hoare_ret; now intros d [_ H]|].
  eapply hoare_bind; [apply hoare_query | | now intros d [[_ H] _]].
  intros cartItem. cbn beta.
  destruct cartItem as [stock|]; [|apply hoare_ret; now intros d [[_ H] _]].
  destruct (_ <? _)%Z; [apply hoare_ret; now intros d [[_ H] _]|].
  eapply hoare_bind with (R := fun _ d => lines_kept d).
  - apply hoare_exec. intros d [[PK H] E].
    split; [|exact H]. unfold same_lines. rewrite <- H.
    symmetry in E.
    apply selectItemStock_owner in E as (ci & Hin & Hid & Hu).
    rewrite <- Hid. apply updateItem_other_user; congruence.
  - intros _. apply inv_ret.
  - auto.
Qed.

Lemma remove_from_cart_lines userId item_id :
  userId <> u ->
  hoare lines_kept (Cart.remove_from_cart_body userId item_id)
    (fun _ d => lines_kept d).
Proof.
  intros Hne. unfold Cart.remove_from_cart_body.
  apply inv_bind.
  - apply inv_exec. intros d. unfold same_lines, user_lines, Cart.deleteItem.
    cbn [snd with_cart_items cart_items]. intros <-.
    rewrite filter_comm.
    apply (filter_no_match
             (fun ci => (ci_id ci =? item_id)%Z
                        && (ci_user_id ci =? userId)%Z)).
    intros ci Hci. apply filter_In in Hci as [_ Hu]. apply Z.eqb_eq in Hu.
    destruct (Z.eqb_spec (ci_user_id ci) userId); [congruence|].
    apply andb_false_r.
  - intros changes. destruct (changes =? 0)%Z; apply inv_ret.
Qed.

Lemma clear_cart_lines userId :
  userId <> u ->
  hoare lines_kept (Cart.clear_cart_body userId) (fun _ d => lines_kept d).
Proof.
  intros Hne. unfold Cart.clear_cart_body.
  apply inv_bind; [|intros _; apply inv_ret].
  apply inv_exec. intros d. now apply same_lines_cleared.
Qed.

(** A handler all of whose statements leave [cart_items] alone. *)
Lemma elsewhere_lines {A} (stmt : database -> A * database) :
  (forall d, cart_items (snd (stmt d)) = cart_items d) ->
  hoare lines_kept (exec stmt) (fun _ d => lines_kept d).
Proof. intros H. apply inv_exec. intros d. apply same_lines_cart, H. Qed.

Lemma perform_lines op w :
  primary_key ci_id (cart_items (db w)) = true ->
  acting_user op <> Some u ->
  db w = d0 ->
  lines_kept (db (snd (perform op w))).
Proof.
  intros PK Hop Hd.
  assert (H0 : lines_kept (db w)) by (unfold same_lines; now rewrite Hd).
  assert (Hk : lines_keyed (db w)) by now split.
  assert (Hweak : forall m,
             hoare lines_keyed m (fun _ d => lines_kept d) ->
             forall e, lines_kept (db (snd (try_catch m e w)))).
  { intros m Hm e.
    destruct (hoare_try_catch lines_keyed m _ e w Hm Hk) as [(r & _ & H)|[_ H]];
      exact H. }
  destruct op; cbn [perform acting_user] in *;
    unfold Orders.create_order, Orders.update_order_status,
      Payments.process_payment, Products.create_product,
      Products.update_product, Products.delete_product, Cart.add_to_cart,
      Cart.update_cart_item, Cart.remove_from_cart, Cart.clear_cart.
  - apply (inv_try_catch lines_kept); [|exact H0]. apply create_order_lines. congruence.
  - apply (inv_try_catch lines_kept); [|exact H0].
    unfold Orders.update_order_status_body.
    destruct (negb _); [apply inv_ret|].
    apply inv_bind; [now apply elsewhere_lines|].
    intros changes. destruct (changes =? 0)%Z; apply inv_ret.
  - apply (inv_try_catch lines_kept); [|exact H0].
    unfold Payments.process_payment_body.
    destruct (_ || _); [apply inv_ret|].
    apply inv_bind; [apply inv_query|]. intros found.
    destruct found; [|apply inv_ret].
    destruct (Payments.paymentSuccess env);
      (apply inv_bind; [now apply elsewhere_lines | intros _; apply inv_ret]).
  - apply (inv_try_catch lines_kept); [|exact H0].
    unfold Products.create_product_body.
    destruct (_ || _); [apply inv_ret|].
    apply inv_bind.
    { unfold Products.bound_name.
      destruct (Products.name req); [apply inv_ret | apply inv_throw]. }
    intros product_name. apply inv_bind.
    { unfold Products.bound_price.
      destruct (Products.price req); [apply inv_ret | apply inv_throw]. }
    intros product_price.
    apply inv_bind; [now apply elsewhere_lines|].
    intros productId. apply inv_bind; [|intros _; apply inv_ret].
    apply hoare_for_of_inv. intros _. now apply elsewhere_lines.
  - apply (inv_try_catch lines_kept); [|exact H0].
    unfold Products.update_product_body.
    apply inv_bind.
    { apply inv_constrained. intros d a d' H E.
      apply update_product_tables in E as (Hc & _).
      now apply (same_lines_cart d). }
    intros changes. destruct (changes =? 0)%Z; apply inv_ret.
  - apply (inv_try_catch lines_kept); [|exact H0].
    unfold Products.delete_product_body.
    apply inv_bind; [now apply elsewhere_lines|].
    intros changes. destruct (changes =? 0)%Z; apply inv_ret.
  - apply Hweak. apply add_to_cart_lines. congruence.
  - apply Hweak. apply update_cart_item_lines. congruence.
  - apply (inv_try_catch lines_kept); [|exact H0].
    apply remove_from_cart_lines. congruence.
  - apply (inv_try_catch lines_kept); [|exact H0]. apply clear_cart_lines. congruence.
Qed.

End Isolation.

(** X7. Carts are isolated: a request changes no cart line of a user other
    than the one it runs for, and the admin requests (products, order
    status) change no cart line at all, whatever the store does.  In
    particular PUT /update/:id and DELETE /remove/:id with the id of another
    user's line leave that line alone. *)
Theorem cart_isolation (op : operation) (w : world) (u : Z) :
  primary_key ci_id (cart_items (db w)) = true ->
  acting_user op <> Some u ->
  user_lines u (db (snd (perform op w))) = user_lines u (db w).
Proof.
  intros PK Hop. now apply (perform_lines u (db w) op w).
Qed.

(** ** One cart, one order *)

Lemma empty_cart_no_rows userId d :
  user_lines userId d = [] -> Orders.selectCartItems userId d = [].
Proof.
  intros H. apply no_active_line_no_rows. rewrite H. intros ci [].
Qed.

Lemma create_order_empty env userId req w :
  Orders.selectCartItems userId (db w) = [] ->
  is_error (fst (Orders.create_order env userId req w))
  /\ db (snd (Orders.create_order env userId req w)) = db w.
Proof.
  intros Hnil.
  destruct (Orders.create_order env userId req w) as [resp w'] eqn:Run.
  revert Run.
  unfold Orders.create_order, try_catch, Orders.create_order_body.
  unfold bind at 1.
  destruct (query _ w) as [[rows|] w1] eqn:Q.
  - pose proof (query_db _ _ _ _ Q) as D1.
    apply query_returned in Q. subst rows. rewrite Hnil.
    cbn [List.length Nat.eqb ret]. intros Run. inversion Run; subst.
    cbn [fst snd]. split; [now eexists | exact D1].
  - apply query_db in Q. intros Run. inversion Run; subst.
    cbn [fst snd]. split; [now eexists | exact Q].
Qed.

(** X8. An order cannot be placed twice from one cart: after an order
    creation that answered 201, the next order creation by the same user,
    with any request body and whatever the store does, is answered with an
    error and writes nothing, since the first one emptied the cart. *)
Theorem second_order_rejected env userId req (w w' : world) (resp : response)
    env2 req2 (fs : list bool) :
  Orders.create_order env userId req w = (resp, w') ->
  status resp = 201 ->
  is_error (fst (Orders.create_order env2 userId req2 (mkWorld (db w') fs)))
  /\ db (snd (Orders.create_order env2 userId req2 (mkWorld (db w') fs)))
     = db w'.
Proof.
  intros Hrun H201.
  destruct (create_order_created _ _ _ _ _ _ Hrun H201) as [_ Hd].
  apply (create_order_empty env2 userId req2 (mkWorld (db w') fs)).
  cbn [db]. apply empty_cart_no_rows. rewrite Hd. apply placed_cart_empty.
Qed.

(** ** Adding and removing a cart line *)

Lemma filter_fresh_id (cs : list cart_item) seq userId :
  filter
    (fun ci => negb ((ci_id ci =? next_rowid seq (map ci_id cs))%Z
                     && (ci_user_id ci =? userId)%Z)) cs = cs.
Proof.
  apply (filter_no_match
           (fun ci => (ci_id ci =? next_rowid seq (map ci_id cs))%Z
                      && (ci_user_id ci =? userId)%Z)).
  intros ci Hci.
  destruct (Z.eqb_spec (ci_id ci) (next_rowid seq (map ci_id cs))) as [E|_];
    [|reflexivity].
  exfalso. apply (next_rowid_fresh seq (map ci_id cs)).
  rewrite <- E. now apply in_map.
Qed.

(** X9. Adding a product that is not yet in the cart and then removing the
    line that was created gives back the cart as it was (the store raising
    no error): POST /add answers 200, DELETE /remove/:id with the new line's
    id answers 200, and the cart lines, products, orders and order items
    are those before the two requests.  Only the AUTOINCREMENT counter
    remembers the line. *)
Theorem add_then_remove env userId (req : Cart.request) (d : database)
    (pid : Z) (p : product) :
  Cart.productId req = Some pid ->
  pid <> 0 ->
  Cart.selectActiveProduct pid d = Some p ->
  match Cart.quantity req with Some q => q | None => 1 end
  <= p_stock_quantity p ->
  Cart.selectExistingItem userId pid d = None ->
  exists d1 d2 line,
    Cart.add_to_cart env userId req (no_faults d)
    = (json 200 (Message "Item added to cart successfully"), no_faults d1)
    /\ cart_items d1 = cart_items d ++ [line]
    /\ ci_user_id line = userId /\ ci_product_id line = pid
    /\ Cart.remove_from_cart userId (ci_id line) (no_faults d1)
       = (json 200 (Message "Item removed from cart successfully"),
          no_faults d2)
    /\ cart_items d2 = cart_items d
    /\ products d2 = products d
    /\ orders d2 = orders d
    /\ order_items d2 = order_items d.
Proof.
  intros Hpid Hnz Hp Hq Hex.
  unfold Cart.add_to_cart, try_catch, Cart.add_to_cart_body.
  rewrite Hpid. cbn [JS.truthy_int JS.int_or].
  destruct (Z.eqb_spec pid 0) as [|_]; [contradiction|]. cbn [negb].
  unfold bind at 1. rewrite query_no_faults, Hp.
  destruct (Z.ltb_spec (p_stock_quantity p)
              match Cart.quantity req with Some q => q | None => 1 end)
    as [Hlt|_]; [lia|].
  unfold bind at 1. rewrite query_no_faults, Hex.
  unfold bind at 1. rewrite exec_no_faults.
  do 3 eexists. split; [reflexivity|].
  unfold Cart.insertItem. cbn [snd cart_items products orders order_items].
  split; [reflexivity|]. cbn [ci_user_id ci_product_id ci_id].
  split; [reflexivity|]. split; [reflexivity|].
  unfold Cart.remove_from_cart, try_catch, Cart.remove_from_cart_body.
  unfold bind at 1. rewrite exec_no_faults.
  unfold Cart.deleteItem.
  cbn [fst snd cart_items with_cart_items products orders order_items].
  rewrite !filter_app. cbn [filter ci_id ci_user_id].
  rewrite !Z.eqb_refl. cbn [andb negb].
  rewrite filter_fresh_id, app_nil_r, length_app. cbn [List.length].
  destruct (Z.eqb_spec
              (Z.of_nat
                 (List.length
                    (filter
                       (fun ci =>
                          (ci_id ci
                           =? next_rowid (seq_cart_items (sqlite_sequence d))
                                (map ci_id (cart_items d)))%Z
                          && (ci_user_id ci =? userId)%Z) (cart_items d))
                  + 1)) 0) as [E|_]; [lia|].
  split; [reflexivity|]. repeat split.
Qed.

(** ** The catalogue *)

Lemma find_inactive pid (d : database) :
  (forall p, In p (products d) -> p_id p = pid -> p_is_active p <> 1) ->
  Cart.selectActiveProduct pid d = None.
Proof.
  intros H. unfold Cart.selectActiveProduct.
  induction (products d) as [|p ps IH]; cbn [find]; [easy|].
  destruct (Z.eqb_spec (p_id p) pid) as [E|_]; cbn [andb].
  - destruct (Z.eqb_spec (p_is_active p) 1) as [A|_].
    + exfalso. apply (H p); [now left | exact E | exact A].
    + apply IH. intros q Hq. apply H. now right.
  - apply IH. intros q Hq. apply H. now right.
Qed.

Lemma add_to_cart_unavailable env userId (req : Cart.request) pid w :
  Cart.productId req = Some pid ->
  Cart.selectActiveProduct pid (db w) = None ->
  is_error (fst (Cart.add_to_cart env userId req w)).
Proof.
  intros Hpid Hnone.
  destruct (Cart.add_to_cart env userId req w) as [resp w'] eqn:Run.
  revert Run.
  unfold Cart.add_to_cart, try_catch, Cart.add_to_cart_body.
  rewrite Hpid. cbn [JS.truthy_int JS.int_or].
  destruct (Z.eqb_spec pid 0) as [_|_]; cbn [negb].
  - intros Run. inversion Run; subst. now eexists.
  - unfold bind at 1.
    destruct (query _ w) as [[found|] w1] eqn:Q.
    + apply query_returned in Q. subst found. rewrite Hnone.
      intros Run. inversion Run; subst. now eexists.
    + intros Run. inversion Run; subst. now eexists.
Qed.

Lemma delete_product_run pid (w w' : world) (resp : response) :
  Products.delete_product pid w = (resp, w') ->
  status resp = 200 ->
  db w' = snd (Products.deleteProduct pid (db w))
  /\ fst (Products.deleteProduct pid (db w)) <> 0.
Proof.
  unfold Products.delete_product, try_catch, Products.delete_product_body.
  unfold bind at 1.
  destruct (exec _ w) as [[changes|] w1] eqn:E.
  - apply exec_returned in E as [-> D1].
    destruct (Z.eqb_spec (fst (Products.deleteProduct pid (db w))) 0)
      as [_|Hne]; cbn [ret]; intros Run H; inversion Run; subst.
    + discriminate H.
    + now split.
  - intros Run H. inversion Run; subst. discriminate H.
Qed.

Lemma filter_length_In {A} (f : A -> bool) l :
  Z.of_nat (List.length (filter f l)) <> 0 ->
  exists x, In x l /\ f x = true.
Proof.
  destruct (filter f l) as [|x rest] eqn:E; cbn [List.length]; [easy|].
  intros _. exists x. apply filter_In. rewrite E. now left.
Qed.

(** X10. DELETE /:id on a product is a soft delete that takes the product
    off sale: after an answer 200 the row is still there with its name,
    price and stock, but the lookup of POST /add no longer finds it, so
    adding it to a cart is answered with an error for every user and
    request, and the cart query of order creation returns no line for it.
    Cart lines, orders and order items are not touched. *)
Theorem deleted_product_unavailable pid (w w' : world) (resp : response) :
  Products.delete_product pid w = (resp, w') ->
  status resp = 200 ->
  (exists p, In p (products (db w)) /\ p_id p = pid)
  /\ map (fun p => (p_id p, p_name p, p_price p, p_stock_quantity p))
       (products (db w'))
     = map (fun p => (p_id p, p_name p, p_price p, p_stock_quantity p))
         (products (db w))
  /\ Cart.selectActiveProduct pid (db w') = None
  /\ (forall env userId req fs,
        Cart.productId req = Some pid ->
        is_error
          (fst (Cart.add_to_cart env userId req (mkWorld (db w') fs))))
  /\ (forall userId item,
        In item (Orders.selectCartItems userId (db w')) ->
        Orders.product_id item <> pid)
  /\ cart_items (db w') = cart_items (db w)
  /\ orders (db w') = orders (db w)
  /\ order_items (db w') = order_items (db w).
Proof.
  intros Run H200.
  destruct (delete_product_run _ _ _ _ Run H200) as [Hd Hch].
  assert (Hoff : forall p, In p (products (db w')) -> p_id p = pid ->
                           p_is_active p <> 1).
  { rewrite Hd. unfold Products.deleteProduct.
    cbn [snd products with_products].
    intros p Hp E. apply in_map_iff in Hp as (p0 & <- & _).
    destruct (Z.eqb_spec (p_id p0) pid) as [_|Hne]; cbn; [lia|].
    now cbn in E. }
  split.
  { unfold Products.deleteProduct in Hch. cbn [fst] in Hch.
    apply filter_length_In in Hch as (p & Hp & E).
    exists p. split; [exact Hp | now apply Z.eqb_eq]. }
  split.
  { rewrite Hd. unfold Products.deleteProduct.
    cbn [snd products with_products]. rewrite map_map.
    apply map_ext. intros p. now destruct (p_id p =? pid)%Z. }
  pose proof (find_inactive pid (db w') Hoff) as Hnone.
  split; [exact Hnone|].
  split.
  { intros env userId req fs Hpid.
    now apply (add_to_cart_unavailable env userId req pid
                 (mkWorld (db w') fs)). }
  split.
  { intros userId item Hin E.
    apply in_selectCartItems in Hin
      as (ci & p & _ & Hp & Hid & Hact & ->).
    cbn in E. apply (Hoff p Hp); [congruence | exact Hact]. }
  rewrite Hd. unfold Products.deleteProduct. now cbn.
Qed.

Lemma update_product_run pid (req : Products.request) (w w' : world)
    (resp : response) :
  Products.update_product pid req w = (resp, w') ->
  status resp = 200 ->
  exists nm pr,
    Products.name req = Some nm /\ Products.price req = Some pr
    /\ db w'
       = snd (Products.updateProduct nm pr
                (JS.int_or (Products.stockQuantity req) 0)
                (match Products.isActive req with
                 | Some a => a | None => 1 end) pid (db w))
    /\ fst (Products.updateProduct nm pr
              (JS.int_or (Products.stockQuantity req) 0)
              (match Products.isActive req with
               | Some a => a | None => 1 end) pid (db w)) <> 0.
Proof.
  unfold Products.update_product, try_catch, Products.update_product_body.
  unfold bind at 1.
  destruct (constrained _ w) as [[changes|] w1] eqn:E.
  - apply constrained_returned in E.
    destruct (Z.eqb_spec changes 0) as [E0|Hne]; intros Run H;
      inversion Run; subst resp w'; [discriminate H|].
    unfold Products.updateProduct_bound in E.
    destruct (Products.name req) as [nm|], (Products.price req) as [pr|];
      try (destruct (existsb _ _); [discriminate E|];
           injection E as E _; congruence).
    exists nm, pr. split; [reflexivity|]. split; [reflexivity|].
    unfold Products.updateProduct in *. cbn [fst snd].
    injection E as Hc Hd. split; [symmetry; exact Hd|].
    rewrite Hc. exact Hne.
  - intros Run H. inversion Run; subst. discriminate H.
Qed.

(** X11. PUT /:id replaces the product, it does not patch it: after an
    answer 200 the request carried a name and a price, a product with the
    id existed, and every row with the id now holds the request's name and
    price, the request's stock or 0 when the request leaves it out, and
    the request's activity flag or 1 when the request leaves it out.  So
    an update that does not mention isActive puts a soft-deleted product
    back on sale, where the lookup of POST /add finds it again.  Rows with
    another id and the other tables are unchanged. *)
Theorem update_product_replaces pid (req : Products.request) (w w' : world)
    (resp : response) :
  Products.update_product pid req w = (resp, w') ->
  status resp = 200 ->
  exists nm pr,
    let replaced :=
      mkProduct pid nm pr (JS.int_or (Products.stockQuantity req) 0)
        (match Products.isActive req with Some a => a | None => 1 end) in
    Products.name req = Some nm /\ Products.price req = Some pr
    /\ (exists p, In p (products (db w)) /\ p_id p = pid)
    /\ In replaced (products (db w'))
    /\ (forall p, In p (products (db w')) -> p_id p = pid -> p = replaced)
    /\ (forall p, p_id p <> pid ->
          (In p (products (db w')) <-> In p (products (db w))))
    /\ map p_id (products (db w')) = map p_id (products (db w))
    /\ (Products.isActive req = None ->
        Cart.selectActiveProduct pid (db w') = Some replaced)
    /\ cart_items (db w') = cart_items (db w)
    /\ orders (db w') = orders (db w)
    /\ order_items (db w') = order_items (db w).
Proof.
  intros Run H200.
  destruct (update_product_run _ _ _ _ _ Run H200)
    as (nm & pr & Hnm & Hpr & Hd & Hch).
  exists nm, pr. cbv zeta.
  set (stock := JS.int_or (Products.stockQuantity req) 0) in *.
  set (active := match Products.isActive req with
                 | Some a => a | None => 1 end) in *.
  unfold Products.updateProduct in Hd, Hch. cbn [fst snd] in Hd, Hch.
  apply filter_length_In in Hch as (p0 & Hp0 & E0).
  apply Z.eqb_eq in E0.
  assert (Hrows : products (db w')
                  = map (fun p => if (p_id p =? pid)%Z
                                  then mkProduct (p_id p) nm pr stock active
                                  else p) (products (db w)))
    by (rewrite Hd; reflexivity).
  split; [exact Hnm|]. split; [exact Hpr|].
  split; [now exists p0|].
  split.
  { rewrite Hrows. apply in_map_iff. exists p0. split; [|exact Hp0].
    rewrite <- E0, Z.eqb_refl. reflexivity. }
  split.
  { rewrite Hrows. intros p Hp E.
    apply in_map_iff in Hp as (q & <- & _).
    destruct (Z.eqb_spec (p_id q) pid) as [Eq|Hne].
    - now rewrite Eq.
    - now cbn in E. }
  split.
  { rewrite Hrows. intros p Hne. rewrite in_map_iff. split.
    - intros (q & <- & Hq).
      destruct (Z.eqb_spec (p_id q) pid) as [Eq|_]; [|exact Hq].
      now cbn in Hne.
    - intros Hp. exists p. split; [|exact Hp].
      now destruct (Z.eqb_spec (p_id p) pid). }
  split.
  { rewrite Hrows, map_map. apply map_ext. intros p.
    now destruct (p_id p =? pid)%Z. }
  split.
  { intros Hact. unfold Cart.selectActiveProduct. rewrite Hrows.
    subst active. rewrite Hact. clear - Hp0 E0.
    induction (products (db w)) as [|p ps IH]; [destruct Hp0|].
    cbn [map find].
    destruct (Z.eqb_spec (p_id p) pid) as [Eq|Hne].
    - cbn [p_id p_is_active]. rewrite Eq, Z.eqb_refl. reflexivity.
    - apply Z.eqb_neq in Hne. rewrite Hne. cbn [andb].
      apply IH. destruct Hp0 as [->|Hin]; [|exact Hin].
      apply Z.eqb_neq in Hne. contradiction. }
  rewrite Hd. now cbn.
Qed.

Lemma images_loop (imgs : list string) (w w' : world) (r : result unit) :
  for_of imgs (fun _ => exec Products.insertImage) w = (r, w') ->
  db w' = db w.
Proof.
  revert w. induction imgs as [|img imgs IH]; intros w; cbn [for_of].
  - intros H. inversion H; subst. reflexivity.
  - unfold bind at 1.
    destruct (exec Products.insertImage w) as [[[]|] w1] eqn:E.
    + apply exec_returned in E as [_ D1]. intros H.
      rewrite (IH _ H). exact D1.
    + apply exec_thrown in E. intros H. inversion H; subst. exact E.
Qed.

Lemma find_fresh_product seq (ps : list product) (p : product) :
  p_id p = next_rowid seq (map p_id ps) ->
  p_is_active p = 1 ->
  find (fun q => (p_id q =? p_id p)%Z && (p_is_active q =? 1)%Z) (ps ++ [p])
  = Some p.
Proof.
  intros Hid Hact.
  assert (Hfresh : forall q, In q ps -> p_id q <> p_id p).
  { intros q Hq E. apply (next_rowid_fresh seq (map p_id ps)).
    rewrite <- Hid, <- E. now apply in_map. }
  clear Hid. induction ps as [|q ps IH]; cbn [app find].
  - now rewrite Z.eqb_refl, Hact.
  - destruct (Z.eqb_spec (p_id q) (p_id p)) as [E|_].
    + exfalso. apply (Hfresh q); [now left | exact E].
    + cbn [andb]. apply IH. intros q' Hq'. apply Hfresh. now right.
Qed.

(** X12. A product that POST / created can be bought: after an answer 201
    the request carried a non-empty name and a price that is neither 0
    nor NaN, the answer names an id no product had before, exactly one
    row was appended, holding the request's name and price, the request's
    stock or 0, and the activity flag 1, and the lookup of POST /add with
    the answered id finds that row.  The other tables are unchanged. *)
Theorem create_product_round_trip (req : Products.request) (w w' : world)
    (resp : response) :
  Products.create_product req w = (resp, w') ->
  status resp = 201 ->
  exists nm pr pid,
    let created_row :=
      mkProduct pid nm pr (JS.int_or (Products.stockQuantity req) 0) 1 in
    Products.name req = Some nm /\ nm <> ""
    /\ Products.price req = Some pr
    /\ JS.truthy_number (Some pr) = true
    /\ body resp = ProductCreated "Product created successfully" pid
    /\ ~ In pid (map p_id (products (db w)))
    /\ products (db w') = products (db w) ++ [created_row]
    /\ Cart.selectActiveProduct pid (db w') = Some created_row
    /\ cart_items (db w') = cart_items (db w)
    /\ orders (db w') = orders (db w)
    /\ order_items (db w') = order_items (db w).
Proof.
  unfold Products.create_product, try_catch, Products.create_product_body,
    Products.bound_name, Products.bound_price.
  destruct (Products.name req) as [nm|]; cbn [JS.truthy_string negb orb];
    [|intros Run H; inversion Run; subst; discriminate H].
  destruct (String.eqb_spec nm "") as [_|Hnm]; cbn [negb orb];
    [intros Run H; inversion Run; subst; discriminate H|].
  destruct (Products.price req) as [pr|];
    [|intros Run H; inversion Run; subst; discriminate H].
  destruct (JS.truthy_number (Some pr)) eqn:Hpr; cbn [negb];
    [|intros Run H; inversion Run; subst; discriminate H].
  unfold bind at 1. cbn [ret]. unfold bind at 1. cbn [ret].
  unfold bind at 1.
  destruct (exec _ w) as [[pid|] w1] eqn:E;
    [|intros Run H; inversion Run; subst; discriminate H].
  apply exec_returned in E as [Hpid D1].
  unfold bind at 1.
  destruct (for_of _ _ w1) as [[[]|] w2] eqn:L;
    [|intros Run H; inversion Run; subst; discriminate H].
  apply images_loop in L. cbn [ret].
  intros Run _. inversion Run; subst resp w2. clear Run.
  exists nm, pr, pid. cbv zeta.
  unfold Products.insertProduct in Hpid, D1. cbn [fst snd] in Hpid, D1.
  rewrite L, D1. cbn [body products cart_items orders order_items].
  split; [reflexivity|]. split; [exact Hnm|]. split; [reflexivity|].
  split; [first [reflexivity | exact Hpr]|]. split; [reflexivity|].
  split; [rewrite Hpid; apply next_rowid_fresh|].
  split; [now rewrite <- Hpid|].
  split; [|now repeat split].
  unfold Cart.selectActiveProduct. cbn [products]. rewrite <- Hpid.
  apply (find_fresh_product (seq_products (sqlite_sequence (db w)))
           (products (db w))
           (mkProduct pid nm pr
              (JS.int_or (Products.stockQuantity req) 0) 1));
    [exact Hpid | reflexivity].
Qed.

(** ** Invariants of the order table *)

Section OrderInvariants.

(** An invariant that only reads [orders] and that the four statements
    writing [orders] keep. *)
Context (I : database -> Prop).

Hypothesis I_orders : forall d d', orders d' = orders d -> I d -> I d'.

Hypothesis I_insert :
  forall env userId number subtotal tax shipping total method ship bill
         note d,
    I d ->
    I (snd (Orders.insertOrder env userId number "pending" subtotal tax
              shipping total method ship bill note d)).

Hypothesis I_update :
  forall (f : order -> order) d,
    (forall o, f o = o
               \/ (exists env s, f o = Orders.set_status env s o)
               \/ (exists env method paymentId,
                     f o = Payments.set_completed env method paymentId o)
               \/ (exists env, f o = Payments.set_failed env o)) ->
    I d -> I (with_orders d (map f (orders d))).

Lemma orders_stmt {A} (stmt : database -> A * database) :
  (forall d, orders (snd (stmt d)) = orders d) ->
  hoare I (exec stmt) (fun _ d => I d).
Proof. intros H. apply inv_exec. intros d. apply I_orders, H. Qed.

Lemma perform_orders op w : I (db w) -> I (db (snd (perform op w))).
Proof.
  intros H0.
  destruct op; cbn [perform];
    unfold Orders.create_order, Orders.update_order_status,
      Payments.process_payment, Products.create_product,
      Products.update_product, Products.delete_product, Cart.add_to_cart,
      Cart.update_cart_item, Cart.remove_from_cart, Cart.clear_cart;
    (apply (inv_try_catch I); [|exact H0]).
  - unfold Orders.create_order_body.
    apply inv_bind; [apply inv_query|]. intros rows.
    destruct (List.length rows =? 0)%nat; [apply inv_ret|].
    destruct (find _ rows); [apply inv_ret|].
    apply inv_bind; [apply inv_exec; intros d; apply I_insert|].
    intros oid. apply inv_bind.
    { apply hoare_for_of_inv. intros item.
      apply inv_bind; [|intros _]; now apply orders_stmt. }
    intros _. apply inv_bind; [|intros _; apply inv_ret].
    now apply orders_stmt.
  - unfold Orders.update_order_status_body.
    destruct (negb _); [apply inv_ret|].
    apply inv_bind.
    + apply inv_exec. intros d. unfold Orders.updateOrder. cbn [snd].
      apply I_update. intros o.
      destruct (o_id o =? orderId)%Z; [right; left; eauto | now left].
    + intros changes. destruct (changes =? 0)%Z; apply inv_ret.
  - unfold Payments.process_payment_body.
    destruct (_ || _); [apply inv_ret|].
    apply inv_bind; [apply inv_query|]. intros found.
    destruct found as [pending|]; [|apply inv_ret].
    destruct (Payments.paymentSuccess env);
      (apply inv_bind; [|intros _; apply inv_ret]);
      apply inv_exec; intros d;
      unfold Payments.updateOrderCompleted, Payments.updateOrderFailed;
      cbn [snd]; apply I_update; intros row;
      (destruct (o_id row =? _)%Z; [right; right; eauto | now left]).
  - unfold Products.create_product_body.
    destruct (_ || _); [apply inv_ret|].
    apply inv_bind.
    { unfold Products.bound_name.
      destruct (Products.name req); [apply inv_ret | apply inv_throw]. }
    intros product_name. apply inv_bind.
    { unfold Products.bound_price.
      destruct (Products.price req); [apply inv_ret | apply inv_throw]. }
    intros product_price.
    apply inv_bind; [now apply orders_stmt|].
    intros productId. apply inv_bind; [|intros _; apply inv_ret].
    apply hoare_for_of_inv. intros _. now apply orders_stmt.
  - unfold Products.update_product_body.
    apply inv_bind.
    { apply inv_constrained. intros d a d' H E.
      apply update_product_tables in E as (_ & Ho & _).
      now apply (I_orders d). }
    intros changes. destruct (changes =? 0)%Z; apply inv_ret.
  - unfold Products.delete_product_body.
    apply inv_bind; [now apply orders_stmt|].
    intros changes. destruct (changes =? 0)%Z; apply inv_ret.
  - unfold Cart.add_to_cart_body.
    destruct (negb _); [apply inv_ret|].
    apply inv_bind; [apply inv_query|]. intros found.
    destruct found as [product|]; [|apply inv_ret].
    destruct (_ <? _)%Z; [apply inv_ret|].
    apply inv_bind; [apply inv_query|]. intros existingItem.
    destruct existingItem as [item|].
    + destruct (_ <? _)%Z; [apply inv_ret|].
      apply inv_bind; [now apply orders_stmt | intros _; apply inv_ret].
    + apply inv_bind; [now apply orders_stmt | intros _; apply inv_ret].
  - unfold Cart.update_cart_item_body.
    destruct (_ || _); [apply inv_ret|].
    apply inv_bind; [apply inv_query|]. intros cartItem.
    destruct cartItem as [stock|]; [|apply inv_ret].
    destruct (_ <? _)%Z; [apply inv_ret|].
    apply inv_bind; [now apply orders_stmt | intros _; apply inv_ret].
  - unfold Cart.remove_from_cart_body.
    apply inv_bind; [now apply orders_stmt|].
    intros changes. destruct (changes =? 0)%Z; apply inv_ret.
  - unfold Cart.clear_cart_body.
    apply inv_bind; [now apply orders_stmt | intros _; apply inv_ret].
Qed.

Lemma serve_orders ops w : I (db w) -> I (db (serve ops w)).
Proof.
  revert w. induction ops as [|op ops IH]; intros w H; cbn [serve];
    [exact H|].
  apply IH. now apply perform_orders.
Qed.

End OrderInvariants.

Lemma same_order_refl o : same_order o o.
Proof. now repeat split. Qed.

Lemma same_order_trans o1 o2 o3 :
  same_order o1 o2 -> same_order o2 o3 -> same_order o1 o3.
Proof.
  intros (E1 & S1 & D1) (E2 & S2 & D2). repeat split.
  - congruence.
  - auto.
  - auto.
Qed.

Lemma same_order_refl_all os : Forall2 same_order os os.
Proof. induction os; constructor; auto using same_order_refl. Qed.

Lemma same_order_map (f : order -> order) os kept :
  (forall o, same_order o (f o)) ->
  Forall2 same_order os kept -> Forall2 same_order os (map f kept).
Proof.
  intros Hf H. induction H as [|o k os kept Hok _ IH]; cbn [map];
    constructor; [|exact IH].
  eapply same_order_trans; [exact Hok | apply Hf].
Qed.

Lemma same_order_set_status env s o : same_order o (Orders.set_status env s o).
Proof.
  unfold same_order, Orders.set_status. cbn. repeat split.
  - now destruct (String.eqb s "shipped").
  - now destruct (String.eqb s "delivered").
Qed.

(** X13. Orders are never lost, reassigned or renumbered: after any sequence
    of requests, whatever the store does, the order table starts with the
    rows it had, in the same order, each with its id, owner, order number,
    currency, address references, notes and creation time unchanged, and a
    shipping or delivery time that was set is still set; requests only
    append newer orders behind them. *)
Theorem orders_never_lost (ops : list operation) (w : world) :
  orders_persist (db w) (db (serve ops w)).
Proof.
  apply (serve_orders (orders_persist (db w))).
  - intros d d' E (kept & later & H & F). exists kept, later.
    split; [congruence | exact F].
  - intros env userId number subtotal tax shipping total method ship bill
      note d (kept & later & H & F).
    unfold Orders.insertOrder. cbn [snd orders]. rewrite H.
    eexists kept, _. split; [symmetry; apply app_assoc | exact F].
  - intros f d Hf (kept & later & H & F).
    exists (map f kept), (map f later). cbn [with_orders orders].
    split; [rewrite H; apply map_app|].
    apply same_order_map; [|exact F].
    intros o.
    destruct (Hf o) as [->|[(env & s & ->)|[(env & m & pid & ->)|(env & ->)]]].
    + apply same_order_refl.
    + apply same_order_set_status.
    + now repeat split.
    + now repeat split.
  - exists (orders (db w)), []. split; [symmetry; apply app_nil_r|].
    apply same_order_refl_all.
Qed.

(** X14. An order is marked as paid only together with its payment
    reference: if every order with payment status 'completed' carries a
    payment id and a payment method, this still holds after any sequence
    of requests, whatever the store does.  New orders start 'pending', and
    the only statement that writes 'completed' writes the id and the
    method with it. *)
Theorem paid_orders_keep_reference (ops : list operation) (w : world) :
  paid_with_reference (db w) -> paid_with_reference (db (serve ops w)).
Proof.
  apply (serve_orders paid_with_reference).
  - intros d d' E H o. rewrite E. apply H.
  - intros env userId number subtotal tax shipping total method ship bill
      note d H o.
    unfold Orders.insertOrder. cbn [snd orders]. rewrite in_app_iff.
    intros [Hin|[<-|[]]]; [now apply H|].
    cbn. discriminate.
  - intros f d Hf H o. cbn [with_orders orders]. rewrite in_map_iff.
    intros (o0 & <- & Hin).
    destruct (Hf o0)
      as [->|[(env & s & ->)|[(env & m & pid & ->)|(env & ->)]]].
    + now apply H.
    + cbn. now apply H.
    + cbn. intros _. split; discriminate.
    + cbn. discriminate.
Qed.

(** ** A payment outcome is final *)

Lemma settled_not_pending k userId d :
  settled k d -> Payments.selectPendingOrder k userId d = None.
Proof.
  intros [_ H]. unfold Payments.selectPendingOrder.
  induction (orders d) as [|o os IH]; cbn [find]; [reflexivity|].
  destruct (Z.eqb_spec (o_id o) k) as [E|_]; cbn [andb].
  - destruct (String.eqb_spec (o_payment_status o) "pending") as [P|_].
    + exfalso. apply (H o); [now left | exact E | exact P].
    + rewrite andb_false_r. apply IH. intros x Hx. apply H. now right.
  - apply IH. intros x Hx. apply H. now right.
Qed.

Lemma settled_by_update k (f : order -> order) d :
  (forall o, o_id (f o) = o_id o
             /\ o_payment_status (f o) <> "pending") ->
  In k (map o_id (orders d)) ->
  settled k
    (with_orders d
       (map (fun o => if (o_id o =? k)%Z then f o else o) (orders d))).
Proof.
  intros Hf Hin. split; cbn [with_orders orders].
  - rewrite map_map. erewrite map_ext; [exact Hin|].
    intros o. cbn beta. destruct (o_id o =? k)%Z; [apply Hf | reflexivity].
  - intros o Ho E. apply in_map_iff in Ho as (o0 & <- & _).
    destruct (Z.eqb_spec (o_id o0) k) as [_|Hne]; [apply Hf|].
    contradiction.
Qed.

(** A confirmation that went through, completed or declined, settles the
    order it names. *)
Lemma process_payment_settles env userId req (w w1 : world)
    (resp : response) :
  Payments.process_payment env userId req w = (resp, w1) ->
  status resp = 200 \/ declined resp ->
  exists k, Payments.orderId req = Some k /\ settled k (db w1).
Proof.
  unfold Payments.process_payment, try_catch, Payments.process_payment_body.
  assert (Hno : forall code e (w' : world),
             (json code (Error e), w') = (resp, w1) ->
             status resp = 200 \/ declined resp -> code = 200).
  { intros code e w' E [H|[x H]]; inversion E; subst; cbn in H;
      [exact H | discriminate H]. }
  destruct (negb (JS.truthy_int (Payments.orderId req))
            || negb (JS.truthy_string (Payments.paymentMethod req))) eqn:G.
  { cbn [ret]. intros Run H. now apply (Hno _ _ _ Run) in H. }
  apply orb_false_elim in G as [Gid _]. apply negb_false_iff in Gid.
  destruct (Payments.orderId req) as [k|] eqn:Hid; [|discriminate Gid].
  cbn in Gid. apply negb_true_iff in Gid. cbn [JS.int_or]. rewrite Gid.
  unfold bind at 1.
  destruct (query _ w) as [[found|] wq] eqn:Q;
    [|intros Run H; now apply (Hno _ _ _ Run) in H].
  pose proof (query_db _ _ _ _ Q) as Dq.
  apply query_returned in Q. subst found.
  destruct (Payments.selectPendingOrder k userId (db w)) as [o|] eqn:Hsel;
    [|cbn [ret]; intros Run H; now apply (Hno _ _ _ Run) in H].
  assert (Hin : In k (map o_id (orders (db wq)))).
  { rewrite Dq. unfold Payments.selectPendingOrder in Hsel.
    destruct (find_some _ _ Hsel) as [Ho Hc].
    apply andb_prop in Hc as [Hc _]. apply andb_prop in Hc as [Hc _].
    apply Z.eqb_eq in Hc. rewrite <- Hc. now apply in_map. }
  destruct (Payments.paymentSuccess env); unfold bind at 1;
    (destruct (exec _ wq) as [[[]|] wu] eqn:E;
     [|intros Run H; now apply (Hno _ _ _ Run) in H]);
    apply exec_returned in E as [_ Du]; cbn [ret];
    intros Run _; inversion Run; subst resp w1;
    exists k; (split; [reflexivity|]); rewrite Du.
  - unfold Payments.updateOrderCompleted. cbn [snd].
    apply settled_by_update; [|exact Hin].
    intros x. split; [reflexivity | discriminate].
  - unfold Payments.updateOrderFailed. cbn [snd].
    apply settled_by_update; [|exact Hin].
    intros x. split; [reflexivity | discriminate].
Qed.

(** No request unsettles an order. *)
Lemma settled_kept k (ops : list operation) (w : world) :
  settled k (db w) -> settled k (db (serve ops w)).
Proof.
  apply (serve_orders (settled k)).
  - intros d d' E [Hin H]. split; rewrite E; assumption.
  - intros env userId number subtotal tax shipping total method ship bill
      note d [Hin H].
    unfold Orders.insertOrder. cbv zeta. cbn [snd orders]. split.
    + apply in_map_iff in Hin as (o & E & Ho). apply in_map_iff.
      exists o. split; [exact E | apply in_or_app; now left].
    + intros o Ho E. apply in_app_or in Ho as [Ho|[<-|[]]]; [now apply H|].
      exfalso. cbn [o_id] in E.
      apply (next_rowid_fresh (seq_orders (sqlite_sequence d))
               (map o_id (orders d))).
      rewrite E. exact Hin.
  - intros f d Hf [Hin H]. unfold settled. cbn [with_orders orders].
    assert (Hid : forall o, o_id (f o) = o_id o).
    { intros o.
      destruct (Hf o)
        as [->|[(env & s & ->)|[(env & m & pid & ->)|(env & ->)]]];
        reflexivity. }
    split.
    + rewrite map_map. erewrite map_ext; [exact Hin | exact Hid].
    + intros o Ho E. apply in_map_iff in Ho as (o0 & <- & Ho0).
      rewrite Hid in E.
      destruct (Hf o0)
        as [->|[(env & s & ->)|[(env & m & pid & ->)|(env & ->)]]].
      * now apply H.
      * cbn. now apply H.
      * cbn. discriminate.
      * cbn. discriminate.
Qed.

(** X4. A payment outcome is final.  Once a confirmation request has gone
    through, the payment completed (200) or declined, every later
    confirmation request that names the same order is answered with an
    error and writes nothing, whoever sends it, whatever requests were
    served in between and whatever the random draw and the store do: a
    declined payment cannot be tried again, and no request makes an order
    payable again. *)
Theorem payment_is_final env userId (req : Payments.request)
    (w w1 : world) (resp : response) (ops : list operation)
    (fs : list bool) env' userId' (req' : Payments.request) :
  Payments.process_payment env userId req w = (resp, w1) ->
  status resp = 200 \/ declined resp ->
  Payments.orderId req' = Payments.orderId req ->
  is_error
    (fst (Payments.process_payment env' userId' req'
            (serve ops (mkWorld (db w1) fs))))
  /\ db (snd (Payments.process_payment env' userId' req'
                (serve ops (mkWorld (db w1) fs))))
     = db (serve ops (mkWorld (db w1) fs)).
Proof.
  intros Run Hok Hid'.
  destruct (process_payment_settles _ _ _ _ _ _ Run Hok) as (k & Hid & Hs).
  apply (process_payment_settled env' userId' req' _ k);
    [congruence|].
  apply settled_not_pending.
  now apply (settled_kept k ops (mkWorld (db w1) fs)).
Qed.

(** ** The list of a user's orders *)

Lemma place_perm r l : Permutation (OrderList.place r l) (r :: l).
Proof.
  induction l as [|x l IH]; cbn [OrderList.place]; [apply Permutation_refl|].
  destruct (String.leb _ _); [apply Permutation_refl|].
  eapply Permutation_trans; [apply perm_skip, IH | apply perm_swap].
Qed.

Lemma order_by_perm rows :
  Permutation (OrderList.order_by_created_desc rows) rows.
Proof.
  unfold OrderList.order_by_created_desc.
  induction rows as [|r rows IH]; cbn [fold_right]; [apply perm_nil|].
  eapply Permutation_trans; [apply place_perm | now apply perm_skip].
Qed.

Lemma place_head r x l :
  String.leb (o_created_at (OrderList.listed r))
    (o_created_at (OrderList.listed x)) = true ->
  HdRel
    (fun r r' =>
       String.leb (o_created_at (OrderList.listed r'))
         (o_created_at (OrderList.listed r)) = true) x l ->
  HdRel
    (fun r r' =>
       String.leb (o_created_at (OrderList.listed r'))
         (o_created_at (OrderList.listed r)) = true) x (OrderList.place r l).
Proof.
  intros Hrx Hd. destruct l as [|y l]; cbn [OrderList.place].
  - now constructor.
  - destruct (String.leb (o_created_at (OrderList.listed y))
                (o_created_at (OrderList.listed r))).
    + now constructor.
    + constructor. now inversion Hd.
Qed.

Lemma place_sorted r l : newest_first l -> newest_first (OrderList.place r l).
Proof.
  unfold newest_first.
  induction l as [|x l IH]; cbn [OrderList.place]; intros S.
  - repeat constructor.
  - destruct (String.leb (o_created_at (OrderList.listed x))
                (o_created_at (OrderList.listed r))) eqn:E.
    + constructor; [exact S | now constructor].
    + apply Sorted_inv in S as [S Hd].
      constructor; [now apply IH|].
      apply place_head; [|exact Hd].
      destruct (String.leb_total (o_created_at (OrderList.listed r))
                  (o_created_at (OrderList.listed x))) as [H|H];
        [exact H | congruence].
Qed.

Lemma order_by_sorted rows :
  newest_first (OrderList.order_by_created_desc rows).
Proof.
  unfold OrderList.order_by_created_desc.
  induction rows as [|r rows IH]; cbn [fold_right].
  - constructor.
  - now apply place_sorted.
Qed.

Lemma limit_offset_incl {A} limit offset (rows : list A) x :
  In x (OrderList.limit_offset limit offset rows) -> In x rows.
Proof.
  unfold OrderList.limit_offset. intros H.
  assert (Hs : In x (skipn (Z.to_nat offset) rows)).
  { destruct (limit <? 0)%Z; [exact H|].
    rewrite <- (firstn_skipn (Z.to_nat limit)). apply in_or_app. now left. }
  rewrite <- (firstn_skipn (Z.to_nat offset) rows).
  apply in_or_app. now right.
Qed.

Lemma limit_offset_NoDup {A B} (key : A -> B) limit offset (rows : list A) :
  NoDup (map key rows) ->
  NoDup (map key (OrderList.limit_offset limit offset rows)).
Proof.
  unfold OrderList.limit_offset. intros H.
  assert (Hs : NoDup (map key (skipn (Z.to_nat offset) rows))).
  { rewrite <- (firstn_skipn (Z.to_nat offset) rows), map_app in H.
    now apply NoDup_app_remove_l in H. }
  destruct (limit <? 0)%Z; [exact Hs|].
  rewrite <- (firstn_skipn (Z.to_nat limit) (skipn _ rows)), map_app in Hs.
  now apply NoDup_app_remove_r in Hs.
Qed.

Lemma distinct_NoDup l : distinct l = true -> NoDup l.
Proof.
  induction l as [|x l IH]; cbn [distinct]; intros H; constructor.
  - apply andb_prop in H as [H _]. apply negb_true_iff in H.
    intros Hin. apply existsb_eqb_In in Hin. congruence.
  - apply andb_prop in H as [_ H]. now apply IH.
Qed.

Lemma NoDup_map_filter {A B} (key : A -> B) (f : A -> bool) l :
  NoDup (map key l) -> NoDup (map key (filter f l)).
Proof.
  induction l as [|x l IH]; cbn [map filter]; [easy|].
  intros H. apply NoDup_cons_iff in H as [Hx Hl].
  destruct (f x); cbn [map]; [|now apply IH].
  constructor; [|now apply IH].
  intros Hin. apply Hx. apply in_map_iff in Hin as (y & E & Hy).
  apply in_map_iff. exists y. split; [exact E|].
  now apply filter_In in Hy.
Qed.

Lemma grouped_rows userId d r :
  In r (OrderList.groupedOrders userId d) <->
  In (OrderList.listed r) (orders d)
  /\ o_user_id (OrderList.listed r) = userId
  /\ r = OrderList.count_items d (OrderList.listed r).
Proof.
  unfold OrderList.groupedOrders. split.
  - intros H.
    apply (Permutation_in _ (order_by_perm _)) in H.
    apply in_map_iff in H as (o & <- & Ho).
    apply filter_In in Ho as [Ho Hu]. apply Z.eqb_eq in Hu.
    now repeat split.
  - intros (Ho & Hu & ->).
    apply (Permutation_in _ (Permutation_sym (order_by_perm _))).
    apply in_map. apply filter_In. split; [exact Ho | now apply Z.eqb_eq].
Qed.

Lemma grouped_ids userId d :
  primary_key o_id (orders d) = true ->
  NoDup (map (fun r => o_id (OrderList.listed r))
           (OrderList.groupedOrders userId d)).
Proof.
  intros PK. unfold OrderList.groupedOrders.
  eapply Permutation_NoDup.
  - apply Permutation_map, Permutation_sym, order_by_perm.
  - rewrite map_map. cbn [OrderList.count_items OrderList.listed].
    apply NoDup_map_filter. now apply distinct_NoDup.
Qed.

Lemma get_orders_run userId page limit (w : world) :
  (fst (OrderList.get_orders userId page limit w)
   = OrderList.Failed 500 "Failed to fetch orders"
   \/ fst (OrderList.get_orders userId page limit w)
      = let p := match page with Some p => p | None => 1 end in
        let l := match limit with Some l => l | None => 10 end in
        OrderList.Listed
          (OrderList.selectOrders userId l ((p - 1) * l) (db w))
          (OrderList.mkPagination p l (OrderList.countOrders userId (db w))
             (OrderList.pages_of (OrderList.countOrders userId (db w)) l)))
  /\ db (snd (OrderList.get_orders userId page limit w)) = db w.
Proof.
  destruct (OrderList.get_orders userId page limit w) as [a w'] eqn:Run.
  revert Run. unfold OrderList.get_orders, OrderList.get_orders_body.
  unfold bind at 1.
  destruct (query _ w) as [[rows|] w1] eqn:Q1.
  - pose proof (query_db _ _ _ _ Q1) as D1.
    apply query_returned in Q1.
    unfold bind at 1.
    destruct (query _ w1) as [[n|] w2] eqn:Q2.
    + pose proof (query_db _ _ _ _ Q2) as D2.
      apply query_returned in Q2. cbn [ret].
      intros Run. inversion Run; subst a w'. cbn [fst snd].
      split; [right | congruence].
      cbv zeta. rewrite Q1, Q2, D1. reflexivity.
    + apply query_db in Q2. intros Run. inversion Run; subst.
      cbn [fst snd]. split; [now left | congruence].
  - apply query_db in Q1. intros Run. inversion Run; subst.
    cbn [fst snd]. split; [now left | exact Q1].
Qed.

Lemma get_orders_no_faults userId page limit d :
  OrderList.get_orders userId page limit (no_faults d)
  = (let p := match page with Some p => p | None => 1 end in
     let l := match limit with Some l => l | None => 10 end in
     OrderList.Listed
       (OrderList.selectOrders userId l ((p - 1) * l) d)
       (OrderList.mkPagination p l (OrderList.countOrders userId d)
          (OrderList.pages_of (OrderList.countOrders userId d) l)),
     no_faults d).
Proof.
  unfold OrderList.get_orders, OrderList.get_orders_body.
  unfold bind at 1. rewrite query_no_faults.
  unfold bind at 1. rewrite query_no_faults. reflexivity.
Qed.

(** X15. GET / shows a user their own orders only: whatever the page and
    the limit asked for (negative ones included) and whatever the store
    does, every row of the answer is an order of the database that belongs
    to the requesting user, carries as item count the number of order
    items that reference it, and no order is listed twice ([id] being the
    key of [orders]); an error answer is 500; the database is not
    changed. *)
Theorem order_list_own userId page limit (w : world) :
  primary_key o_id (orders (db w)) = true ->
  (forall r,
      In r (OrderList.rows_of
              (fst (OrderList.get_orders userId page limit w))) ->
      In (OrderList.listed r) (orders (db w))
      /\ o_user_id (OrderList.listed r) = userId
      /\ OrderList.item_count r
         = Z.of_nat
             (List.length (items_of (o_id (OrderList.listed r)) (db w))))
  /\ NoDup (map (fun r => o_id (OrderList.listed r))
              (OrderList.rows_of
                 (fst (OrderList.get_orders userId page limit w))))
  /\ (forall code e,
        fst (OrderList.get_orders userId page limit w)
        = OrderList.Failed code e -> code = 500)
  /\ db (snd (OrderList.get_orders userId page limit w)) = db w.
Proof.
  intros PK.
  destruct (get_orders_run userId page limit w) as [[Run|Run] Hd];
    rewrite Run; cbv zeta; cbn [OrderList.rows_of].
  - split; [intros r []|]. split; [constructor|].
    split; [|exact Hd]. intros code e E. now inversion E.
  - split.
    { intros r Hr. unfold OrderList.selectOrders in Hr.
      apply limit_offset_incl in Hr.
      apply grouped_rows in Hr as (Ho & Hu & Hr).
      split; [exact Ho|]. split; [exact Hu|].
      rewrite Hr at 1. reflexivity. }
    split.
    { unfold OrderList.selectOrders.
      now apply limit_offset_NoDup, grouped_ids. }
    split; [|exact Hd]. intros code e E. discriminate E.
Qed.

Lemma chunks {A} (n : nat) (l : list A) (k : nat) :
  List.concat (map (fun i => firstn n (skipn (i * n) l)) (seq 0 k))
  = firstn (k * n) l.
Proof.
  induction k as [|k IH]; [reflexivity|].
  rewrite seq_S, map_app, concat_app, IH. cbn [map List.concat Nat.add].
  rewrite app_nil_r, firstn_skipn_comm.
  replace (firstn (k * n) l)
    with (firstn (k * n) (firstn (k * n + n) l))
    by (rewrite firstn_firstn; f_equal; lia).
  rewrite firstn_skipn. f_equal. lia.
Qed.

Lemma pages_cover total limit :
  0 < limit -> 0 <= total ->
  0 <= - ((- total) / limit)
  /\ total <= - ((- total) / limit) * limit < total + limit.
Proof.
  intros Hl Ht.
  pose proof (Z.div_mod (- total) limit ltac:(lia)) as E.
  pose proof (Z.mod_pos_bound (- total) limit Hl) as B.
  repeat split; nia.
Qed.

(** X16. Paging through the list of orders neither skips nor repeats an
    order: for a positive limit, on a database that does not change
    between the requests and with the store raising no error, every page
    is answered with the same total (the number of the user's orders) and
    the same number of pages, which is total / limit rounded up (the one
    n with total <= n * limit < total + limit); the pages 1, ..., pages
    put one after the other are exactly the user's orders sorted newest
    first, each order once, and every page after the last is empty. *)
Theorem order_pages_partition userId limit (d : database) :
  0 < limit ->
  primary_key o_id (orders d) = true ->
  exists n,
    0 <= n
    /\ Z.of_nat (List.length
                   (filter (fun o => (o_user_id o =? userId)%Z) (orders d)))
       <= n * limit
       < Z.of_nat (List.length
                     (filter (fun o => (o_user_id o =? userId)%Z)
                        (orders d))) + limit
    /\ (forall p,
          fst (OrderList.get_orders userId (Some p) (Some limit)
                 (no_faults d))
          = OrderList.Listed
              (OrderList.selectOrders userId limit ((p - 1) * limit) d)
              (OrderList.mkPagination p limit
                 (Z.of_nat (List.length (filter
                    (fun o => (o_user_id o =? userId)%Z) (orders d))))
                 (Some n)))
    /\ List.concat
         (map (fun p => OrderList.selectOrders userId limit
                          ((p - 1) * limit) d)
            (page_numbers n))
       = OrderList.groupedOrders userId d
    /\ (forall p, n < p ->
          OrderList.selectOrders userId limit ((p - 1) * limit) d = [])
    /\ Permutation (map OrderList.listed (OrderList.groupedOrders userId d))
         (filter (fun o => (o_user_id o =? userId)%Z) (orders d))
    /\ newest_first (OrderList.groupedOrders userId d)
    /\ NoDup (map (fun r => o_id (OrderList.listed r))
                (OrderList.groupedOrders userId d)).
Proof.
  intros Hl PK.
  set (own := filter (fun o => (o_user_id o =? userId)%Z) (orders d)).
  set (total := Z.of_nat (List.length own)).
  assert (Hlen : List.length (OrderList.groupedOrders userId d)
                 = List.length own).
  { unfold OrderList.groupedOrders. fold own.
    rewrite (Permutation_length (order_by_perm _)). apply length_map. }
  destruct (pages_cover total limit Hl ltac:(lia)) as [Hn [Hcover Hleast]].
  exists (- ((- total) / limit)). split; [exact Hn|].
  split; [fold own; fold total; split; [exact Hcover | exact Hleast]|].
  split.
  { intros p. rewrite get_orders_no_faults. cbv zeta. cbn [fst].
    unfold OrderList.countOrders, OrderList.pages_of. fold own. fold total.
    destruct (Z.eqb_spec limit 0) as [E|_]; [lia | reflexivity]. }
  split.
  { unfold page_numbers. rewrite map_map.
    unfold OrderList.selectOrders, OrderList.limit_offset.
    destruct (Z.ltb_spec limit 0) as [E|_]; [lia|].
    rewrite <- seq_shift, map_map.
    erewrite map_ext; [rewrite (chunks (Z.to_nat limit))|].
    - apply firstn_all2. rewrite Hlen. fold total in Hcover. nia.
    - intros i. cbv beta. do 2 f_equal. nia. }
  split.
  { intros p Hp. unfold OrderList.selectOrders, OrderList.limit_offset.
    rewrite skipn_all2;
      [destruct (limit <? 0)%Z; [reflexivity | apply firstn_nil]|].
    rewrite Hlen. fold total in Hcover. nia. }
  split.
  { unfold OrderList.groupedOrders. fold own.
    eapply Permutation_trans;
      [apply Permutation_map, order_by_perm|].
    rewrite map_map. cbn [OrderList.count_items OrderList.listed].
    rewrite map_id. apply Permutation_refl. }
  split; [apply order_by_sorted | now apply grouped_ids].
Qed.

(** ** Changing the quantity of a cart line *)

Lemma selectItemStock_row item_id userId d stock :
  Cart.selectItemStock item_id userId d = Some stock ->
  exists ci p,
    In ci (cart_items d) /\ ci_id ci = item_id /\ ci_user_id ci = userId
    /\ In p (products d) /\ p_id p = ci_product_id ci
    /\ p_stock_quantity p = stock.
Proof.
  unfold Cart.selectItemStock. intros H.
  assert (Hin : In stock
                  (flat_map
                     (fun ci =>
                        if (ci_id ci =? item_id)%Z
                           && (ci_user_id ci =? userId)%Z
                        then map p_stock_quantity
                               (filter
                                  (fun p => (p_id p =? ci_product_id ci)%Z)
                                  (products d))
                        else []) (cart_items d))).
  { destruct (flat_map _ _) as [|x l]; [discriminate|].
    inversion H; subst. now left. }
  apply in_flat_map in Hin as (ci & Hci & Hin).
  destruct ((ci_id ci =? item_id)%Z && (ci_user_id ci =? userId)%Z) eqn:E;
    [|destruct Hin].
  apply andb_prop in E as [E1 E2]. apply Z.eqb_eq in E1, E2.
  apply in_map_iff in Hin as (p & Hs & Hp).
  apply filter_In in Hp as [Hp Hid]. apply Z.eqb_eq in Hid.
  exists ci, p. now repeat split.
Qed.

(** X17. PUT /update/:id sets one line of the requester's own cart to an
    absolute quantity.  For a request whose quantity is an integer (the
    handler does not test that the number is integral; a fractional
    quantity is outside this model): whenever it answers 200, the quantity
    is at least 1, the line with the id of the path belongs to the
    requesting user, a product row with the line's product id has at least
    that much stock (whether the product is active is not looked at), and
    afterwards the one line with that id has the same owner, product and
    creation time, the requested quantity and the time of the update;
    cart lines with another id, products, orders and order items are
    unchanged. *)
Theorem update_cart_item_effect env userId item_id qty (w w' : world)
    (resp : response) :
  primary_key ci_id (cart_items (db w)) = true ->
  Cart.update_cart_item env userId item_id qty w = (resp, w') ->
  status resp = 200 ->
  exists q ci p,
    qty = Some q /\ 1 <= q
    /\ In ci (cart_items (db w))
    /\ ci_id ci = item_id /\ ci_user_id ci = userId
    /\ In p (products (db w)) /\ p_id p = ci_product_id ci
    /\ q <= p_stock_quantity p
    /\ In (mkCartItem item_id userId (ci_product_id ci) q
             (ci_created_at ci) (current_timestamp env))
         (cart_items (db w'))
    /\ (forall c, In c (cart_items (db w')) -> ci_id c = item_id ->
          c = mkCartItem item_id userId (ci_product_id ci) q
                (ci_created_at ci) (current_timestamp env))
    /\ (forall c, ci_id c <> item_id ->
          (In c (cart_items (db w')) <-> In c (cart_items (db w))))
    /\ products (db w') = products (db w)
    /\ orders (db w') = orders (db w)
    /\ order_items (db w') = order_items (db w).
Proof.
  intros PK.
  unfold Cart.update_cart_item, try_catch, Cart.update_cart_item_body.
  destruct qty as [q|]; cbn [JS.truthy_int JS.int_or negb orb];
    [|intros Run H; inversion Run; subst; discriminate H].
  destruct (Z.eqb_spec q 0) as [_|Hq0]; cbn [negb orb];
    [intros Run H; inversion Run; subst; discriminate H|].
  destruct (Z.ltb_spec q 1) as [_|Hq1];
    [intros Run H; inversion Run; subst; discriminate H|].
  unfold bind at 1.
  destruct (query _ w) as [[found|] w1] eqn:Q;
    [|intros Run H; inversion Run; subst; discriminate H].
  pose proof (query_db _ _ _ _ Q) as D1.
  apply query_returned in Q. subst found.
  destruct (Cart.selectItemStock item_id userId (db w)) as [stock|] eqn:Hs;
    [|intros Run H; inversion Run; subst; discriminate H].
  destruct (Z.ltb_spec stock q) as [_|Hstock];
    [intros Run H; inversion Run; subst; discriminate H|].
  unfold bind at 1.
  destruct (exec _ w1) as [[[]|] w2] eqn:E;
    [|intros Run H; inversion Run; subst; discriminate H].
  apply exec_returned in E as [_ D2]. cbn [ret].
  intros Run _. inversion Run; subst resp w'. clear Run.
  apply selectItemStock_row in Hs
    as (ci & p & Hci & Hid & Hu & Hp & Hpid & Hst).
  exists q, ci, p.
  assert (Hrows : cart_items (db w2)
                  = map (fun c => if (ci_id c =? item_id)%Z
                                  then Cart.set_quantity env q c else c)
                      (cart_items (db w)))
    by (rewrite D2, D1; reflexivity).
  assert (Hrow : mkCartItem item_id userId (ci_product_id ci) q
                   (ci_created_at ci) (current_timestamp env)
                 = Cart.set_quantity env q ci)
    by (unfold Cart.set_quantity; now rewrite Hid, Hu).
  rewrite Hrow.
  split; [reflexivity|]. split; [exact Hq1|].
  split; [exact Hci|]. split; [exact Hid|]. split; [exact Hu|].
  split; [exact Hp|]. split; [exact Hpid|]. split; [lia|].
  split.
  { rewrite Hrows. apply in_map_iff. exists ci. split; [|exact Hci].
    now rewrite Hid, Z.eqb_refl. }
  split.
  { rewrite Hrows. intros c Hc E.
    apply in_map_iff in Hc as (c0 & <- & Hc0).
    destruct (Z.eqb_spec (ci_id c0) item_id) as [E0|Hne].
    - f_equal. apply (primary_key_inj ci_id _ _ _ PK Hc0 Hci). congruence.
    - contradiction. }
  split.
  { rewrite Hrows. intros c Hne. rewrite in_map_iff. split.
    - intros (c0 & <- & Hc0).
      destruct (Z.eqb_spec (ci_id c0) item_id) as [E0|_]; [|exact Hc0].
      now cbn in Hne.
    - intros Hc. exists c. split; [|exact Hc].
      now destruct (Z.eqb_spec (ci_id c) item_id). }
  rewrite D2, D1. now cbn.
Qed.

(** ** The address book *)

Lemma keeps_finish (P Q : Addresses.book -> Prop) r :
  (forall b, P b -> Q b) -> keeps P (Addresses.finish r) Q.
Proof. intros H b fs HP. now apply H. Qed.

Lemma keeps_run {A} (P Q : Addresses.book -> Prop)
    (stmt : Addresses.book -> A * Addresses.book) e k :
  (forall b, P b -> Q b) ->
  (forall a, keeps (fun b' => exists b, P b /\ stmt b = (a, b')) (k a) Q) ->
  keeps P (Addresses.run stmt e k) Q.
Proof.
  intros HPQ Hk b fs HP. unfold Addresses.run. cbn [fst snd].
  destruct fs as [|[|] rest].
  - destruct (stmt b) as [a b'] eqn:E. apply (Hk a b' []). now exists b.
  - cbn [fst snd]. now apply HPQ.
  - destruct (stmt b) as [a b'] eqn:E. apply (Hk a b' rest). now exists b.
Qed.

Lemma filter_map_le {A} (f : A -> bool) (g : A -> A) l :
  (forall a, f (g a) = true -> f a = true) ->
  (List.length (filter f (map g l)) <= List.length (filter f l))%nat.
Proof.
  intros H. induction l as [|a l IH]; cbn [map filter]; [lia|].
  destruct (f (g a)) eqn:E.
  - rewrite (H a E). cbn [List.length]. lia.
  - destruct (f a); cbn [List.length]; lia.
Qed.

Lemma filter_filter_le {A} (f g : A -> bool) l :
  (List.length (filter f (filter g l)) <= List.length (filter f l))%nat.
Proof.
  induction l as [|a l IH]; cbn [filter]; [lia|].
  destruct (g a); cbn [filter]; destruct (f a); cbn [List.length]; lia.
Qed.

Lemma filter_key_le1 {A} (key : A -> Z) (f : A -> bool) l x :
  primary_key key l = true ->
  (forall a, In a l -> f a = true -> key a = x) ->
  (List.length (filter f l) <= 1)%nat.
Proof.
  intros PK. apply distinct_NoDup in PK.
  induction l as [|a l IH]; cbn [filter]; intros H; [cbn; lia|].
  cbn [map] in PK. apply NoDup_cons_iff in PK as [Ha PK].
  destruct (f a) eqn:Fa.
  - assert (E : filter f l = []).
    { destruct (filter f l) as [|a' r] eqn:E; [reflexivity|].
      assert (Hin : In a' (filter f l)) by (rewrite E; now left).
      apply filter_In in Hin as [Hin Fa'].
      exfalso. apply Ha.
      rewrite (H a (or_introl eq_refl) Fa), <- (H a' (or_intror Hin) Fa').
      now apply in_map. }
    rewrite E. cbn. lia.
  - apply (IH PK). intros a' Hin. apply H. now right.
Qed.

Section AddressBook.

Import Addresses.

Lemma unset_defaults_inv userId ty b :
  one_default b -> one_default (snd (unsetDefaults userId ty b)).
Proof.
  intros [PK H]. split.
  - cbn [unsetDefaults snd rows]. rewrite primary_key_map; [exact PK|].
    intros a. now destruct (_ && _).
  - intros u t. unfold defaults_of. cbn [unsetDefaults snd rows].
    etransitivity; [apply filter_map_le | apply (H u t)].
    intros a. destruct (_ && sql_eq (a_type a) ty); [|easy].
    cbn. rewrite andb_false_r. discriminate.
Qed.

Lemma unset_defaults_none userId t b :
  defaults_of userId t (snd (unsetDefaults userId (Some t) b)) = [].
Proof.
  unfold defaults_of. cbn [unsetDefaults snd rows].
  induction (rows b) as [|a l IH]; cbn [map filter]; [reflexivity|].
  destruct ((a_user_id a =? userId)%Z && sql_eq (a_type a) (Some t)) eqn:E.
  - cbn [unset a_user_id a_type a_is_default]. rewrite E. cbn. exact IH.
  - rewrite E. cbn [andb]. exact IH.
Qed.

Lemma insert_address_inv env userId ty first_name last_name company_name
    line_1 line_2 city_name state_name postal_code country_name phone_number
    is_default b :
  one_default b ->
  (is_default <> 0 -> forall t, ty = Some t -> defaults_of userId t b = []) ->
  one_default
    (snd (insertAddress env userId ty first_name last_name company_name
            line_1 line_2 city_name state_name postal_code country_name
            phone_number is_default b)).
Proof.
  intros [PK H] Hnone. split.
  - cbn [insertAddress snd rows].
    apply (primary_key_insert a_id (rows b) (seq_addresses b)
             (fun k => mkAddress k userId ty first_name last_name
                         company_name line_1 line_2 city_name state_name
                         postal_code country_name phone_number is_default
                         (current_timestamp env)));
      [reflexivity | exact PK].
  - intros u t. unfold defaults_of. cbn [insertAddress snd rows].
    rewrite filter_app, length_app.
    cbn [filter a_user_id a_type a_is_default].
    destruct ((userId =? u)%Z && sql_eq ty (Some t)
              && negb (is_default =? 0)%Z) eqn:E.
    + apply andb_prop in E as [E E3]. apply andb_prop in E as [E1 E2].
      apply Z.eqb_eq in E1. subst u.
      apply negb_true_iff, Z.eqb_neq in E3.
      destruct ty as [t0|]; [|discriminate E2].
      cbn in E2. apply String.eqb_eq in E2. subst t0.
      specialize (Hnone E3 t eq_refl). unfold defaults_of in Hnone.
      rewrite Hnone. cbn. lia.
    + specialize (H u t). unfold defaults_of in H. cbn [List.length]. lia.
Qed.

Lemma add_address_inv env userId req :
  keeps one_default (add_address env userId req) one_default.
Proof.
  unfold add_address.
  destruct (_ || _); [now apply keeps_finish|].
  destruct (isDefault req).
  - apply keeps_run; [easy|]. intros [].
    apply keeps_run.
    + intros b' (b & Hb & E). apply (f_equal snd) in E. cbn [snd] in E.
      rewrite <- E. now apply unset_defaults_inv.
    + intros addressId. apply keeps_finish.
      intros b2 (b1 & (b & Hb & E) & E2).
      apply (f_equal snd) in E, E2. cbn [snd] in E, E2.
      rewrite <- E2. apply insert_address_inv.
      * rewrite <- E. now apply unset_defaults_inv.
      * intros _ t Ht. rewrite <- E, Ht. apply unset_defaults_none.
  - apply keeps_run; [easy|]. intros addressId. apply keeps_finish.
    intros b' (b & Hb & E). apply (f_equal snd) in E. cbn [snd] in E.
    rewrite <- E. apply insert_address_inv; [exact Hb | easy].
Qed.

Lemma unset_other_inv userId ty address_id b :
  one_default b ->
  one_default (snd (unsetOtherDefaults userId ty address_id b)).
Proof.
  intros [PK H]. split.
  - cbn [unsetOtherDefaults snd rows]. rewrite primary_key_map; [exact PK|].
    intros a. now destruct (_ && _).
  - intros u t. unfold defaults_of. cbn [unsetOtherDefaults snd rows].
    etransitivity; [apply filter_map_le | apply (H u t)].
    intros a. destruct (_ && negb (a_id a =? address_id)%Z); [|easy].
    cbn. rewrite andb_false_r. discriminate.
Qed.

Lemma unset_other_only userId t address_id b a :
  In a (defaults_of userId t
          (snd (unsetOtherDefaults userId (Some t) address_id b))) ->
  a_id a = address_id.
Proof.
  unfold defaults_of. cbn [unsetOtherDefaults snd rows].
  intros Hin. apply filter_In in Hin as [Hin F].
  apply in_map_iff in Hin as (a0 & <- & _).
  destruct ((a_user_id a0 =? userId)%Z && sql_eq (a_type a0) (Some t)) eqn:E.
  - destruct (Z.eqb_spec (a_id a0) address_id) as [Eid|_]; [exact Eid|].
    cbn [andb negb unset a_user_id a_type a_is_default] in F.
    rewrite andb_false_r in F. discriminate F.
  - cbn [andb] in F. rewrite E in F. discriminate F.
Qed.

Lemma update_address_inv ty first_name last_name company_name line_1 line_2
    city_name state_name postal_code country_name phone_number is_default
    address_id userId b :
  one_default b ->
  (is_default <> 0 -> forall t a,
      ty = Some t -> In a (defaults_of userId t b) -> a_id a = address_id) ->
  one_default
    (snd (updateAddress ty first_name last_name company_name line_1 line_2
            city_name state_name postal_code country_name phone_number
            is_default address_id userId b)).
Proof.
  intros [PK H] Honly.
  assert (PK' : primary_key a_id
                  (rows (snd (updateAddress ty first_name last_name
                                company_name line_1 line_2 city_name
                                state_name postal_code country_name
                                phone_number is_default address_id userId
                                b))) = true).
  { cbn [updateAddress snd rows]. rewrite primary_key_map; [exact PK|].
    intros a. now destruct (_ && _). }
  split; [exact PK'|].
  intros u t.
  destruct ((userId =? u)%Z && sql_eq ty (Some t)
            && negb (is_default =? 0)%Z) eqn:C.
  - apply andb_prop in C as [C C3]. apply andb_prop in C as [C1 C2].
    apply Z.eqb_eq in C1. subst u.
    apply negb_true_iff, Z.eqb_neq in C3.
    destruct ty as [t0|]; [|discriminate C2].
    cbn in C2. apply String.eqb_eq in C2. subst t0.
    unfold defaults_of. apply (filter_key_le1 a_id _ _ address_id PK').
    cbn [updateAddress snd rows]. intros a Hin F.
    apply in_map_iff in Hin as (a0 & <- & Hin0).
    destruct ((a_id a0 =? address_id)%Z && (a_user_id a0 =? userId)%Z)
      eqn:Hit.
    + apply andb_prop in Hit as [Hit _]. now apply Z.eqb_eq in Hit.
    + apply (Honly C3 t a0 eq_refl). unfold defaults_of.
      apply filter_In. now split.
  - unfold defaults_of. cbn [updateAddress snd rows].
    etransitivity; [apply filter_map_le | apply (H u t)].
    intros a.
    destruct ((a_id a =? address_id)%Z && (a_user_id a =? userId)%Z)
      eqn:Hit; [|easy].
    apply andb_prop in Hit as [_ Hu]. apply Z.eqb_eq in Hu.
    cbn [a_user_id a_type a_is_default]. rewrite Hu, C. discriminate.
Qed.

Lemma update_address_keeps userId address_id req :
  keeps one_default (update_address userId address_id req) one_default.
Proof.
  unfold update_address.
  apply keeps_run; [easy|]. intros existingAddress.
  assert (Hsel : forall b',
             (exists b, one_default b
                        /\ selectAddress address_id userId b
                           = (existingAddress, b')) -> one_default b').
  { intros b' (b & Hb & E). unfold selectAddress in E.
    inversion E; subst. exact Hb. }
  destruct existingAddress as [existing|];
    [|apply keeps_finish; exact Hsel].
  set (ty := match type req with
             | Text s => if String.eqb s "" then a_type existing else Some s
             | _ => a_type existing
             end).
  destruct (isDefault req).
  - apply keeps_run; [exact Hsel|]. intros [].
    assert (Hun : forall b2,
               (exists b1,
                   (exists b, one_default b
                              /\ selectAddress address_id userId b
                                 = (Some existing, b1))
                   /\ unsetOtherDefaults userId ty address_id b1
                      = (tt, b2)) ->
               one_default b2
               /\ forall t a, ty = Some t ->
                    In a (defaults_of userId t b2) -> a_id a = address_id).
    { intros b2 (b1 & Hb1 & E). apply Hsel in Hb1.
      apply (f_equal snd) in E. cbn [snd] in E. rewrite <- E.
      split; [now apply unset_other_inv|].
      intros t a Ht. rewrite Ht. apply unset_other_only. }
    destruct (firstName req), (lastName req), (addressLine1 req),
      (city req), (state req), (postalCode req), (country req);
      try (apply keeps_finish; intros b2 Hb2; now apply Hun).
    apply keeps_run; [intros b2 Hb2; now apply Hun|].
    intros []. apply keeps_finish.
    intros b3 (b2 & Hb2 & E). apply Hun in Hb2 as [Hb2 Honly].
    apply (f_equal snd) in E. cbn [snd] in E. rewrite <- E.
    apply update_address_inv; [exact Hb2 | intros _; exact Honly].
  - destruct (firstName req), (lastName req), (addressLine1 req),
      (city req), (state req), (postalCode req), (country req);
      try (apply keeps_finish; exact Hsel).
    apply keeps_run; [exact Hsel|].
    intros []. apply keeps_finish.
    intros b2 (b1 & Hb1 & E). apply Hsel in Hb1.
    apply (f_equal snd) in E. cbn [snd] in E. rewrite <- E.
    apply update_address_inv; [exact Hb1 | easy].
Qed.

Lemma delete_address_keeps userId address_id :
  keeps one_default (delete_address userId address_id) one_default.
Proof.
  unfold delete_address. apply keeps_run; [easy|].
  intros changes.
  assert (H : forall b',
             (exists b, one_default b
                        /\ deleteAddress address_id userId b
                           = (changes, b')) -> one_default b').
  { intros b' (b & [PK Hb] & E). apply (f_equal snd) in E.
    cbn [snd deleteAddress] in E. rewrite <- E. split.
    - cbn [rows]. now apply primary_key_filter.
    - intros u t. unfold defaults_of. cbn [rows].
      etransitivity; [apply filter_filter_le | apply (Hb u t)]. }
  destruct (changes =? 0)%Z; apply keeps_finish; exact H.
Qed.

Lemma perform_one_default op :
  keeps one_default (perform op) one_default.
Proof.
  destruct op; cbn [perform].
  - apply add_address_inv.
  - apply update_address_keeps.
  - apply delete_address_keeps.
Qed.

End AddressBook.

(** X18. No user ever has two default addresses of one type: if the address
    ids are distinct and every user has at most one default address per
    type, this still holds after any sequence of POST /addresses,
    PUT /addresses/:id and DELETE /addresses/:id requests by any users,
    whatever the store does.  A request that makes an address the default
    first takes the default away from the user's other addresses of that
    type. *)
Theorem one_default_kept (ops : list Addresses.operation)
    (b : Addresses.book) (fs : list bool) :
  one_default b -> one_default (fst (Addresses.serve ops (b, fs))).
Proof.
  revert b fs. induction ops as [|op ops IH]; intros b fs H;
    cbn [Addresses.serve]; [exact H|].
  destruct (Addresses.perform op (b, fs)) as [r [b' fs']] eqn:E.
  cbn [snd]. apply IH.
  pose proof (perform_one_default op b fs H) as H'.
  rewrite E in H'. exact H'.
Qed.

Section AddressIsolation.

Import Addresses.

Variables (v : Z) (kept : list address).

Lemma map_other_user (hit : address -> bool) (g : address -> address) b' l :
  (forall a, a_user_id (g a) = a_user_id a) ->
  (forall a, hit a = true -> a_user_id a <> v) ->
  rows b' = map (fun a => if hit a then g a else a) l ->
  filter (fun a => (a_user_id a =? v)%Z) l = kept ->
  addresses_of v b' = kept.
Proof.
  intros Hg Hhit Hrows <-. unfold addresses_of. rewrite Hrows.
  rewrite filter_map_comm.
  - apply map_no_match. intros a Ha.
    apply filter_In in Ha as [_ Hu]. apply Z.eqb_eq in Hu.
    destruct (hit a) eqn:E; [|reflexivity].
    now apply Hhit in E.
  - intros a. destruct (hit a); [now rewrite Hg | reflexivity].
Qed.

Lemma perform_other_user op :
  acting_user op <> v ->
  keeps (fun b => addresses_of v b = kept) (perform op)
    (fun b => addresses_of v b = kept).
Proof.
  intros Hne. destruct op as [env u req|u x req|u x];
    cbn [perform acting_user] in *.
  - assert (Hins : forall ty f l c l1 l2 ci st pc co ph d b,
               addresses_of v b = kept ->
               addresses_of v
                 (snd (insertAddress env u ty f l c l1 l2 ci st pc co ph d
                         b)) = kept).
    { intros ty f l c l1 l2 ci st pc co ph d b <-.
      unfold addresses_of. cbn [insertAddress snd rows].
      rewrite filter_app. cbn [filter a_user_id].
      destruct (Z.eqb_spec u v); [contradiction | apply app_nil_r]. }
    assert (Hun : forall ty b,
               addresses_of v b = kept ->
               addresses_of v (snd (unsetDefaults u ty b)) = kept).
    { intros ty b Hb.
      apply (map_other_user
               (fun a => (a_user_id a =? u)%Z && sql_eq (a_type a) ty)
               unset _ (rows b)); [reflexivity | | reflexivity | exact Hb].
      intros a E. apply andb_prop in E as [E _]. apply Z.eqb_eq in E.
      congruence. }
    unfold add_address.
    destruct (_ || _); [now apply keeps_finish|].
    destruct (isDefault req).
    + apply keeps_run; [easy|]. intros [].
      apply keeps_run.
      * intros b' (b & Hb & E). apply (f_equal snd) in E. cbn [snd] in E.
        rewrite <- E. now apply Hun.
      * intros addressId. apply keeps_finish.
        intros b2 (b1 & (b & Hb & E) & E2).
        apply (f_equal snd) in E, E2. cbn [snd] in E, E2.
        rewrite <- E2. apply Hins. rewrite <- E. now apply Hun.
    + apply keeps_run; [easy|]. intros addressId. apply keeps_finish.
      intros b' (b & Hb & E). apply (f_equal snd) in E. cbn [snd] in E.
      rewrite <- E. now apply Hins.
  - assert (Hsel : forall r b',
               (exists b, addresses_of v b = kept
                          /\ selectAddress x u b = (r, b')) ->
               addresses_of v b' = kept).
    { intros r b' (b & Hb & E). unfold selectAddress in E.
      injection E as _ <-. exact Hb. }
    assert (Hun : forall ty b,
               addresses_of v b = kept ->
               addresses_of v (snd (unsetOtherDefaults u ty x b)) = kept).
    { intros ty b Hb.
      apply (map_other_user
               (fun a => (a_user_id a =? u)%Z && sql_eq (a_type a) ty
                         && negb (a_id a =? x)%Z)
               unset _ (rows b)); [reflexivity | | reflexivity | exact Hb].
      intros a E. apply andb_prop in E as [E _].
      apply andb_prop in E as [E _]. apply Z.eqb_eq in E. congruence. }
    assert (Hup : forall ty f l c l1 l2 ci st pc co ph d b,
               addresses_of v b = kept ->
               addresses_of v
                 (snd (updateAddress ty f l c l1 l2 ci st pc co ph d x u b))
               = kept).
    { intros ty f l c l1 l2 ci st pc co ph d b Hb.
      apply (map_other_user
               (fun a => (a_id a =? x)%Z && (a_user_id a =? u)%Z)
               (fun a => mkAddress (a_id a) (a_user_id a) ty f l c l1 l2 ci
                           st pc co ph d (a_created_at a)) _ (rows b));
        [reflexivity | | reflexivity | exact Hb].
      intros a E. apply andb_prop in E as [_ E]. apply Z.eqb_eq in E.
      congruence. }
    unfold update_address.
    apply keeps_run; [easy|]. intros existingAddress.
    destruct existingAddress as [existing|];
      [|apply keeps_finish; apply Hsel].
    destruct (isDefault req).
    + apply keeps_run; [apply Hsel|]. intros [].
      assert (H2 : forall ty b2,
                 (exists b1,
                     (exists b, addresses_of v b = kept
                                /\ selectAddress x u b
                                   = (Some existing, b1))
                     /\ unsetOtherDefaults u ty x b1 = (tt, b2)) ->
                 addresses_of v b2 = kept).
      { intros ty b2 (b1 & Hb1 & E). apply Hsel in Hb1.
        apply (f_equal snd) in E. cbn [snd] in E. rewrite <- E.
        now apply Hun. }
      destruct (firstName req), (lastName req), (addressLine1 req),
        (city req), (state req), (postalCode req), (country req);
        try (apply keeps_finish; apply H2).
      apply keeps_run; [apply H2|].
      intros []. apply keeps_finish.
      intros b3 (b2 & Hb2 & E). apply H2 in Hb2.
      apply (f_equal snd) in E. cbn [snd] in E. rewrite <- E.
      now apply Hup.
    + destruct (firstName req), (lastName req), (addressLine1 req),
        (city req), (state req), (postalCode req), (country req);
        try (apply keeps_finish; apply Hsel).
      apply keeps_run; [apply Hsel|].
      intros []. apply keeps_finish.
      intros b2 (b1 & Hb1 & E). apply Hsel in Hb1.
      apply (f_equal snd) in E. cbn [snd] in E. rewrite <- E.
      now apply Hup.
  - unfold delete_address. apply keeps_run; [easy|]. intros changes.
    assert (H : forall b',
               (exists b, addresses_of v b = kept
                          /\ deleteAddress x u b = (changes, b')) ->
               addresses_of v b' = kept).
    { intros b' (b & <- & E). apply (f_equal snd) in E.
      cbn [snd deleteAddress] in E. rewrite <- E.
      unfold addresses_of. cbn [rows]. rewrite filter_comm.
      apply (filter_no_match
               (fun a => (a_id a =? x)%Z && (a_user_id a =? u)%Z)).
      intros a Ha. apply filter_In in Ha as [_ Hu]. apply Z.eqb_eq in Hu.
      destruct (Z.eqb_spec (a_user_id a) u); [congruence|].
      apply andb_false_r. }
    destruct (changes =? 0)%Z; apply keeps_finish; exact H.
Qed.

End AddressIsolation.

(** X19. Address books are private to their owner: a request to add, update
    or delete an address made by one user changes no address of another
    user, whatever ids and fields it carries and whatever the store does;
    in particular a user cannot take another user's default away or
    overwrite or delete an address by naming its id. *)
Theorem address_isolation (op : Addresses.operation) (b : Addresses.book)
    (fs : list bool) (v : Z) :
  Addresses.acting_user op <> v ->
  Addresses.addresses_of v (fst (snd (Addresses.perform op (b, fs))))
  = Addresses.addresses_of v b.
Proof.
  intros Hne.
  now apply (perform_other_user v (Addresses.addresses_of v b) op Hne b fs).
Qed.

Lemma run_added {A} (stmt : Addresses.book -> A * Addresses.book)
    status error k s message addressId s' :
  Addresses.run stmt (Addresses.Problem status error) k s
  = (Addresses.Added message addressId, s') ->
  exists rest,
    k (fst (stmt (fst s))) (snd (stmt (fst s)), rest)
    = (Addresses.Added message addressId, s').
Proof.
  unfold Addresses.run.
  destruct (snd s) as [|[|] rest]; destruct (stmt (fst s)) as [a b];
    cbn [fst snd]; intros H.
  - now exists [].
  - discriminate H.
  - now exists rest.
Qed.

(** X20. An address added as the default is the default: when
    POST /addresses with a truthy isDefault and a type that is not null
    answers 201, the address it names, whose id no address had before, is
    afterwards the one and only default address of the requesting user for
    that type ('shipping' when the type is left out), whatever defaults
    the user had. *)
Theorem add_default_address env userId (req : Addresses.request)
    (b b' : Addresses.book) (fs fs' : list bool) message addressId :
  Addresses.add_address env userId req (b, fs)
  = (Addresses.Added message addressId, (b', fs')) ->
  Addresses.isDefault req = true ->
  Addresses.type req <> Addresses.Null ->
  exists a,
    Addresses.defaults_of userId
      match Addresses.type req with
      | Addresses.Text s => s
      | _ => "shipping"
      end b' = [a]
    /\ Addresses.a_id a = addressId
    /\ Addresses.a_user_id a = userId
    /\ ~ In addressId (map Addresses.a_id (Addresses.rows b)).
Proof.
  intros Run Hdef Hty. revert Run. unfold Addresses.add_address.
  destruct (_ || _); [discriminate|].
  rewrite Hdef.
  set (t := match Addresses.type req with
            | Addresses.Text s => s
            | _ => "shipping"
            end).
  assert (Et : match Addresses.type req with
               | Addresses.Absent => Some "shipping"
               | Addresses.Null => None
               | Addresses.Text s => Some s
               end = Some t).
  { subst t. destruct (Addresses.type req); [reflexivity | | reflexivity].
    contradiction. }
  rewrite Et. intros Run.
  apply run_added in Run as (rest & Run). cbn [fst] in Run.
  apply run_added in Run as (rest' & Run). cbn [fst] in Run.
  unfold Addresses.finish in Run. injection Run as _ <- <- _.
  eexists. split; [|split; [|split]].
  - unfold Addresses.defaults_of.
    cbn [Addresses.insertAddress snd Addresses.rows].
    rewrite filter_app.
    pose proof (unset_defaults_none userId t b) as Hnone.
    unfold Addresses.defaults_of in Hnone.
    cbn [Addresses.unsetDefaults snd Addresses.rows] in Hnone.
    rewrite Hnone.
    cbn [filter Addresses.a_user_id Addresses.a_type Addresses.a_is_default
         Addresses.sql_eq app].
    rewrite Z.eqb_refl, String.eqb_refl. cbn [andb negb Z.eqb].
    reflexivity.
  - reflexivity.
  - reflexivity.
  - cbn [Addresses.insertAddress fst].
    cbn [Addresses.unsetDefaults snd Addresses.rows Addresses.seq_addresses].
    rewrite map_map.
    erewrite (map_ext _ Addresses.a_id);
      [apply next_rowid_fresh|].
    intros a. now destruct (_ && _).
Qed.

(** * The further properties in the shop of [Scenario] *)

Lemma shop_keys : keys_ok Scenario.shop.
Proof.
  split; [reflexivity|]. split; [reflexivity|]. split; [reflexivity|].
  split; [reflexivity|].
  intros userId. unfold user_lines. cbn -[Z.eqb].
  destruct (Z.eqb_spec 7 userId) as [E7|_];
    destruct (Z.eqb_spec 8 userId) as [E8|_]; try reflexivity.
  exfalso. lia.
Qed.

Lemma shop_stock : stock_ok Scenario.shop.
Proof. intros p [<-|[<-|[]]]; cbn; lia. Qed.

Lemma keys_kept_witness :
  keys_ok (db (no_faults Scenario.shop))
  /\ keys_ok (db (serve Scenario.shopping (no_faults Scenario.shop))).
Proof.
  split; [exact shop_keys|].
  apply (keys_kept Scenario.shopping (no_faults Scenario.shop)).
  exact shop_keys.
Defined.

Lemma create_order_never_oversells_witness :
  keys_ok (db (no_faults Scenario.shop))
  /\ stock_ok (db (no_faults Scenario.shop))
  /\ stock_ok
       (db (snd (Orders.create_order Sample.env 7 Sample.bare
                   (no_faults Scenario.shop)))).
Proof.
  split; [exact shop_keys|]. split; [exact shop_stock|].
  apply (create_order_never_oversells Sample.env 7 Sample.bare
           (no_faults Scenario.shop)); [exact shop_keys | exact shop_stock].
Defined.

Lemma error_leaves_database_witness :
  single_write (AddToCart Sample.env 7 Scenario.a_tray)
  /\ 400 <= status (fst (perform (AddToCart Sample.env 7 Scenario.a_tray)
                           (mkWorld Scenario.shop [false])))
  /\ ~ declined (fst (perform (AddToCart Sample.env 7 Scenario.a_tray)
                        (mkWorld Scenario.shop [false])))
  /\ status (fst (perform (AddToCart Sample.env 7 Scenario.a_tray)
                    (mkWorld Scenario.shop [false]))) = 404
  /\ db (snd (perform (AddToCart Sample.env 7 Scenario.a_tray)
                (mkWorld Scenario.shop [false])))
     = db (mkWorld Scenario.shop [false]).
Proof.
  assert (Hs : 400 <= status (fst (perform
                                     (AddToCart Sample.env 7 Scenario.a_tray)
                                     (mkWorld Scenario.shop [false]))))
    by (vm_compute; discriminate).
  assert (Hd : ~ declined (fst (perform
                                  (AddToCart Sample.env 7 Scenario.a_tray)
                                  (mkWorld Scenario.shop [false]))))
    by (intros [e He]; vm_compute in He; discriminate He).
  split; [exact I|]. split; [exact Hs|]. split; [exact Hd|].
  split; [reflexivity|].
  exact (error_leaves_database (AddToCart Sample.env 7 Scenario.a_tray)
           (mkWorld Scenario.shop [false]) I Hs Hd).
Defined.

Lemma payment_is_final_witness :
  Payments.process_payment Sample.env 7 Sample.pay_by_card
    (no_faults Sample.awaiting_payment)
  = (fst Scenario.paid, snd Scenario.paid)
  /\ (status (fst Scenario.paid) = 200 \/ declined (fst Scenario.paid))
  /\ Payments.orderId Sample.pay_by_card
     = Payments.orderId Sample.pay_by_card
  /\ is_error
       (fst (Payments.process_payment Sample.env 7 Sample.pay_by_card
               (serve Scenario.meanwhile
                  (mkWorld (db (snd Scenario.paid)) []))))
  /\ db (snd (Payments.process_payment Sample.env 7 Sample.pay_by_card
                (serve Scenario.meanwhile
                   (mkWorld (db (snd Scenario.paid)) []))))
     = db (serve Scenario.meanwhile (mkWorld (db (snd Scenario.paid)) [])).
Proof.
  split; [reflexivity|]. split; [now left|]. split; [reflexivity|].
  apply (payment_is_final Sample.env 7 Sample.pay_by_card
           (no_faults Sample.awaiting_payment) (snd Scenario.paid)
           (fst Scenario.paid) Scenario.meanwhile [] Sample.env 7
           Sample.pay_by_card);
    [reflexivity | now left | reflexivity].
Defined.

Lemma add_to_cart_effect_witness :
  primary_key ci_id (cart_items (db (no_faults Scenario.shop))) = true
  /\ Cart.add_to_cart Sample.env 7 Scenario.two_more_mugs
       (no_faults Scenario.shop)
     = (fst Scenario.added, snd Scenario.added)
  /\ status (fst Scenario.added) = 200
  /\ quantity_in_cart 7 1 (db (snd Scenario.added)) = Some 5
  /\ quantity_in_cart 8 1 (db (snd Scenario.added)) = Some 1
  /\ exists pid p,
       Cart.productId Scenario.two_more_mugs = Some pid
       /\ Cart.selectActiveProduct pid (db (no_faults Scenario.shop))
          = Some p
       /\ p_is_active p = 1.
Proof.
  split; [reflexivity|]. split; [reflexivity|]. split; [reflexivity|].
  split; [reflexivity|]. split; [reflexivity|].
  destruct (add_to_cart_effect Sample.env 7 Scenario.two_more_mugs
              (no_faults Scenario.shop) (snd Scenario.added)
              (fst Scenario.added) eq_refl eq_refl eq_refl)
    as (pid & p & Hpid & Hp & Hact & _).
  exists pid, p. split; [exact Hpid|]. split; [exact Hp | exact Hact].
Defined.

Lemma cart_isolation_witness :
  primary_key ci_id (cart_items (db (no_faults Scenario.shop))) = true
  /\ acting_user (ClearCart 7) <> Some 8
  /\ user_lines 8 (db (snd (perform (ClearCart 7) (no_faults Scenario.shop))))
     = user_lines 8 (db (no_faults Scenario.shop)).
Proof.
  split; [reflexivity|]. split; [discriminate|].
  apply (cart_isolation (ClearCart 7) (no_faults Scenario.shop) 8);
    [reflexivity | discriminate].
Defined.

Lemma second_order_rejected_witness :
  Orders.create_order Sample.env 7 Sample.bare Sample.small_world
  = (fst Sample.small_outcome, snd Sample.small_outcome)
  /\ status (fst Sample.small_outcome) = 201
  /\ is_error
       (fst (Orders.create_order Sample.env 7 Sample.bare
               (mkWorld (db (snd Sample.small_outcome)) [true])))
  /\ db (snd (Orders.create_order Sample.env 7 Sample.bare
                (mkWorld (db (snd Sample.small_outcome)) [true])))
     = db (snd Sample.small_outcome).
Proof.
  split; [reflexivity|]. split; [reflexivity|].
  apply (second_order_rejected Sample.env 7 Sample.bare Sample.small_world
           (snd Sample.small_outcome) (fst Sample.small_outcome)
           Sample.env Sample.bare [true]); reflexivity.
Defined.

Lemma add_then_remove_witness :
  Cart.productId Scenario.two_more_mugs = Some 1
  /\ 1 <> 0
  /\ Cart.selectActiveProduct 1 Scenario.shop
     = Some (mkProduct 1 "Mug" 10.00%float 5 1)
  /\ match Cart.quantity Scenario.two_more_mugs with
     | Some q => q
     | None => 1
     end <= p_stock_quantity (mkProduct 1 "Mug" 10.00%float 5 1)
  /\ Cart.selectExistingItem 9 1 Scenario.shop = None
  /\ exists d1 d2 line,
       Cart.add_to_cart Sample.env 9 Scenario.two_more_mugs
         (no_faults Scenario.shop)
       = (json 200 (Message "Item added to cart successfully"),
          no_faults d1)
       /\ Cart.remove_from_cart 9 (ci_id line) (no_faults d1)
          = (json 200 (Message "Item removed from cart successfully"),
             no_faults d2)
       /\ cart_items d2 = cart_items Scenario.shop.
Proof.
  split; [reflexivity|]. split; [discriminate|]. split; [reflexivity|].
  split; [cbn; lia|]. split; [reflexivity|].
  destruct (add_then_remove Sample.env 9 Scenario.two_more_mugs
              Scenario.shop 1 (mkProduct 1 "Mug" 10.00%float 5 1)
              eq_refl ltac:(discriminate) eq_refl ltac:(cbn; lia) eq_refl)
    as (d1 & d2 & line & Hadd & _ & _ & _ & Hrem & Hcart & _).
  exists d1, d2, line. split; [exact Hadd|]. split; [exact Hrem|].
  exact Hcart.
Defined.

Lemma deleted_product_unavailable_witness :
  Products.delete_product 1 (no_faults Scenario.shop)
  = (fst Scenario.deleted, snd Scenario.deleted)
  /\ status (fst Scenario.deleted) = 200
  /\ Cart.selectActiveProduct 1 (db (snd Scenario.deleted)) = None
  /\ map p_stock_quantity (products (db (snd Scenario.deleted))) = [5; 4]
  /\ forall userId item,
       In item (Orders.selectCartItems userId (db (snd Scenario.deleted))) ->
       Orders.product_id item <> 1.
Proof.
  split; [reflexivity|]. split; [reflexivity|].
  destruct (deleted_product_unavailable 1 (no_faults Scenario.shop)
              (snd Scenario.deleted) (fst Scenario.deleted)
              eq_refl eq_refl)
    as (_ & _ & Hnone & _ & Hrows & _).
  split; [exact Hnone|]. split; [reflexivity | exact Hrows].
Defined.

Lemma update_product_replaces_witness :
  Products.update_product 2 Scenario.tray_again (no_faults Scenario.shop)
  = (fst Scenario.updated, snd Scenario.updated)
  /\ status (fst Scenario.updated) = 200
  /\ Cart.selectActiveProduct 2 (db (no_faults Scenario.shop)) = None
  /\ Cart.selectActiveProduct 2 (db (snd Scenario.updated))
     = Some (mkProduct 2 "Tray" 20.00%float 0 1)
  /\ exists nm pr,
       Products.name Scenario.tray_again = Some nm
       /\ Products.price Scenario.tray_again = Some pr
       /\ In (mkProduct 2 nm pr 0 1) (products (db (snd Scenario.updated))).
Proof.
  split; [reflexivity|]. split; [reflexivity|]. split; [reflexivity|].
  split; [reflexivity|].
  destruct (update_product_replaces 2 Scenario.tray_again
              (no_faults Scenario.shop) (snd Scenario.updated)
              (fst Scenario.updated) eq_refl eq_refl)
    as (nm & pr & Hnm & Hpr & _ & Hin & _).
  exists nm, pr. split; [exact Hnm|]. split; [exact Hpr | exact Hin].
Defined.

Lemma create_product_round_trip_witness :
  Products.create_product Scenario.a_bowl (no_faults Scenario.shop)
  = (fst Scenario.stocked, snd Scenario.stocked)
  /\ status (fst Scenario.stocked) = 201
  /\ Cart.selectActiveProduct 3 (db (snd Scenario.stocked))
     = Some (mkProduct 3 "Bowl" 12.50%float 3 1)
  /\ exists nm pr pid,
       Products.name Scenario.a_bowl = Some nm
       /\ Products.price Scenario.a_bowl = Some pr
       /\ body (fst Scenario.stocked)
          = ProductCreated "Product created successfully" pid
       /\ Cart.selectActiveProduct pid (db (snd Scenario.stocked))
          = Some (mkProduct pid nm pr 3 1).
Proof.
  split; [reflexivity|]. split; [reflexivity|]. split; [reflexivity|].
  destruct (create_product_round_trip Scenario.a_bowl
              (no_faults Scenario.shop) (snd Scenario.stocked)
              (fst Scenario.stocked) eq_refl eq_refl)
    as (nm & pr & pid & Hnm & _ & Hpr & _ & Hbody & _ & _ & Hfind & _).
  exists nm, pr, pid. split; [exact Hnm|]. split; [exact Hpr|].
  split; [exact Hbody | exact Hfind].
Defined.

Lemma paid_orders_keep_reference_witness :
  paid_with_reference (db (no_faults Sample.awaiting_payment))
  /\ map o_payment_status
       (orders
          (db (serve [ProcessPayment Sample.env 7 Sample.pay_by_card]
                 (no_faults Sample.awaiting_payment))))
     = ["completed"]
  /\ paid_with_reference
       (db (serve [ProcessPayment Sample.env 7 Sample.pay_by_card]
              (no_faults Sample.awaiting_payment))).
Proof.
  assert (H : paid_with_reference (db (no_faults Sample.awaiting_payment))).
  { intros o [<-|[]] E. discriminate E. }
  split; [exact H|]. split; [reflexivity|].
  apply (paid_orders_keep_reference
           [ProcessPayment Sample.env 7 Sample.pay_by_card]
           (no_faults Sample.awaiting_payment) H).
Defined.

Lemma order_list_own_witness :
  primary_key o_id (orders (db (no_faults Scenario.history))) = true
  /\ map (fun r => o_id (OrderList.listed r))
       (OrderList.rows_of
          (fst (OrderList.get_orders 7 None None
                  (no_faults Scenario.history)))) = [3; 1]
  /\ (forall r,
        In r (OrderList.rows_of
                (fst (OrderList.get_orders 7 None None
                        (no_faults Scenario.history)))) ->
        In (OrderList.listed r) (orders (db (no_faults Scenario.history)))
        /\ o_user_id (OrderList.listed r) = 7
        /\ OrderList.item_count r
           = Z.of_nat
               (List.length
                  (items_of (o_id (OrderList.listed r))
                     (db (no_faults Scenario.history)))))
  /\ db (snd (OrderList.get_orders 7 None None
                (no_faults Scenario.history)))
     = db (no_faults Scenario.history).
Proof.
  split; [reflexivity|]. split; [reflexivity|].
  destruct (order_list_own 7 None None (no_faults Scenario.history)
              eq_refl) as (Hrows & _ & _ & Hdb).
  split; [exact Hrows | exact Hdb].
Defined.

Lemma order_pages_partition_witness :
  0 < 1
  /\ primary_key o_id (orders Scenario.history) = true
  /\ map (fun r => o_id (OrderList.listed r))
       (OrderList.groupedOrders 7 Scenario.history) = [3; 1]
  /\ exists n,
       n = 2
       /\ (forall p,
             fst (OrderList.get_orders 7 (Some p) (Some 1)
                    (no_faults Scenario.history))
             = OrderList.Listed
                 (OrderList.selectOrders 7 1 ((p - 1) * 1) Scenario.history)
                 (OrderList.mkPagination p 1 2 (Some n)))
       /\ List.concat
            (map (fun p => OrderList.selectOrders 7 1 ((p - 1) * 1)
                             Scenario.history)
               (page_numbers n))
          = OrderList.groupedOrders 7 Scenario.history
       /\ forall p, n < p ->
            OrderList.selectOrders 7 1 ((p - 1) * 1) Scenario.history = [].
Proof.
  split; [lia|]. split; [reflexivity|]. split; [reflexivity|].
  destruct (order_pages_partition 7 1 Scenario.history ltac:(lia) eq_refl)
    as (n & Hn & Hceil & Hpage & Hcat & Hlast & _).
  exists n. cbn in Hceil.
  split; [lia|]. split; [exact Hpage|]. split; [exact Hcat | exact Hlast].
Defined.

Lemma update_cart_item_effect_witness :
  primary_key ci_id (cart_items (db (no_faults Scenario.shop))) = true
  /\ Cart.update_cart_item Sample.env 7 1 (Some 5) (no_faults Scenario.shop)
     = (fst Scenario.set_to_five, snd Scenario.set_to_five)
  /\ status (fst Scenario.set_to_five) = 200
  /\ map ci_quantity (cart_items (db (snd Scenario.set_to_five))) = [5; 1]
  /\ exists q ci,
       Some 5 = Some q /\ 1 <= q
       /\ In ci (cart_items (db (no_faults Scenario.shop)))
       /\ ci_user_id ci = 7
       /\ In (mkCartItem 1 7 (ci_product_id ci) q (ci_created_at ci)
                (current_timestamp Sample.env))
            (cart_items (db (snd Scenario.set_to_five))).
Proof.
  split; [reflexivity|]. split; [reflexivity|]. split; [reflexivity|].
  split; [reflexivity|].
  destruct (update_cart_item_effect Sample.env 7 1 (Some 5)
              (no_faults Scenario.shop) (snd Scenario.set_to_five)
              (fst Scenario.set_to_five) eq_refl eq_refl eq_refl)
    as (q & ci & p & Hq & Hq1 & Hci & _ & Hu & _ & _ & _ & Hin & _).
  exists q, ci. split; [exact Hq|]. split; [exact Hq1|].
  split; [exact Hci|]. split; [exact Hu | exact Hin].
Defined.

Lemma address_book_default : one_default Scenario.address_book.
Proof.
  split; [reflexivity|].
  intros userId address_type. unfold Addresses.defaults_of. cbn.
  destruct (_ && _); cbn; lia.
Qed.

Lemma one_default_kept_witness :
  one_default Scenario.address_book
  /\ map Addresses.a_is_default
       (Addresses.rows
          (fst (Addresses.serve [Addresses.AddAddress Sample.env 7
                                   Scenario.office]
                  (Scenario.address_book, [])))) = [0; 1]
  /\ one_default
       (fst (Addresses.serve [Addresses.AddAddress Sample.env 7
                                Scenario.office]
               (Scenario.address_book, []))).
Proof.
  split; [exact address_book_default|]. split; [reflexivity|].
  apply (one_default_kept [Addresses.AddAddress Sample.env 7 Scenario.office]
           Scenario.address_book []).
  exact address_book_default.
Defined.

Lemma address_isolation_witness :
  Addresses.acting_user (Addresses.DeleteAddress 8 1) <> 7
  /\ Addresses.addresses_of 7
       (fst (snd (Addresses.perform (Addresses.DeleteAddress 8 1)
                    (Scenario.address_book, []))))
     = Addresses.addresses_of 7 Scenario.address_book.
Proof.
  split; [discriminate|].
  apply (address_isolation (Addresses.DeleteAddress 8 1)
           Scenario.address_book [] 7).
  discriminate.
Defined.

Lemma add_default_address_witness :
  Addresses.add_address Sample.env 7 Scenario.office
    (Scenario.address_book, [])
  = (Addresses.Added "Address added successfully" 2,
     (fst (snd Scenario.moved), snd (snd Scenario.moved)))
  /\ Addresses.isDefault Scenario.office = true
  /\ Addresses.type Scenario.office <> Addresses.Null
  /\ exists a,
       Addresses.defaults_of 7 "shipping" (fst (snd Scenario.moved)) = [a]
       /\ Addresses.a_id a = 2
       /\ Addresses.a_user_id a = 7.
Proof.
  split; [reflexivity|]. split; [reflexivity|]. split; [discriminate|].
  destruct (add_default_address Sample.env 7 Scenario.office
              Scenario.address_book (fst (snd Scenario.moved)) []
              (snd (snd Scenario.moved)) "Address added successfully" 2
              eq_refl eq_refl ltac:(discriminate))
    as (a & Hdef & Hid & Hu & _).
  exists a. split; [exact Hdef|]. split; [exact Hid | exact Hu].
Defined.
